(** * AutoTrack: a shallow embedding of [auto-track.js]

    The automatic interaction-capture engine of the analytics SDK:
    the readiness gate of [start], the descriptor builder
    [getElementProps], the structural path resolver [getXPath], and
    the listeners wired by [_initializeTracking].

    JavaScript numbers that reach a comparison or the sink are modelled
    by [jsnum]; binary64 arithmetic is computed with the primitive
    floats of the kernel; a string is a sequence of code units below
    256, the Latin-1 range of JavaScript's UTF-16 strings, one
    character of [string] for each code unit; a thrown exception is
    the [Throw] outcome of the [M] monad. *)

From Stdlib Require Import ZArith String Ascii List Lia Bool DecimalString DecimalNat Sorted.
From Stdlib Require Import PrimFloat FloatOps FloatAxioms FloatLemmas SpecFloat Uint63.
From stdpp Require Import base gmap strings list.

Import ListNotations.
Local Open Scope string_scope.
Local Open Scope list_scope.

(** ** JavaScript strings *)

Module JsString.

Definition empty : string := EmptyString.

(** Truthiness of a string: every string but the empty one. *)
Definition truthy (s : string) : bool :=
  match s with EmptyString => false | String _ _ => true end.

(** The lower-case form of a code unit: the letters A to Z, and in
    the Latin-1 range the letters U+00C0 to U+00DE but the
    multiplication sign U+00D7, move up by 32. *)
Definition lower_ascii (c : ascii) : ascii :=
  let n := nat_of_ascii c in
  if ((65 <=? n) && (n <=? 90) || (192 <=? n) && (n <=? 222) && negb (n =? 215))%nat
  then ascii_of_nat (n + 32) else c.

(** [String.prototype.toLowerCase]. *)
Fixpoint toLowerCase (s : string) : string :=
  match s with
  | EmptyString => EmptyString
  | String c s' => String (lower_ascii c) (toLowerCase s')
  end.

(** ASCII white space: TAB, LF, VT, FF, CR and SPACE. *)
Definition is_space (c : ascii) : bool :=
  let n := nat_of_ascii c in
  ((9 <=? n) && (n <=? 13) || (n =? 32))%nat.

(** What [String.prototype.trim] strips: white space and line
    terminators, which below 256 are the ASCII white space and the
    no-break space U+00A0. *)
Definition is_trimmed (c : ascii) : bool :=
  is_space c || (nat_of_ascii c =? 160)%nat.

Fixpoint trimStart (s : string) : string :=
  match s with
  | EmptyString => EmptyString
  | String c s' => if is_trimmed c then trimStart s' else s
  end.

Fixpoint rev_append (s acc : string) : string :=
  match s with
  | EmptyString => acc
  | String c s' => rev_append s' (String c acc)
  end.

Definition rev (s : string) : string := rev_append s EmptyString.

Definition trim (s : string) : string := rev (trimStart (rev (trimStart s))).

(** [s.substring(0, n)]: the first [n] code units. *)
Definition substring0 (n : nat) (s : string) : string := String.substring 0 n s.

(** [s.split(sep)] for a one-character separator: never the empty
    list, the empty string splits into one empty piece. *)
Fixpoint split (sep : ascii) (s : string) : list string :=
  match s with
  | EmptyString => [EmptyString]
  | String c s' =>
      if Ascii.eqb c sep then EmptyString :: split sep s'
      else match split sep s' with
           | [] => [String c EmptyString]
           | w :: ws => String c w :: ws
           end
  end.

(** [pieces.join(sep)]. *)
Definition join (sep : string) (pieces : list string) : string :=
  String.concat sep pieces.

Definition space : ascii := ascii_of_nat 32.
Definition tab : ascii := ascii_of_nat 9.
Definition dquote : string := String (ascii_of_nat 34) EmptyString.

(** Decimal rendering of an integer, as in a template literal. *)
Definition of_Z (z : Z) : string := NilZero.string_of_int (Z.to_int z).
Definition of_nat (n : nat) : string := NilZero.string_of_uint (Nat.to_uint n).

End JsString.

(** ** JavaScript numbers *)

(** The numbers this program compares and reports: results of
    [Math.round] (an integer, an infinity or NaN; a negative zero
    compares and prints as zero), literals and integer properties. *)
Inductive jsnum : Type :=
| JNaN
| JInf (negative : bool)
| JInt (z : Z).

Module JsNum.

(** [a > b]: false as soon as one side is NaN. *)
Definition gt (a b : jsnum) : bool :=
  match a, b with
  | JNaN, _ | _, JNaN => false
  | JInf true, _ => false
  | JInf false, JInf false => false
  | JInf false, _ => true
  | JInt _, JInf neg => neg
  | JInt x, JInt y => (y <? x)%Z
  end.

(** [a >= b]: false as soon as one side is NaN. *)
Definition ge (a b : jsnum) : bool :=
  match a, b with
  | JNaN, _ | _, JNaN => false
  | JInf false, _ => true
  | JInf true, JInf true => true
  | JInf true, _ => false
  | JInt _, JInf neg => neg
  | JInt x, JInt y => (y <=? x)%Z
  end.

Definition truthy (a : jsnum) : bool :=
  match a with
  | JNaN => false
  | JInf _ => true
  | JInt z => negb (z =? 0)%Z
  end.

(** The binary64 number nearest to an integer, a tie going to the
    even mantissa: JavaScript holds [z] as this number. *)
Definition nearest_binary64 (z : Z) : spec_float := binary_normalize prec emax z 0 false.

(** A positive rational [num / den], [den] positive. *)
Definition fraction : Type := (Z * Z)%type.

(** [m * 2^e] and [s * 10^j] as fractions. *)
Definition binary (m e : Z) : fraction :=
  if (0 <=? e)%Z then ((m * 2 ^ e)%Z, 1%Z) else (m, (2 ^ (- e))%Z).
Definition decimal (s j : Z) : fraction :=
  if (0 <=? j)%Z then ((s * 10 ^ j)%Z, 1%Z) else (s, (10 ^ (- j))%Z).

Definition lt (a b : fraction) : bool := (fst a * snd b <? fst b * snd a)%Z.
Definition le (a b : fraction) : bool := (fst a * snd b <=? fst b * snd a)%Z.

(** The decimals that read back as the binary64 number [m * 2^e]:
    those between the midpoints to its two neighbours, the midpoints
    themselves when [m] is even. Below a power of two the neighbour
    is half as far. *)
Definition reads_back (m : positive) (e : Z) (c : fraction) : bool :=
  let m := Z.pos m in
  let closer := (m =? 2 ^ 52)%Z && (-1074 <? e)%Z in
  let low := binary (4 * m - (if closer then 1 else 2)) (e - 2) in
  let high := binary (4 * m + 2) (e - 2) in
  if Z.even m then le low c && le c high else lt low c && lt c high.

(** The number of decimal digits of a positive integer. *)
Definition digits (z : Z) : Z := Z.of_nat (String.length (JsString.of_Z z)).

(** The [n] with [10^(n-1) <= x < 10^n]. *)
Definition magnitude (x : fraction) : Z :=
  let n := (digits (fst x) - digits (snd x))%Z in
  if lt x (decimal 1 n) then n else (n + 1)%Z.

(** The integer part of [x / 10^j]. *)
Definition scaled_floor (x : fraction) (j : Z) : Z :=
  if (0 <=? j)%Z then (fst x / (snd x * 10 ^ j))%Z
  else ((fst x * 10 ^ (- j)) / snd x)%Z.

(** The choice of digits of [Number::toString] for the positive
    number [m * 2^e] of magnitude [n]: the least number [k] of digits
    such that some [s * 10^(n-k)] with [k] digits reads back as the
    number, and, of the two candidates around it, the one nearer to
    it, the even one when both are as near. The result is [s] with
    [n], or 1 with [n+1] when rounding up carried into a new digit.
    Seventeen digits always read back. *)
Fixpoint shortest (fuel : nat) (k : Z) (m : positive) (e n : Z) : Z * Z :=
  let x := binary (Z.pos m) e in
  let lo := scaled_floor x (n - k) in
  let hi := (lo + 1)%Z in
  let below := reads_back m e (decimal lo (n - k)) in
  let above := reads_back m e (decimal hi (n - k)) in
  let pick := fun s => if (s =? 10 ^ k)%Z then (1%Z, (n + 1)%Z) else (s, n) in
  match fuel with
  | O => pick lo
  | S fuel' =>
      if below && above then
        let twice := binary (2 * Z.pos m) e in
        let sum := decimal (lo + hi) (n - k) in
        pick (if lt twice sum then lo
              else if lt sum twice then hi
              else if Z.even lo then lo else hi)
      else if below then pick lo
      else if above then pick hi
      else shortest fuel' (k + 1)%Z m e n
  end.

Fixpoint zeros (n : nat) : string :=
  match n with
  | O => EmptyString
  | S n' => String "0" (zeros n')
  end.

(** [Number::toString] of the positive number [m * 2^e], with [k]
    digits [s] and magnitude [n]: the digits and [n - k] zeros when
    [k <= n <= 21], a decimal point inside the digits when
    [0 < n <= 21], after [0.] and [-n] zeros when [-6 < n <= 0], the
    exponent form otherwise. *)
Definition positive_to_string (m : positive) (e : Z) : string :=
  let '(s, n) := shortest 17 1 m e (magnitude (binary (Z.pos m) e)) in
  let ds := JsString.of_Z s in
  let k := Z.of_nat (String.length ds) in
  (if ((k <=? n) && (n <=? 21))%Z then ds ++ zeros (Z.to_nat (n - k))
   else if ((0 <? n) && (n <=? 21))%Z then
     String.substring 0 (Z.to_nat n) ds ++ "."
     ++ String.substring (Z.to_nat n) (Z.to_nat (k - n)) ds
   else if ((-6 <? n) && (n <=? 0))%Z then "0." ++ zeros (Z.to_nat (- n)) ++ ds
   else
     let x := if (0 <? n - 1)%Z then "e+" ++ JsString.of_Z (n - 1)
              else "e-" ++ JsString.of_Z (1 - n) in
     match ds with
     | String d EmptyString => String d x
     | String d rest => String d ("." ++ rest ++ x)
     | EmptyString => EmptyString
     end)%string.

(** [Number::toString] in base ten of a binary64 number. *)
Definition number_to_string (x : spec_float) : string :=
  match x with
  | S754_nan => "NaN"
  | S754_zero _ => "0"
  | S754_infinity false => "Infinity"
  | S754_infinity true => "-Infinity"
  | S754_finite s m e => ((if s then "-" else "") ++ positive_to_string m e)%string
  end.

(** [Number::toString] of the numbers of [jsnum]. An integer up to
    2^53 in magnitude is a binary64 number and prints all its digits;
    a larger one prints as the binary64 number nearest to it. *)
Definition to_string (a : jsnum) : string :=
  match a with
  | JNaN => "NaN"
  | JInf false => "Infinity"
  | JInf true => "-Infinity"
  | JInt z =>
      if (Z.abs z <=? 2 ^ 53)%Z then JsString.of_Z z
      else number_to_string (nearest_binary64 z)
  end.

(** Truthiness of a binary64 number: every number but the zeros and
    NaN. *)
Definition float_truthy (x : float) : bool := negb (PrimFloat.is_zero x || PrimFloat.is_nan x).

(** An integer as a binary64 value: the nearest one. *)
Definition to_float (z : Z) : float := SF2Prim (nearest_binary64 z).

Definition hundred : float := Eval cbv in of_uint63 100%uint63.
Definition thousand : float := Eval cbv in of_uint63 1000%uint63.

(** [Math.round]: the nearest integer, a tie going towards
    +Infinity; NaN and the infinities are returned unchanged. The
    value of a finite binary64 number is [m * 2^e], so the rounding
    is computed exactly on integers. *)
Definition Math_round (x : float) : jsnum :=
  match Prim2SF x with
  | S754_nan => JNaN
  | S754_infinity s => JInf s
  | S754_zero _ => JInt 0
  | S754_finite s m e =>
      let n := if s then Z.neg m else Z.pos m in
      if (0 <=? e)%Z then JInt (n * 2 ^ e)
      else let d := (2 ^ (- e))%Z in JInt ((2 * n + d) / (2 * d))
  end.

(** [Math.round((a / b) * 100)] on integer operands, in binary64:
    nothing guards a zero divisor. *)
Definition round_percent (a b : Z) : jsnum :=
  Math_round (PrimFloat.mul (PrimFloat.div (to_float a) (to_float b)) hundred).

(** [Math.round(a / 1000)] on an integer operand. *)
Definition round_div1000 (a : Z) : jsnum :=
  Math_round (PrimFloat.div (to_float a) thousand).

End JsNum.

(** ** JavaScript values and exceptions *)

#[local] Set Warnings "-register-all".

Inductive exn : Type :=
| TypeError (msg : string).

Inductive result (A : Type) : Type :=
| Ok (a : A)
| Throw (e : exn).
Arguments Ok {A} a.
Arguments Throw {A} e.

(** Values that the page hands to the engine: what error and
    rejection events carry, what [element.value] and the properties of
    a form yield. [VNum] holds the numbers of [jsnum] and [VFrac] any
    other number, a binary64 value with a fractional part. An object
    is described by what [String(obj)] does, [Some s] when the
    conversion yields [s] and [None] when it throws (an object without
    prototype, or one whose [toString] throws), and by its properties,
    inherited ones included. A function is described in the same way
    by what [String] does, and by what a call does with the arguments
    this program passes: [Ok v] when the call returns [v], [Throw e]
    when it throws. *)
Inductive jsval : Type :=
| VUndefined
| VNull
| VBool (b : bool)
| VNum (n : jsnum)
| VFrac (x : float)
| VStr (s : string)
| VObj (toStr : option string) (props : list (string * jsval))
| VFun (toStr : option string) (call : result jsval).

Module JsVal.

Definition truthy (v : jsval) : bool :=
  match v with
  | VUndefined | VNull => false
  | VBool b => b
  | VNum n => JsNum.truthy n
  | VFrac x => JsNum.float_truthy x
  | VStr s => JsString.truthy s
  | VObj _ _ | VFun _ _ => true
  end.

(** [String(v)]. *)
Definition String (v : jsval) : result string :=
  match v with
  | VUndefined => Ok "undefined"
  | VNull => Ok "null"
  | VBool true => Ok "true"
  | VBool false => Ok "false"
  | VNum n => Ok (JsNum.to_string n)
  | VFrac x => Ok (JsNum.number_to_string (Prim2SF x))
  | VStr s => Ok s
  | VObj (Some s) _ | VFun (Some s) _ => Ok s
  | VObj None _ | VFun None _ =>
      Throw (TypeError "Cannot convert object to primitive value")
  end.

Fixpoint assoc (k : string) (l : list (string * jsval)) : jsval :=
  match l with
  | [] => VUndefined
  | (k', v) :: l' => if String.eqb k k' then v else assoc k l'
  end.

(** [v.k] on a value that is neither null nor undefined; the
    properties of primitive wrappers and of functions are not
    modelled. *)
Definition get (v : jsval) (k : string) : jsval :=
  match v with
  | VObj _ props => assoc k props
  | _ => VUndefined
  end.

Definition nullish (v : jsval) : bool :=
  match v with VUndefined | VNull => true | _ => false end.

End JsVal.

(** Exceptions thread through [result]: [x ← r; k] runs [k] on the
    value of [r] and passes a [Throw] on. *)
#[global] Instance result_ret : MRet result := fun A a => Ok a.
#[global] Instance result_bind : MBind result := fun A B k r =>
  match r with
  | Ok a => k a
  | Throw e => Throw e
  end.

(** ** Property bags sent to the sink *)

Record field_entry : Type := { fe_name : string; fe_type : string }.

Inductive pval : Type :=
| PUndef
| PStr (s : string)
| PNum (n : jsnum)
| PFields (l : list field_entry)
| PVal (v : jsval).

(** A value of the page stored in a bag as it is. *)
Definition pval_of (v : jsval) : pval :=
  match v with
  | VUndefined => PUndef
  | VStr s => PStr s
  | VNum n => PNum n
  | _ => PVal v
  end.

(** A JavaScript object used as a bag of properties: insertion
    ordered, one entry per key. *)
Definition props : Type := list (string * pval).

(** [o[k] = v]: overwrite in place, or append a new key. *)
Fixpoint obj_set (k : string) (v : pval) (o : props) : props :=
  match o with
  | [] => [(k, v)]
  | (k', v') :: o' =>
      if String.eqb k k' then (k, v) :: o' else (k', v') :: obj_set k v o'
  end.

Definition has_key (k : string) (o : props) : bool :=
  existsb (fun kv => String.eqb k (fst kv)) o.

Fixpoint obj_get (k : string) (o : props) : option pval :=
  match o with
  | [] => None
  | (k', v) :: o' => if String.eqb k k' then Some v else obj_get k o'
  end.

(** ** The document tree *)

Module Dom.

(** [element.className]: a string on HTML elements, an
    [SVGAnimatedString] object on SVG elements, undefined on nodes
    that are not elements. *)
Inductive jsclass : Type :=
| ClassUndefined
| ClassString (s : string)
| ClassObject.

(** What the sibling scan of [getXPath] reads from a child node. *)
Record sibling : Type := {
  sib_ident : nat;
  sib_nodeType : Z;
  sib_tagName : option string
}.

(** A node with its chain of ancestors. [ident] is the identity of
    the object (what [===] compares); string properties hold the
    empty string when the property is undefined or empty; [tagName]
    and [dataset] are [None] when undefined. [childNodes] are the
    children of this node, so the siblings of [element] are
    [childNodes] of its [parentNode]. *)
Inductive node : Type := mkNode {
  ident : nat;
  nodeType : Z;
  tagName : option string;
  id : string;
  className : jsclass;
  textContent : string;
  dataset : option (list (string * string));
  name : string;
  type : string;
  value : jsval;
  role : option string;
  href : string;
  target : string;
  form_id : option string;
  childNodes : list sibling;
  parentNode : option node
}.

(** [node.parentElement]: the parent when it is an element. *)
Definition parentElement (n : node) : option node :=
  match parentNode n with
  | Some p => if (nodeType p =? 1)%Z then Some p else None
  | None => None
  end.

Fixpoint lookup (k : string) (l : list (string * string)) : option string :=
  match l with
  | [] => None
  | (k', v) :: l' => if String.eqb k k' then Some v else lookup k l'
  end.

(** The page around the tree: [window.location.pathname] and the
    identity of [document.body]. *)
Record page : Type := {
  pathname : string;
  body : option nat
}.

End Dom.

(** ** Configuration *)

Module Config.

Record TrackerConfig : Type := {
  trackClicks : bool;
  trackForms : bool;
  trackScroll : bool;
  trackErrors : bool;
  trackPerformance : bool;
  trackVisibility : bool;
  captureText : bool;
  captureAttributes : bool;
  debounceScroll : Z
}.

(** [AutoTrack.config] as the script declares it. *)
Definition default_config : TrackerConfig := {|
  trackClicks := true;
  trackForms := true;
  trackScroll := true;
  trackErrors := true;
  trackPerformance := true;
  trackVisibility := true;
  captureText := true;
  captureAttributes := true;
  debounceScroll := 500
|}.

(** The argument of [start]: the options the caller set. *)
Record CustomConfig : Type := {
  c_trackClicks : option bool;
  c_trackForms : option bool;
  c_trackScroll : option bool;
  c_trackErrors : option bool;
  c_trackPerformance : option bool;
  c_trackVisibility : option bool;
  c_captureText : option bool;
  c_captureAttributes : option bool;
  c_debounceScroll : option Z
}.

Definition no_custom : CustomConfig :=
  Build_CustomConfig None None None None None None None None None.

(** [{ ...this.config, ...customConfig }]. *)
Definition merge_config (base : TrackerConfig) (custom : CustomConfig) : TrackerConfig := {|
  trackClicks := default (trackClicks base) (c_trackClicks custom);
  trackForms := default (trackForms base) (c_trackForms custom);
  trackScroll := default (trackScroll base) (c_trackScroll custom);
  trackErrors := default (trackErrors base) (c_trackErrors custom);
  trackPerformance := default (trackPerformance base) (c_trackPerformance custom);
  trackVisibility := default (trackVisibility base) (c_trackVisibility custom);
  captureText := default (captureText base) (c_captureText custom);
  captureAttributes := default (captureAttributes base) (c_captureAttributes custom);
  debounceScroll := default (debounceScroll base) (c_debounceScroll custom)
|}.

End Config.

(** ** Structural path resolver *)

Definition same_tagName (a b : option string) : bool :=
  match a, b with
  | Some x, Some y => String.eqb x y
  | None, None => true
  | _, _ => false
  end.

(** The loop over [siblings] of [getXPath]: [Some ix] when the loop
    meets [element] with [ix] same-tag element siblings before it,
    [None] when the loop ends without meeting it. *)
Fixpoint scan_siblings (siblings : list Dom.sibling) (element : Dom.node) (ix : nat)
  : option nat :=
  match siblings with
  | [] => None
  | sibling :: rest =>
      if (Dom.sib_ident sibling =? Dom.ident element)%nat then Some ix
      else if (Dom.sib_nodeType sibling =? 1)%Z
              && same_tagName (Dom.sib_tagName sibling) (Dom.tagName element)
           then scan_siblings rest element (S ix)
           else scan_siblings rest element ix
  end.

(** [element.tagName.toLowerCase()]. *)
Definition tagName_toLowerCase (element : Dom.node) : result string :=
  match Dom.tagName element with
  | Some t => Ok (JsString.toLowerCase t)
  | None => Throw (TypeError "Cannot read properties of undefined (reading 'toLowerCase')")
  end.

Definition id_shortcut (i : string) : string :=
  "//*[@id=" ++ JsString.dquote ++ i ++ JsString.dquote ++ "]".

Definition is_body (pg : Dom.page) (element : Dom.node) : bool :=
  match Dom.body pg with
  | Some b => (Dom.ident element =? b)%nat
  | None => false
  end.

Definition path_step (parentPath tag : string) (ix : nat) : string :=
  parentPath ++ "/" ++ tag ++ "[" ++ JsString.of_nat (ix + 1) ++ "]".

Fixpoint getXPath (pg : Dom.page) (element : Dom.node) : result string :=
  if JsString.truthy (Dom.id element) then Ok (id_shortcut (Dom.id element))
  else if is_body pg element then Ok "/html/body"
  else match Dom.parentNode element with
       | None => Ok JsString.empty
       | Some parent =>
           match scan_siblings (Dom.childNodes parent) element 0 with
           | Some ix =>
               parentPath ← getXPath pg parent;
               tag ← tagName_toLowerCase element;
               Ok (path_step parentPath tag ix)
           | None => Ok JsString.empty
           end
       end.

(** ** Descriptor builder *)

(** [className.split(' ').filter(c => c).join(' ')]. *)
Definition normalize_classes (className : string) : string :=
  JsString.join " " (List.filter JsString.truthy
                                 (JsString.split JsString.space className)).

(** [gaIdElement.dataset && gaIdElement.dataset.gaId]. *)
Definition dataset_gaId (e : Dom.node) : option string :=
  match Dom.dataset e with
  | Some ds =>
      match Dom.lookup "gaId" ds with
      | Some v => if JsString.truthy v then Some v else None
      | None => None
      end
  | None => None
  end.

(** The climb [while (gaIdElement && maxDepth > 0)]. *)
Fixpoint find_gaId (maxDepth : nat) (gaIdElement : option Dom.node) : option string :=
  match maxDepth, gaIdElement with
  | S d, Some e =>
      match dataset_gaId e with
      | Some v => Some v
      | None => find_gaId d (Dom.parentElement e)
      end
  | _, _ => None
  end.

(** [Object.keys(element.dataset).forEach(key => props[`data_${key}`] = ...)]. *)
Definition copy_dataset (ds : list (string * string)) (p : props) : props :=
  fold_left
    (fun acc key =>
       obj_set ("data_" ++ key)
               (match Dom.lookup key ds with Some v => PStr v | None => PUndef end)
               acc)
    (map fst ds) p.

Definition set_if (c : bool) (k : string) (v : pval) (p : props) : props :=
  if c then obj_set k v p else p.

Definition getElementProps (cfg : Config.TrackerConfig) (pg : Dom.page) (element : Dom.node)
  : result props :=
  elementType ← tagName_toLowerCase element;
  let p := [("elementType", PStr elementType); ("page", PStr (Dom.pathname pg))] in
  let p := set_if (JsString.truthy (Dom.id element))
                  "elementId" (PStr (Dom.id element)) p in
  let p := match Dom.className element with
           | Dom.ClassString c =>
               set_if (JsString.truthy c) "elementClasses" (PStr (normalize_classes c)) p
           | _ => p
           end in
  let p := set_if (Config.captureText cfg && JsString.truthy (Dom.textContent element))
                  "elementText"
                  (PStr (JsString.substring0 100 (JsString.trim (Dom.textContent element))))
                  p in
  let p := match find_gaId 5 (Some element) with
           | Some g => obj_set "gaId" (PStr g) p
           | None => p
           end in
  let p := match Dom.dataset element with
           | Some ds => if Config.captureAttributes cfg then copy_dataset ds p else p
           | None => p
           end in
  let p := set_if (JsString.truthy (Dom.name element))
                  "elementName" (PStr (Dom.name element)) p in
  let p := set_if (JsString.truthy (Dom.type element))
                  "inputType" (PStr (Dom.type element)) p in
  p ← (if JsVal.truthy (Dom.value element)
          && negb (String.eqb (Dom.type element) "password")
       then v ← JsVal.String (Dom.value element);
            Ok (obj_set "elementValue" (PStr (JsString.substring0 50 v)) p)
       else Ok p);
  xpath ← getXPath pg element;
  Ok (obj_set "xpath" (PStr xpath) p).

(** ** Session state and effects *)

Inductive event_target : Type := Window | Document.

(** One [addEventListener] call. *)
Record registration : Type := {
  reg_target : event_target;
  reg_type : string;
  reg_capture : bool
}.

(** What the engine writes to the console. *)
Inductive console_entry : Type :=
| LogWaiting
| LogSdkReady
| ErrSdkNotInitialized
| LogStarting
| LogEnabled
| ErrTrackingClick (err : exn).

(** The state of one page session: the merged configuration, the
    listeners attached so far, the variables captured by the listener
    closures, the live polling interval with its [attempts] counter,
    and what has reached the sink ([window.Analytics.track]) and the
    console, oldest first. The model covers one call of [start]. *)
Record session : Type := {
  config : Config.TrackerConfig;
  listeners : list registration;
  maxScroll : jsnum;
  tracked : gset Z;
  scrollTimer : option Z;
  startTime : Z;
  trackedFields : gset string;
  checkInterval : option nat;
  sink : list (string * props);
  console : list console_entry
}.

Definition initial_session : session := {|
  config := Config.default_config;
  listeners := [];
  maxScroll := JInt 0;
  tracked := ∅;
  scrollTimer := None;
  startTime := 0;
  trackedFields := ∅;
  checkInterval := None;
  sink := [];
  console := []
|}.

Definition set_config (c : Config.TrackerConfig) (s : session) : session :=
  {| config := c; listeners := listeners s; maxScroll := maxScroll s;
     tracked := tracked s; scrollTimer := scrollTimer s; startTime := startTime s;
     trackedFields := trackedFields s; checkInterval := checkInterval s;
     sink := sink s; console := console s |}.

Definition set_listeners (l : list registration) (s : session) : session :=
  {| config := config s; listeners := l; maxScroll := maxScroll s;
     tracked := tracked s; scrollTimer := scrollTimer s; startTime := startTime s;
     trackedFields := trackedFields s; checkInterval := checkInterval s;
     sink := sink s; console := console s |}.

Definition set_maxScroll (m : jsnum) (s : session) : session :=
  {| config := config s; listeners := listeners s; maxScroll := m;
     tracked := tracked s; scrollTimer := scrollTimer s; startTime := startTime s;
     trackedFields := trackedFields s; checkInterval := checkInterval s;
     sink := sink s; console := console s |}.

Definition set_tracked (t : gset Z) (s : session) : session :=
  {| config := config s; listeners := listeners s; maxScroll := maxScroll s;
     tracked := t; scrollTimer := scrollTimer s; startTime := startTime s;
     trackedFields := trackedFields s; checkInterval := checkInterval s;
     sink := sink s; console := console s |}.

Definition set_scrollTimer (t : option Z) (s : session) : session :=
  {| config := config s; listeners := listeners s; maxScroll := maxScroll s;
     tracked := tracked s; scrollTimer := t; startTime := startTime s;
     trackedFields := trackedFields s; checkInterval := checkInterval s;
     sink := sink s; console := console s |}.

Definition set_startTime (t : Z) (s : session) : session :=
  {| config := config s; listeners := listeners s; maxScroll := maxScroll s;
     tracked := tracked s; scrollTimer := scrollTimer s; startTime := t;
     trackedFields := trackedFields s; checkInterval := checkInterval s;
     sink := sink s; console := console s |}.

Definition set_trackedFields (t : gset string) (s : session) : session :=
  {| config := config s; listeners := listeners s; maxScroll := maxScroll s;
     tracked := tracked s; scrollTimer := scrollTimer s; startTime := startTime s;
     trackedFields := t; checkInterval := checkInterval s;
     sink := sink s; console := console s |}.

Definition set_checkInterval (i : option nat) (s : session) : session :=
  {| config := config s; listeners := listeners s; maxScroll := maxScroll s;
     tracked := tracked s; scrollTimer := scrollTimer s; startTime := startTime s;
     trackedFields := trackedFields s; checkInterval := i;
     sink := sink s; console := console s |}.

Definition set_sink (k : list (string * props)) (s : session) : session :=
  {| config := config s; listeners := listeners s; maxScroll := maxScroll s;
     tracked := tracked s; scrollTimer := scrollTimer s; startTime := startTime s;
     trackedFields := trackedFields s; checkInterval := checkInterval s;
     sink := k; console := console s |}.

Definition set_console (c : list console_entry) (s : session) : session :=
  {| config := config s; listeners := listeners s; maxScroll := maxScroll s;
     tracked := tracked s; scrollTimer := scrollTimer s; startTime := startTime s;
     trackedFields := trackedFields s; checkInterval := checkInterval s;
     sink := sink s; console := c |}.

(** A computation over the session that may throw; what it did to the
    session before throwing stays done. *)
Definition M (A : Type) : Type := session -> result A * session.

#[global] Instance M_ret : MRet M := fun A a s => (Ok a, s).
#[global] Instance M_bind : MBind M := fun A B k m s =>
  match m s with
  | (Ok a, s') => k a s'
  | (Throw e, s') => (Throw e, s')
  end.

Definition lift {A : Type} (r : result A) : M A := fun s => (r, s).
Definition gets {A : Type} (f : session -> A) : M A := fun s => (Ok (f s), s).
Definition modify (f : session -> session) : M unit := fun s => (Ok tt, f s).

(** [try { body } catch (err) { handler(err) }]. *)
Definition try_catch (body : M unit) (handler : exn -> M unit) : M unit := fun s =>
  match body s with
  | (Ok tt, s') => (Ok tt, s')
  | (Throw err, s') => handler err s'
  end.

(** [window.Analytics.track(name, properties)]: fire and forget. *)
Definition track (eventName : string) (p : props) : M unit :=
  modify (fun s => set_sink (sink s ++ [(eventName, p)]) s).

Definition console_write (e : console_entry) : M unit :=
  modify (fun s => set_console (console s ++ [e]) s).

Definition addEventListener (t : event_target) (type : string) (capture : bool) : M unit :=
  modify (fun s => set_listeners
                     (listeners s ++ [{| reg_target := t; reg_type := type;
                                         reg_capture := capture |}]) s).

(** [array.forEach(f)]. *)
Fixpoint forEach {A : Type} (l : list A) (f : A -> M unit) : M unit :=
  match l with
  | [] => mret tt
  | x :: l' => _ ← f x; forEach l' f
  end.

(** ** Trackers *)

(** A control of a form, as the collection [form.elements] lists it. *)
Record form_field : Type := {
  field_name : string;
  field_type : string;
  field_value : string
}.

(** The target of a submit event. [f_id], [f_name], [f_action] and
    [f_method] are what the properties of that name yield: the
    reflected attribute, a string, or the control of that name when
    the form has one, which replaces the property. [f_elements] is the
    collection of controls, [None] on a target without one (a node
    that is not a form). *)
Record submit_target : Type := {
  f_id : jsval;
  f_name : jsval;
  f_action : jsval;
  f_method : jsval;
  f_elements : option (list form_field)
}.

(** What [trackScrollDepth] reads, in whole pixels. *)
Record viewport : Type := {
  pageYOffset : Z;
  scrollTop : Z;
  scrollHeight : Z;
  innerHeight : Z
}.

Record error_event : Type := {
  message : string;
  filename : string;
  lineno : Z;
  colno : Z;
  error : jsval
}.

(** [performance.timing] and the start time of the first
    "first-contentful-paint" entry, when there is one. *)
Record timing : Type := {
  navigationStart : Z;
  loadEventEnd : Z;
  domContentLoadedEventEnd : Z;
  firstContentfulPaint : option float
}.

(** What the page tells the engine when it asks: whether
    [window.Analytics.instance] is there, whether
    [window.performance.timing] is, and [Date.now()]. *)
Record env : Type := {
  sink_ready : bool;
  perf_timing : bool;
  now : Z
}.

Definition or_unknown (s : string) : string :=
  if JsString.truthy s then s else "unknown".

(** *** Clicks *)

Definition click_listener (pg : Dom.page) (element : Dom.node) : M unit :=
  try_catch
    (cfg ← gets config;
     p ← lift (getElementProps cfg pg element);
     tagName ← lift (tagName_toLowerCase element);
     if String.eqb tagName "button" then
       track "button_clicked" p
     else if String.eqb tagName "a" then
       track "link_clicked"
             (obj_set "target" (PStr (Dom.target element))
                      (obj_set "href" (PStr (Dom.href element)) p))
     else if match Dom.role element with
             | Some r => String.eqb r "button"
             | None => false
             end then
       track "button_clicked" p
     else
       track "element_clicked" p)
    (fun err => console_write (ErrTrackingClick err)).

Definition trackClicks : M unit := addEventListener Document "click" true.

(** *** Forms *)

(** The loop [for (let i = 0; i < form.elements.length; i++)], with
    [fuel] bounding the iterations left. *)
Fixpoint fields_loop (fuel i : nat) (elements : list form_field)
                     (fields : list field_entry) : list field_entry :=
  match fuel with
  | O => fields
  | S fuel' =>
      if (i <? length elements)%nat then
        match nth_error elements i with
        | Some field =>
            if JsString.truthy (field_name field)
               && negb (String.eqb (field_type field) "password")
            then fields_loop fuel' (S i) elements
                   (fields ++ [{| fe_name := field_name field;
                                  fe_type := field_type field |}])
            else fields_loop fuel' (S i) elements fields
        | None => fields
        end
      else fields
  end.

Definition collect_fields (elements : list form_field) : list field_entry :=
  fields_loop (length elements) 0 elements [].

(** [v || 'unknown']. *)
Definition or_else_unknown (v : jsval) : pval :=
  if JsVal.truthy v then pval_of v else PStr "unknown".

Definition form_props (form : submit_target) (elements : list form_field) : props :=
  [("formId", or_else_unknown (f_id form));
   ("formName", or_else_unknown (f_name form));
   ("formAction", pval_of (f_action form));
   ("formMethod", pval_of (f_method form));
   ("fieldCount", PNum (JInt (Z.of_nat (length elements))));
   ("fields", PFields (collect_fields elements))].

Definition submit_listener (form : submit_target) : M unit :=
  elements ← lift (match f_elements form with
                   | Some l => Ok l
                   | None => Throw (TypeError "Cannot read properties of undefined (reading 'length')")
                   end);
  track "form_submitted" (form_props form elements).

Definition trackForms : M unit := addEventListener Document "submit" true.

(** *** Scroll depth *)

Definition milestones : list Z := [25; 50; 75; 90; 100]%Z.

(** [window.pageYOffset || document.documentElement.scrollTop]. *)
Definition effective_scrollTop (v : viewport) : Z :=
  if negb (pageYOffset v =? 0)%Z then pageYOffset v else scrollTop v.

Definition scroll_percent (v : viewport) : jsnum :=
  let docHeight := (scrollHeight v - innerHeight v)%Z in
  JsNum.round_percent (effective_scrollTop v) docHeight.

(** The arrow function handed to [milestones.forEach]. *)
Definition track_milestone (scrollPercent : jsnum) (milestone : Z) : M unit :=
  t ← gets tracked;
  if JsNum.ge scrollPercent (JInt milestone) && negb (bool_decide (milestone ∈ t)) then
    _ ← modify (fun s => set_tracked ({[milestone]} ∪ tracked s) s);
    track "scroll_depth" [("depth", PNum (JInt milestone))]
  else mret tt.

(** The body of [trackScrollDepth] once [scrollPercent] is known. *)
Definition scroll_depth_update (scrollPercent : jsnum) : M unit :=
  m ← gets maxScroll;
  if JsNum.gt scrollPercent m then
    _ ← modify (set_maxScroll scrollPercent);
    forEach milestones (track_milestone scrollPercent)
  else mret tt.

Definition trackScrollDepth (v : viewport) : M unit :=
  scroll_depth_update (scroll_percent v).

(** The scroll listener: cancel the pending timer, arm a new one. *)
Definition scroll_listener : M unit :=
  cfg ← gets config;
  modify (set_scrollTimer (Some (Config.debounceScroll cfg))).

(** The armed timer elapses and runs [trackScrollDepth]. *)
Definition scroll_timeout (v : viewport) : M unit :=
  t ← gets scrollTimer;
  match t with
  | Some _ => _ ← modify (set_scrollTimer None); trackScrollDepth v
  | None => mret tt
  end.

Definition trackScroll : M unit :=
  _ ← modify (fun s => set_scrollTimer None (set_tracked ∅ (set_maxScroll (JInt 0) s)));
  addEventListener Window "scroll" false.

(** *** Errors *)

(** [stack.substring(0, 500)] on a stack that is neither null nor
    undefined: the method of strings on a string; on an object what
    its [substring] property does when called, the TypeError of
    calling what is no function otherwise. *)
Definition call_substring (stack : jsval) : result pval :=
  match stack with
  | VStr s => Ok (PStr (JsString.substring0 500 s))
  | _ =>
      match JsVal.get stack "substring" with
      | VFun _ call => v ← call; Ok (pval_of v)
      | _ => Throw (TypeError "e.error?.stack?.substring is not a function")
      end
  end.

(** [e.error?.stack?.substring(0, 500)]. *)
Definition stack_of (err : jsval) : result pval :=
  if JsVal.nullish err then Ok PUndef
  else
    let stack := JsVal.get err "stack" in
    if JsVal.nullish stack then Ok PUndef
    else call_substring stack.

Definition error_listener (e : error_event) : M unit :=
  stack ← lift (stack_of (error e));
  track "javascript_error"
        [("message", PStr (message e));
         ("filename", PStr (filename e));
         ("line", PNum (JInt (lineno e)));
         ("column", PNum (JInt (colno e)));
         ("stack", stack)].

Definition unhandledrejection_listener (reason : jsval) : M unit :=
  r ← lift (JsVal.String reason);
  track "promise_rejection" [("reason", PStr r)].

Definition trackErrors : M unit :=
  _ ← addEventListener Window "error" false;
  addEventListener Window "unhandledrejection" false.

(** *** Visibility *)

Definition visibilitychange_listener (hidden : bool) (date_now : Z) : M unit :=
  if hidden then
    t0 ← gets startTime;
    track "page_hidden" [("timeOnPage", PNum (JsNum.round_div1000 (date_now - t0)))]
  else
    _ ← modify (set_startTime date_now);
    track "page_visible" [].

Definition trackVisibility (date_now : Z) : M unit :=
  _ ← modify (set_startTime date_now);
  addEventListener Document "visibilitychange" false.

(** *** Focus *)

Definition is_form_control (tagName : option string) : bool :=
  match tagName with
  | Some t => String.eqb t "INPUT" || String.eqb t "TEXTAREA" || String.eqb t "SELECT"
  | None => false
  end.

Definition field_identifier (element : Dom.node) : string :=
  if JsString.truthy (Dom.id element) then Dom.id element
  else or_unknown (Dom.name element).

Definition focus_listener (element : Dom.node) : M unit :=
  if is_form_control (Dom.tagName element) then
    let fieldId := field_identifier element in
    seen ← gets trackedFields;
    if negb (bool_decide (fieldId ∈ seen)) then
      _ ← modify (fun s => set_trackedFields ({[fieldId]} ∪ trackedFields s) s);
      track "form_field_focused"
            [("fieldId", PStr fieldId);
             ("fieldName", PStr (Dom.name element));
             ("fieldType", PStr (Dom.type element));
             ("formId", PStr (match Dom.form_id element with
                              | Some i => or_unknown i
                              | None => "unknown"
                              end))]
    else mret tt
  else mret tt.

Definition trackInputFocus : M unit :=
  _ ← modify (set_trackedFields ∅);
  addEventListener Document "focus" true.

(** *** Performance *)

(** The callback deferred by one tick after the load event. *)
Definition load_timeout (t : timing) : M unit :=
  let loadTime := (loadEventEnd t - navigationStart t)%Z in
  let domReady := (domContentLoadedEventEnd t - navigationStart t)%Z in
  track "page_performance"
        [("loadTime", PNum (JInt loadTime));
         ("domReady", PNum (JInt domReady));
         ("firstPaint", match firstContentfulPaint t with
                        | Some fp => if JsNum.float_truthy fp then PNum (JsNum.Math_round fp)
                                     else PUndef
                        | None => PUndef
                        end)].

Definition trackPerformance (e : env) : M unit :=
  if negb (perf_timing e) then mret tt
  else addEventListener Window "load" false.

(** ** Readiness gate and wiring *)

Definition when (c : bool) (m : M unit) : M unit := if c then m else mret tt.

Definition _initializeTracking (e : env) : M unit :=
  _ ← console_write LogStarting;
  cfg ← gets config;
  _ ← when (Config.trackPerformance cfg) (trackPerformance e);
  _ ← when (Config.trackClicks cfg) trackClicks;
  _ ← when (Config.trackForms cfg) trackForms;
  _ ← when (Config.trackScroll cfg) trackScroll;
  _ ← when (Config.trackErrors cfg) trackErrors;
  _ ← when (Config.trackVisibility cfg) (trackVisibility (now e));
  _ ← trackInputFocus;
  console_write LogEnabled.

Definition maxAttempts : nat := 100.
Definition pollDelay : Z := 50.

(** [start(customConfig)]: [setInterval] leaves a live interval
    whose [attempts] counter is 0. *)
Definition start (customConfig : Config.CustomConfig) (e : env) : M unit :=
  _ ← modify (fun s => set_config (Config.merge_config (config s) customConfig) s);
  if negb (sink_ready e) then
    _ ← console_write LogWaiting;
    modify (set_checkInterval (Some 0))
  else _initializeTracking e.

(** The callback of [setInterval]; a cleared interval never calls it. *)
Definition checkInterval_tick (e : env) : M unit :=
  i ← gets checkInterval;
  match i with
  | None => mret tt
  | Some attempts =>
      let attempts := S attempts in
      _ ← modify (set_checkInterval (Some attempts));
      if sink_ready e then
        _ ← modify (set_checkInterval None);
        _ ← console_write LogSdkReady;
        _initializeTracking e
      else if (maxAttempts <=? attempts)%nat then
        _ ← modify (set_checkInterval None);
        console_write ErrSdkNotInitialized
      else mret tt
  end.

(** ** The page drives the engine *)

Inductive browser_event : Type :=
| EClick (target : Dom.node)
| ESubmit (target : submit_target)
| EScroll
| EScrollTimeout (v : viewport)
| EError (e : error_event)
| EUnhandledRejection (reason : jsval)
| EVisibilityChange (hidden : bool) (date_now : Z)
| EFocus (target : Dom.node)
| ELoadTimeout (t : timing)
| EInterval (e : env).

Definition registration_eqb (a b : registration) : bool :=
  match reg_target a, reg_target b with
  | Window, Window | Document, Document => true
  | _, _ => false
  end && String.eqb (reg_type a) (reg_type b) && Bool.eqb (reg_capture a) (reg_capture b).

Definition registered (t : event_target) (type : string) (capture : bool) (s : session) : bool :=
  existsb (registration_eqb {| reg_target := t; reg_type := type; reg_capture := capture |})
          (listeners s).

(** Run [body] when the listener is attached, nothing otherwise. *)
Definition on (t : event_target) (type : string) (capture : bool) (body : M unit) : M unit :=
  fun s => if registered t type capture s then body s else (Ok tt, s).

(** One event of the page reaches the engine; [Throw] is an exception
    that leaves the listener uncaught. *)
Definition dispatch (pg : Dom.page) (ev : browser_event) : M unit :=
  match ev with
  | EClick target => on Document "click" true (click_listener pg target)
  | ESubmit target => on Document "submit" true (submit_listener target)
  | EScroll => on Window "scroll" false scroll_listener
  | EScrollTimeout v => on Window "scroll" false (scroll_timeout v)
  | EError e => on Window "error" false (error_listener e)
  | EUnhandledRejection reason =>
      on Window "unhandledrejection" false (unhandledrejection_listener reason)
  | EVisibilityChange hidden date_now =>
      on Document "visibilitychange" false (visibilitychange_listener hidden date_now)
  | EFocus target => on Document "focus" true (focus_listener target)
  | ELoadTimeout t => on Window "load" false (load_timeout t)
  | EInterval e => checkInterval_tick e
  end.

(** A run of events, stopping at nothing: an uncaught exception is
    recorded and the page goes on. *)
Fixpoint run (pg : Dom.page) (evs : list browser_event) (s : session)
  : list exn * session :=
  match evs with
  | [] => ([], s)
  | ev :: evs' =>
      match dispatch pg ev s with
      | (Ok _, s') => run pg evs' s'
      | (Throw e, s') => let '(es, s'') := run pg evs' s' in (e :: es, s'')
      end
  end.

(** State after the effects of a computation, whatever its outcome. *)
Definition exec {A : Type} (m : M A) (s : session) : session := snd (m s).

(** How many times [_initializeTracking] ran, read off the console. *)
Definition is_LogStarting (c : console_entry) : bool :=
  match c with LogStarting => true | _ => false end.
Definition is_failure (c : console_entry) : bool :=
  match c with ErrSdkNotInitialized => true | _ => false end.
Definition init_runs (s : session) : nat := length (List.filter is_LogStarting (console s)).
Definition failures (s : session) : nat := length (List.filter is_failure (console s)).

(** ** Observations on a session *)

Definition session_after (pg : Dom.page) (evs : list browser_event) (s : session) : session :=
  snd (run pg evs s).

Definition uncaught (pg : Dom.page) (evs : list browser_event) (s : session) : list exn :=
  fst (run pg evs s).

(** The session right after [start(customConfig)] on a fresh page. *)
Definition started (customConfig : Config.CustomConfig) (e : env) : session :=
  exec (start customConfig e) initial_session.

Definition depth_event (milestone : Z) : string * props :=
  ("scroll_depth", [("depth", PNum (JInt milestone))]).

Definition is_scroll_depth (ev : string * props) : bool :=
  String.eqb (fst ev) "scroll_depth".

(** The [scroll_depth] events that reached the sink, oldest first. *)
Definition scroll_events (k : list (string * props)) : list (string * props) :=
  List.filter is_scroll_depth k.

Definition depth_of (ev : string * props) : option Z :=
  if is_scroll_depth ev then
    match obj_get "depth" (snd ev) with
    | Some (PNum (JInt m)) => Some m
    | _ => None
    end
  else None.

Definition scroll_depths (k : list (string * props)) : list Z := omap depth_of k.

(** What holds of the scroll tracker in every session the page can
    reach: every [scroll_depth] event carries a milestone, no depth is
    reported twice, the reported depths are the milestone set, the
    milestone set holds the milestones the running maximum has
    reached, the running maximum is a number, and a page that still
    polls for the sink has attached nothing and tracked nothing. *)
Record scroll_inv (s : session) : Prop := {
  inv_events : scroll_events (sink s) = map depth_event (scroll_depths (sink s));
  inv_nodup : NoDup (scroll_depths (sink s));
  inv_sink : forall m, m ∈ scroll_depths (sink s) <-> m ∈ tracked s;
  inv_tracked : forall m, m ∈ tracked s <->
                          m ∈ milestones /\ JsNum.ge (maxScroll s) (JInt m) = true;
  inv_number : maxScroll s <> JNaN;
  inv_polling : checkInterval s <> None ->
                listeners s = [] /\ sink s = [] /\ maxScroll s = JInt 0 /\ tracked s = ∅
}.

(** ** Auxiliary definitions for the statements *)

(** [same_scroll s s']: the step from [s] to [s'] left the scroll
    tracker and the [scroll_depth] events of the sink alone. *)
Record same_scroll (s s' : session) : Prop := {
  same_maxScroll : maxScroll s' = maxScroll s;
  same_tracked : tracked s' = tracked s;
  same_scroll_events : scroll_events (sink s') = scroll_events (sink s);
  same_scroll_depths : scroll_depths (sink s') = scroll_depths (sink s)
}.

(** [same_gate s s']: the step left the listeners, the interval, the
    configuration and the reports of the gate alone. *)
Record same_gate (s s' : session) : Prop := {
  same_listeners : listeners s' = listeners s;
  same_checkInterval : checkInterval s' = checkInterval s;
  same_config : config s' = config s;
  same_init_runs : init_runs s' = init_runs s;
  same_failures : failures s' = failures s
}.

(** The test of [track_milestone]: the percentage has reached the
    milestone and the milestone set does not hold it. *)
Definition fresh (pct : jsnum) (t : gset Z) (m : Z) : bool :=
  JsNum.ge pct (JInt m) && negb (bool_decide (m ∈ t)).

(** The listeners [_initializeTracking] attaches, in order. *)
Definition wired (cfg : Config.TrackerConfig) (e : env) : list registration :=
  (if Config.trackPerformance cfg && perf_timing e
   then [{| reg_target := Window; reg_type := "load"; reg_capture := false |}] else [])
  ++ (if Config.trackClicks cfg
      then [{| reg_target := Document; reg_type := "click"; reg_capture := true |}] else [])
  ++ (if Config.trackForms cfg
      then [{| reg_target := Document; reg_type := "submit"; reg_capture := true |}] else [])
  ++ (if Config.trackScroll cfg
      then [{| reg_target := Window; reg_type := "scroll"; reg_capture := false |}] else [])
  ++ (if Config.trackErrors cfg
      then [{| reg_target := Window; reg_type := "error"; reg_capture := false |};
            {| reg_target := Window; reg_type := "unhandledrejection";
               reg_capture := false |}] else [])
  ++ (if Config.trackVisibility cfg
      then [{| reg_target := Document; reg_type := "visibilitychange";
               reg_capture := false |}] else [])
  ++ [{| reg_target := Document; reg_type := "focus"; reg_capture := true |}].

(** The session once [_initializeTracking] has run. *)
Definition after_init (e : env) (s : session) : session := {|
  config := config s;
  listeners := listeners s ++ wired (config s) e;
  maxScroll := if Config.trackScroll (config s) then JInt 0 else maxScroll s;
  tracked := if Config.trackScroll (config s) then ∅ else tracked s;
  scrollTimer := if Config.trackScroll (config s) then None else scrollTimer s;
  startTime := if Config.trackVisibility (config s) then now e else startTime s;
  trackedFields := ∅;
  checkInterval := checkInterval s;
  sink := sink s;
  console := console s ++ [LogStarting; LogEnabled]
|}.

(** [quiet s s']: the step from [s] to [s'] touched neither the scroll
    tracker nor the gate. *)
Definition quiet (s s' : session) : Prop := same_scroll s s' /\ same_gate s s'.

(** The steps of [start] and of the interval callback. *)
Definition merged (customConfig : Config.CustomConfig) (s : session) : session :=
  set_config (Config.merge_config (config s) customConfig) s.

Definition waiting (s : session) : session :=
  set_checkInterval (Some 0) (set_console (console s ++ [LogWaiting]) s).

Definition sdk_ready (s : session) : session :=
  set_console (console s ++ [LogSdkReady]) (set_checkInterval None s).

Definition timed_out (s : session) : session :=
  set_console (console s ++ [ErrSdkNotInitialized]) (set_checkInterval None s).

(** A milestone that the new maximum reaches and the old one had not. *)
Definition newly_reached (old new : jsnum) (m : Z) : bool :=
  JsNum.ge new (JInt m) && negb (JsNum.ge old (JInt m)).

(** What each firing of the polling interval found: [true] when the
    sink was there. *)
Definition tick_of (ev : browser_event) : option bool :=
  match ev with
  | EInterval e => Some (sink_ready e)
  | _ => None
  end.

Definition ticks (evs : list browser_event) : list bool := omap tick_of evs.

(** The page still polls: [attempts] firings so far, nothing attached,
    nothing sent, nothing reported. *)
Record polling (s : session) (attempts : nat) : Prop := {
  pol_interval : checkInterval s = Some attempts;
  pol_listeners : listeners s = [];
  pol_sink : sink s = [];
  pol_init_runs : init_runs s = 0;
  pol_failures : failures s = 0
}.

(** *** Binary64 *)

(** A binary64 number that is not zero and has the sign [s]. *)
Definition signed (s : bool) (x : spec_float) : Prop :=
  match x with
  | S754_finite s' _ _ | S754_infinity s' => s' = s
  | _ => False
  end.

(** A finite number whose mantissa fits a machine integer and whose
    exponent is not below [lo]. *)
Definition small (lo : Z) (x : spec_float) : Prop :=
  match x with
  | S754_finite _ m e => (Z.pos m < 2 ^ 63 /\ lo <= e)%Z
  | _ => True
  end.

(** A configuration that switches off every tracker that has a switch. *)
Definition all_off : Config.CustomConfig := {|
  Config.c_trackClicks := Some false;
  Config.c_trackForms := Some false;
  Config.c_trackScroll := Some false;
  Config.c_trackErrors := Some false;
  Config.c_trackPerformance := Some false;
  Config.c_trackVisibility := Some false;
  Config.c_captureText := None;
  Config.c_captureAttributes := None;
  Config.c_debounceScroll := None
|}.

Definition focus_registration : registration :=
  {| reg_target := Document; reg_type := "focus"; reg_capture := true |}.

Definition focus_event (element : Dom.node) : string * props :=
  ("form_field_focused",
   [("fieldId", PStr (field_identifier element));
    ("fieldName", PStr (Dom.name element));
    ("fieldType", PStr (Dom.type element));
    ("formId", PStr (match Dom.form_id element with
                     | Some i => or_unknown i
                     | None => "unknown"
                     end))]).

(** The descriptor of a clicked anchor: [href] and [target] added. *)
Definition link_props (element : Dom.node) (p : props) : props :=
  obj_set "target" (PStr (Dom.target element))
          (obj_set "href" (PStr (Dom.href element)) p).

(** *** Sibling positions *)

(** [element] is one of [siblings]. *)
Definition among (siblings : list Dom.sibling) (element : Dom.node) : bool :=
  existsb (fun sib => (Dom.sib_ident sib =? Dom.ident element)%nat) siblings.

(** The siblings that come before [element]. *)
Fixpoint earlier_siblings (siblings : list Dom.sibling) (element : Dom.node)
  : list Dom.sibling :=
  match siblings with
  | [] => []
  | sib :: rest =>
      if (Dom.sib_ident sib =? Dom.ident element)%nat then []
      else sib :: earlier_siblings rest element
  end.

(** The number of earlier siblings with the same tag name. *)
Definition same_tag_before (siblings : list Dom.sibling) (element : Dom.node) : nat :=
  length (List.filter
            (fun sib => same_tagName (Dom.sib_tagName sib) (Dom.tagName element))
            (earlier_siblings siblings element)).

(** In a document only element nodes carry a tag name. *)
Definition tagged_are_elements (siblings : list Dom.sibling) : bool :=
  forallb (fun sib => match Dom.sib_tagName sib with
                      | Some _ => (Dom.sib_nodeType sib =? 1)%Z
                      | None => true
                      end) siblings.

(** Every node of the ancestor chain that has a parent has a tag name
    (documents and fragments, which have none, have no parent). *)
Fixpoint ancestors_tagged (n : Dom.node) : bool :=
  match Dom.parentNode n with
  | None => true
  | Some p =>
      match Dom.tagName n with Some _ => true | None => false end && ancestors_tagged p
  end.

(** The shape of the document around a node: identity, kind, tag
    name and id of the node and of each of its ancestors, with the
    children of each. *)
Fixpoint shape (n : Dom.node)
  : list (nat * Z * option string * string * list Dom.sibling) :=
  (Dom.ident n, Dom.nodeType n, Dom.tagName n, Dom.id n, Dom.childNodes n)
  :: match Dom.parentNode n with
     | Some p => shape p
     | None => []
     end.

(** *** A sample page *)

Definition sample_document : Dom.node :=
  Dom.mkNode 0 9 None EmptyString Dom.ClassUndefined EmptyString None EmptyString
    EmptyString VUndefined None EmptyString EmptyString None
    [{| Dom.sib_ident := 90; Dom.sib_nodeType := 10; Dom.sib_tagName := None |};
     {| Dom.sib_ident := 1; Dom.sib_nodeType := 1; Dom.sib_tagName := Some "HTML" |}]
    None.

Definition sample_html : Dom.node :=
  Dom.mkNode 1 1 (Some "HTML") EmptyString Dom.ClassUndefined EmptyString None EmptyString
    EmptyString VUndefined None EmptyString EmptyString None
    [{| Dom.sib_ident := 2; Dom.sib_nodeType := 1; Dom.sib_tagName := Some "HEAD" |};
     {| Dom.sib_ident := 91; Dom.sib_nodeType := 3; Dom.sib_tagName := None |};
     {| Dom.sib_ident := 3; Dom.sib_nodeType := 1; Dom.sib_tagName := Some "BODY" |}]
    (Some sample_document).

Definition sample_body : Dom.node :=
  Dom.mkNode 3 1 (Some "BODY") EmptyString Dom.ClassUndefined EmptyString None EmptyString
    EmptyString VUndefined None EmptyString EmptyString None
    [{| Dom.sib_ident := 92; Dom.sib_nodeType := 3; Dom.sib_tagName := None |};
     {| Dom.sib_ident := 4; Dom.sib_nodeType := 1; Dom.sib_tagName := Some "DIV" |};
     {| Dom.sib_ident := 5; Dom.sib_nodeType := 1; Dom.sib_tagName := Some "P" |};
     {| Dom.sib_ident := 6; Dom.sib_nodeType := 1; Dom.sib_tagName := Some "DIV" |}]
    (Some sample_html).

Definition sample_div : Dom.node :=
  Dom.mkNode 6 1 (Some "DIV") EmptyString (Dom.ClassString "card") EmptyString None
    EmptyString EmptyString VUndefined None EmptyString EmptyString None
    [{| Dom.sib_ident := 7; Dom.sib_nodeType := 1; Dom.sib_tagName := Some "BUTTON" |}]
    (Some sample_body).

Definition sample_page : Dom.page := {| Dom.pathname := "/home"; Dom.body := Some 3 |}.

(** A section with an id inside [sample_div], and a span inside it
    that has none. *)
Definition hero : Dom.node :=
  Dom.mkNode 60 1 (Some "SECTION") "hero" (Dom.ClassString "wide") EmptyString None
    EmptyString EmptyString VUndefined None EmptyString EmptyString None
    [{| Dom.sib_ident := 93; Dom.sib_nodeType := 3; Dom.sib_tagName := None |};
     {| Dom.sib_ident := 61; Dom.sib_nodeType := 1; Dom.sib_tagName := Some "SPAN" |}]
    (Some sample_div).

Definition hero_span : Dom.node :=
  Dom.mkNode 61 1 (Some "SPAN") EmptyString Dom.ClassUndefined "Welcome" None
    EmptyString EmptyString VUndefined None EmptyString EmptyString None [] (Some hero).

(** *** Form entries and class lists *)

(** A field that [form_submitted] reports: named, and not a password. *)
Definition reported (field : form_field) : bool :=
  JsString.truthy (field_name field) && negb (String.eqb (field_type field) "password").

Definition entry_of (field : form_field) : field_entry :=
  {| fe_name := field_name field; fe_type := field_type field |}.

Definition with_value (v : jsval) (element : Dom.node) : Dom.node :=
  Dom.mkNode (Dom.ident element) (Dom.nodeType element) (Dom.tagName element)
    (Dom.id element) (Dom.className element) (Dom.textContent element)
    (Dom.dataset element) (Dom.name element) (Dom.type element) v (Dom.role element)
    (Dom.href element) (Dom.target element) (Dom.form_id element)
    (Dom.childNodes element) (Dom.parentNode element).

(** The string without its space characters. *)
Fixpoint remove_spaces (s : string) : string :=
  match s with
  | EmptyString => EmptyString
  | String c s' =>
      if Ascii.eqb c JsString.space then remove_spaces s' else String c (remove_spaces s')
  end.

(** A class list normalized over all white space: split at every
    white-space character (tabs and line breaks included), the empty
    pieces dropped, the others joined by single spaces. *)
Fixpoint split_whitespace (s : string) : list string :=
  match s with
  | EmptyString => [EmptyString]
  | String c s' =>
      if JsString.is_space c then EmptyString :: split_whitespace s'
      else match split_whitespace s' with
           | [] => [String c EmptyString]
           | w :: ws => String c w :: ws
           end
  end.

Definition whitespace_normalized (className : string) : string :=
  JsString.join " " (List.filter JsString.truthy (split_whitespace className)).

(** [elementClasses] as white-space normalization would have it:
    the normalized class list, and no key when that list is empty. *)
Definition classes_as_claimed (cfg : Config.TrackerConfig) (pg : Dom.page)
                              (element : Dom.node) : Prop :=
  forall c p,
    Dom.className element = Dom.ClassString c ->
    getElementProps cfg pg element = Ok p ->
    obj_get "elementClasses" p =
    if JsString.truthy (whitespace_normalized c)
    then Some (PStr (whitespace_normalized c)) else None.

Definition with_className (c : string) (element : Dom.node) : Dom.node :=
  Dom.mkNode (Dom.ident element) (Dom.nodeType element) (Dom.tagName element)
    (Dom.id element) (Dom.ClassString c) (Dom.textContent element)
    (Dom.dataset element) (Dom.name element) (Dom.type element) (Dom.value element)
    (Dom.role element) (Dom.href element) (Dom.target element) (Dom.form_id element)
    (Dom.childNodes element) (Dom.parentNode element).

(** The descriptor before [elementValue] and [xpath] are looked at. *)
Definition props_before_value (cfg : Config.TrackerConfig) (pg : Dom.page)
                              (element : Dom.node) (elementType : string) : props :=
  let p := [("elementType", PStr elementType); ("page", PStr (Dom.pathname pg))] in
  let p := set_if (JsString.truthy (Dom.id element))
                  "elementId" (PStr (Dom.id element)) p in
  let p := match Dom.className element with
           | Dom.ClassString c =>
               set_if (JsString.truthy c) "elementClasses" (PStr (normalize_classes c)) p
           | _ => p
           end in
  let p := set_if (Config.captureText cfg && JsString.truthy (Dom.textContent element))
                  "elementText"
                  (PStr (JsString.substring0 100 (JsString.trim (Dom.textContent element))))
                  p in
  let p := match find_gaId 5 (Some element) with
           | Some g => obj_set "gaId" (PStr g) p
           | None => p
           end in
  let p := match Dom.dataset element with
           | Some ds => if Config.captureAttributes cfg then copy_dataset ds p else p
           | None => p
           end in
  let p := set_if (JsString.truthy (Dom.name element))
                  "elementName" (PStr (Dom.name element)) p in
  set_if (JsString.truthy (Dom.type element)) "inputType" (PStr (Dom.type element)) p.

(** No space character in the string. *)
Fixpoint space_free (s : string) : bool :=
  match s with
  | EmptyString => true
  | String c s' => negb (Ascii.eqb c JsString.space) && space_free s'
  end.

(** The pieces one after the other, nothing in between. *)
Fixpoint flat (pieces : list string) : string :=
  match pieces with
  | [] => EmptyString
  | w :: ws => (w ++ flat ws)%string
  end.

Definition tabbed_button : Dom.node :=
  Dom.mkNode 7 1 (Some "BUTTON") EmptyString
    (Dom.ClassString ("btn" ++ String JsString.tab "primary")) EmptyString None
    EmptyString EmptyString VUndefined None EmptyString EmptyString None [] (Some sample_div).

Definition blank_button : Dom.node := with_className " " tabbed_button.

Definition ready_env : env := {| sink_ready := true; perf_timing := true; now := 0 |}.

(** [Promise.reject(Object.create(null))]: a reason without prototype. *)
Definition bare_reason : jsval := VObj None [].

(** [throw { stack: 1 }]: an error object whose stack is not a string. *)
Definition odd_error : error_event := {|
  message := "Uncaught [object Object]";
  filename := "app.js";
  lineno := 12;
  colno := 3;
  error := VObj (Some "[object Object]") [("stack", VNum (JInt 1))]
|}.

(** ** Auxiliary definitions for the session properties *)

(** The listener an event of the page is delivered to; the interval
    callback is no listener. *)
Definition listener_of (ev : browser_event) : option registration :=
  match ev with
  | EClick _ => Some {| reg_target := Document; reg_type := "click"; reg_capture := true |}
  | ESubmit _ => Some {| reg_target := Document; reg_type := "submit"; reg_capture := true |}
  | EScroll | EScrollTimeout _ =>
      Some {| reg_target := Window; reg_type := "scroll"; reg_capture := false |}
  | EError _ => Some {| reg_target := Window; reg_type := "error"; reg_capture := false |}
  | EUnhandledRejection _ =>
      Some {| reg_target := Window; reg_type := "unhandledrejection"; reg_capture := false |}
  | EVisibilityChange _ _ =>
      Some {| reg_target := Document; reg_type := "visibilitychange";
              reg_capture := false |}
  | EFocus _ => Some {| reg_target := Document; reg_type := "focus"; reg_capture := true |}
  | ELoadTimeout _ =>
      Some {| reg_target := Window; reg_type := "load"; reg_capture := false |}
  | EInterval _ => None
  end.

(** The event names the listener of a registration hands to the sink. *)
Definition names_of (r : registration) : list string :=
  let t := reg_type r in
  if String.eqb t "click" then ["button_clicked"; "link_clicked"; "element_clicked"]
  else if String.eqb t "submit" then ["form_submitted"]
  else if String.eqb t "scroll" then ["scroll_depth"]
  else if String.eqb t "error" then ["javascript_error"]
  else if String.eqb t "unhandledrejection" then ["promise_rejection"]
  else if String.eqb t "visibilitychange" then ["page_hidden"; "page_visible"]
  else if String.eqb t "focus" then ["form_field_focused"]
  else if String.eqb t "load" then ["page_performance"]
  else [].

Definition event_names (ev : browser_event) : list string :=
  match listener_of ev with
  | Some r => names_of r
  | None => []
  end.

(** The switch of the configuration that an event name answers to;
    [form_field_focused] has none, an unknown name is never enabled. *)
Definition enabled (cfg : Config.TrackerConfig) (name : string) : bool :=
  if String.eqb name "button_clicked" || String.eqb name "link_clicked"
     || String.eqb name "element_clicked" then Config.trackClicks cfg
  else if String.eqb name "form_submitted" then Config.trackForms cfg
  else if String.eqb name "scroll_depth" then Config.trackScroll cfg
  else if String.eqb name "javascript_error" || String.eqb name "promise_rejection"
       then Config.trackErrors cfg
  else if String.eqb name "page_hidden" || String.eqb name "page_visible"
       then Config.trackVisibility cfg
  else if String.eqb name "page_performance" then Config.trackPerformance cfg
  else String.eqb name "form_field_focused".

(** [emits names s s']: from [s] to [s'] the sink only grew, by events
    whose names are among [names]. *)
Definition emits (names : list string) (s s' : session) : Prop :=
  exists new, sink s' = sink s ++ new /\ Forall (fun e => fst e ∈ names) new.

(** What holds of the wiring in every session of a page whose merged
    configuration is [cfg]: the configuration stays, the listeners are
    none or those [_initializeTracking] attached in one run, a page
    that still polls has none, and every event in the sink was sent by
    a listener that is attached. *)
Record wiring_inv (cfg : Config.TrackerConfig) (s : session) : Prop := {
  wi_config : config s = cfg;
  wi_listeners : listeners s = []
                 \/ (checkInterval s = None /\ exists e, listeners s = wired cfg e);
  wi_sink : forall ev, ev ∈ sink s -> exists r, r ∈ listeners s /\ fst ev ∈ names_of r
}.

Definition sample_input : Dom.node :=
  Dom.mkNode 11 1 (Some "INPUT") "email" Dom.ClassUndefined EmptyString None
    "user_email" "email" VUndefined None EmptyString EmptyString (Some "signup") [] None.

Definition sample_viewport (top : Z) : viewport :=
  {| pageYOffset := top; scrollTop := 0; scrollHeight := 1800; innerHeight := 800 |}.

Definition is_focus_event (ev : string * props) : bool :=
  String.eqb (fst ev) "form_field_focused".

Definition focus_id_of (ev : string * props) : option string :=
  if is_focus_event ev then
    match obj_get "fieldId" (snd ev) with
    | Some (PStr i) => Some i
    | _ => None
    end
  else None.

(** The field identifiers of the [form_field_focused] events in the
    sink, oldest first. *)
Definition focus_ids (k : list (string * props)) : list string := omap focus_id_of k.

(** What holds of the focus tracker in every session: each
    [form_field_focused] event carries a field identifier, no
    identifier is reported twice, and the reported ones are in the set
    of tracked fields. *)
Record focus_inv (s : session) : Prop := {
  fi_all : length (List.filter is_focus_event (sink s)) = length (focus_ids (sink s));
  fi_nodup : NoDup (focus_ids (sink s));
  fi_tracked : forall i, i ∈ focus_ids (sink s) -> i ∈ trackedFields s
}.

(** A textarea with neither id nor name, and another one. *)
Definition anonymous_field (i : nat) : Dom.node :=
  Dom.mkNode i 1 (Some "TEXTAREA") EmptyString Dom.ClassUndefined EmptyString None
    EmptyString "textarea" VUndefined None EmptyString EmptyString None [] None.

(** The properties of a [javascript_error] event. *)
Definition error_props (e : error_event) (stack : pval) : props :=
  [("message", PStr (message e)); ("filename", PStr (filename e));
   ("line", PNum (JInt (lineno e))); ("column", PNum (JInt (colno e)));
   ("stack", stack)].

(** The element, its parent element, the parent element of that one
    and so on: the climb of [parentElement] from [n]. *)
Fixpoint element_chain (n : Dom.node) : list Dom.node :=
  n :: match Dom.parentNode n with
       | Some p => if (Dom.nodeType p =? 1)%Z then element_chain p else []
       | None => []
       end.

(** The descriptor once [elementValue] has been looked at. *)
Definition props_with_value (cfg : Config.TrackerConfig) (pg : Dom.page)
                            (element : Dom.node) (elementType : string) : result props :=
  if JsVal.truthy (Dom.value element) && negb (String.eqb (Dom.type element) "password")
  then v ← JsVal.String (Dom.value element);
       Ok (obj_set "elementValue" (PStr (JsString.substring0 50 v))
                   (props_before_value cfg pg element elementType))
  else Ok (props_before_value cfg pg element elementType).

(** A string property that is there when [c] holds. *)
Definition present (c : bool) (v : string) : option pval := if c then Some (PStr v) else None.

(** A button five levels below a marked section, inside a marked
    page wrapper one level further up. *)
Definition marked (i : nat) (tag : string) (ga : option string) (parent : option Dom.node)
  : Dom.node :=
  Dom.mkNode i 1 (Some tag) EmptyString Dom.ClassUndefined EmptyString
    (Some (match ga with Some g => [("gaId", g)] | None => [] end))
    EmptyString EmptyString VUndefined None EmptyString EmptyString None [] parent.

Definition deep_button : Dom.node :=
  marked 36 "BUTTON" None
    (Some (marked 35 "SPAN" None
      (Some (marked 34 "DIV" None
        (Some (marked 33 "DIV" None
          (Some (marked 32 "SECTION" (Some "near")
            (Some (marked 31 "MAIN" (Some "far") None)))))))))).

Definition long_field : Dom.node :=
  Dom.mkNode 41 1 (Some "TEXTAREA") "notes" Dom.ClassUndefined
    "  0123456789012345678901234567890123456789012345678901234567890123456789012345678901234567890123456789tail  "
    (Some [("section", "reports"); ("reportType", "triplog")])
    "notes" "textarea"
    (VStr "abcdefghijklmnopqrstuvwxyzabcdefghijklmnopqrstuvwxyz-over-fifty")
    None EmptyString EmptyString None [] None.

(** The code units that [trim] strips: TAB, LF, VT, FF, CR, SPACE
    and the no-break space. *)
Definition white (c : ascii) : bool :=
  existsb (Nat.eqb (nat_of_ascii c)) [9; 10; 11; 12; 13; 32; 160].

(** Nothing but white space. *)
Fixpoint blank (s : string) : bool :=
  match s with
  | EmptyString => true
  | String c s' => white c && blank s'
  end.

Fixpoint last_unit (s : string) : option ascii :=
  match s with
  | EmptyString => None
  | String c EmptyString => Some c
  | String _ s' => last_unit s'
  end.

(** Neither the first nor the last code unit is white space. *)
Definition tight (s : string) : bool :=
  match s with
  | EmptyString => true
  | String c _ => negb (white c)
  end
  && match last_unit s with
     | Some c => negb (white c)
     | None => true
     end.

(** A button whose label is wrapped in tabs, line breaks and
    no-break spaces. *)
Definition padded_button : Dom.node :=
  Dom.mkNode 42 1 (Some "BUTTON") EmptyString Dom.ClassUndefined
    (String "009" (String "010" (String "160" (" Save  changes " ++
       String "160" (String "013" (String "010" EmptyString))))))
    None EmptyString "submit" (VNum (JInt 7)) None EmptyString EmptyString None [] None.

(** [dataset[key]] as the descriptor stores it. *)
Definition data_value (ds : list (string * string)) (key : string) : pval :=
  match Dom.lookup key ds with Some v => PStr v | None => PUndef end.

(** The document node as the target of a click. *)
Definition document_target : Dom.node := sample_document.

(** The entries of [siblings] that stand for [element] say what the
    element is: an element node with its tag name. *)
Definition listed_as_itself (siblings : list Dom.sibling) (element : Dom.node) : bool :=
  forallb (fun sib =>
             if (Dom.sib_ident sib =? Dom.ident element)%nat
             then (Dom.sib_nodeType sib =? 1)%Z
                  && same_tagName (Dom.sib_tagName sib) (Dom.tagName element)
             else true) siblings.

(** Two buttons side by side in [sample_div], after a text node. *)
Definition button_row : Dom.node :=
  Dom.mkNode 6 1 (Some "DIV") EmptyString Dom.ClassUndefined EmptyString None
    EmptyString EmptyString VUndefined None EmptyString EmptyString None
    [{| Dom.sib_ident := 50; Dom.sib_nodeType := 3; Dom.sib_tagName := None |};
     {| Dom.sib_ident := 51; Dom.sib_nodeType := 1; Dom.sib_tagName := Some "BUTTON" |};
     {| Dom.sib_ident := 52; Dom.sib_nodeType := 1; Dom.sib_tagName := Some "BUTTON" |}]
    (Some sample_body).

Definition row_button (i : nat) : Dom.node :=
  Dom.mkNode i 1 (Some "BUTTON") EmptyString Dom.ClassUndefined EmptyString None
    EmptyString EmptyString VUndefined None EmptyString EmptyString None [] (Some button_row).

(** The page has no [performance.timing] when the interval callback
    asks for it. *)
Definition untimed (ev : browser_event) : bool :=
  match ev with
  | EInterval e => negb (perf_timing e)
  | _ => true
  end.

(** No listener is attached for the load event. *)
Definition no_load_listener (s : session) : Prop :=
  forall r, r ∈ listeners s -> reg_type r <> "load".

(** What [v || 'unknown'] hands to the sink: the word unknown for
    undefined, null, false, the empty string, zero and NaN, the value
    itself otherwise. *)
Definition named (v : jsval) : pval :=
  match v with
  | VUndefined | VNull | VBool false | VStr EmptyString => PStr "unknown"
  | VNum n => if JsNum.truthy n then PNum n else PStr "unknown"
  | VFrac x => if JsNum.float_truthy x then PVal v else PStr "unknown"
  | VStr i => PStr i
  | _ => PVal v
  end.

(** A value of the page as the sink receives it. *)
Definition as_sent (v : jsval) : pval :=
  match v with
  | VUndefined => PUndef
  | VStr a => PStr a
  | VNum n => PNum n
  | _ => PVal v
  end.

(** A login form with a hidden control named "id", which replaces
    [form.id]; the form has an id attribute and no name. *)
Definition id_control : jsval :=
  VObj (Some "[object HTMLInputElement]")
       [("name", VStr "id"); ("type", VStr "hidden"); ("value", VStr "42")].

Definition login_fields : list form_field :=
  [{| field_name := "user"; field_type := "text"; field_value := "ann" |};
   {| field_name := "pass"; field_type := "password"; field_value := "hunter2" |};
   {| field_name := "id"; field_type := "hidden"; field_value := "42" |};
   {| field_name := EmptyString; field_type := "submit"; field_value := "Log in" |}].

Definition login_form : submit_target := {|
  f_id := id_control;
  f_name := VStr EmptyString;
  f_action := VStr "https://example.test/login";
  f_method := VStr "post";
  f_elements := Some login_fields
|}.
(** * Properties *)

#[local] Set Warnings "-clear-no-such-hyp".

(** ** Running computations *)

Ltac unfold_m :=
  unfold exec, when, track, console_write, addEventListener in *;
  unfold mbind, M_bind, mret, M_ret, lift, gets, modify in *.

Ltac unfold_set :=
  unfold set_config, set_listeners, set_maxScroll, set_tracked, set_scrollTimer,
    set_startTime, set_trackedFields, set_checkInterval, set_sink, set_console in *.

Lemma same_gate_refl s : same_gate s s.
Proof. by split. Qed.

Lemma same_scroll_refl s : same_scroll s s.
Proof. by split. Qed.

(** ** Comparisons of JavaScript numbers *)

Lemma ge_refl a : a <> JNaN -> JsNum.ge a a = true.
Proof. destruct a as [|[]|z]; simpl; try done. intros _. lia. Qed.

Lemma gt_ge a b : JsNum.gt a b = true -> JsNum.ge a b = true.
Proof. destruct a as [|[]|x], b as [|[]|y]; simpl; try done. lia. Qed.

Lemma ge_trans a b c :
  JsNum.ge a b = true -> JsNum.ge b c = true -> JsNum.ge a c = true.
Proof.
  destruct a as [|[]|x], b as [|[]|y], c as [|[]|z]; simpl; try done. lia.
Qed.

Lemma gt_not_nan a b : JsNum.gt a b = true -> a <> JNaN.
Proof. by destruct a. Qed.

(** A milestone the old maximum had reached is not above a smaller
    percentage: without [gt], [ge] on the old maximum decides. *)
Lemma not_gt_ge a b c :
  b <> JNaN -> JsNum.gt a b = false -> JsNum.ge a c = true -> JsNum.ge b c = true.
Proof.
  destruct a as [|[]|x], b as [|[]|y], c as [|[]|z]; simpl; try done. lia.
Qed.

(** ** The milestone loop *)

Lemma scroll_events_app k1 k2 :
  scroll_events (k1 ++ k2) = scroll_events k1 ++ scroll_events k2.
Proof. apply List.filter_app. Qed.

Lemma scroll_depths_app k1 k2 :
  scroll_depths (k1 ++ k2) = scroll_depths k1 ++ scroll_depths k2.
Proof. apply omap_app. Qed.

Lemma scroll_events_depth_events l : scroll_events (map depth_event l) = map depth_event l.
Proof. induction l as [|m l IH]; [done|]. simpl. by rewrite IH. Qed.

Lemma scroll_depths_depth_events l : scroll_depths (map depth_event l) = l.
Proof. induction l as [|m l IH]; [done|]. simpl. by rewrite IH. Qed.

Lemma forEach_cons {A} (x : A) l (f : A -> M unit) s :
  forEach (x :: l) f s =
  match f x s with
  | (Ok _, s') => forEach l f s'
  | (Throw e, s') => (Throw e, s')
  end.
Proof. reflexivity. Qed.

Lemma track_milestone_eq pct x s :
  track_milestone pct x s =
  if fresh pct (tracked s) x
  then (Ok tt, set_sink (sink s ++ [depth_event x]) (set_tracked ({[x]} ∪ tracked s) s))
  else (Ok tt, s).
Proof.
  unfold track_milestone, fresh. unfold_m.
  by destruct (JsNum.ge pct (JInt x) && negb (bool_decide (x ∈ tracked s))).
Qed.

Lemma forEach_track_milestone pct l : NoDup l -> forall s,
  exists s',
    forEach l (track_milestone pct) s = (Ok tt, s')
    /\ sink s' = sink s ++ map depth_event (List.filter (fresh pct (tracked s)) l)
    /\ (forall m, m ∈ tracked s' <->
                  m ∈ tracked s \/ (m ∈ l /\ JsNum.ge pct (JInt m) = true))
    /\ maxScroll s' = maxScroll s
    /\ scrollTimer s' = scrollTimer s
    /\ same_gate s s'.
Proof.
  induction 1 as [|x l Hx Hl IH]; intros s.
  - exists s. simpl. rewrite app_nil_r. split_and!; try done.
    intros m. split; [by left|].
    intros [?|[Hm _]]; [done|]. by apply elem_of_nil in Hm.
  - rewrite forEach_cons, track_milestone_eq. cbn [List.filter].
    destruct (fresh pct (tracked s) x) eqn:Hf.
    + apply andb_true_iff in Hf as [Hge Hin].
      apply negb_true_iff, bool_decide_eq_false in Hin.
      set (s1 := set_sink _ _).
      destruct (IH s1) as (s' & Hrun & Hsink & Htr & Hmax & Htim & Hgate).
      exists s'. split; [done|].
      assert (Hfilter : List.filter (fresh pct (tracked s1)) l
                        = List.filter (fresh pct (tracked s)) l).
      { apply List.filter_ext_in. intros m Hm. unfold fresh. f_equal. f_equal.
        apply bool_decide_ext. subst s1. simpl.
        apply list_elem_of_In in Hm. set_solver. }
      split_and!; try done.
      * rewrite Hsink, Hfilter. subst s1. simpl. by rewrite <- app_assoc.
      * intros m. split.
        -- intros Hm. apply Htr in Hm as [Hm|[? ?]].
           ++ subst s1. simpl in Hm. apply elem_of_union in Hm as [Hm|?]; [|by left].
              apply elem_of_singleton in Hm as ->. right. split; [|done].
              apply elem_of_cons. by left.
           ++ right. split; [by apply elem_of_cons; right|done].
        -- intros [Hm|[Hm ?]]; apply Htr.
           ++ left. subst s1. simpl. set_solver.
           ++ apply elem_of_cons in Hm as [->|?]; [left|by right].
              subst s1. simpl. set_solver.
      * destruct Hgate; split; by subst s1.
    + destruct (IH s) as (s' & Hrun & Hsink & Htr & Hmax & Htim & Hgate).
      exists s'. split_and!; try done.
      intros m. split.
      * intros Hm. apply Htr in Hm as [?|[? ?]]; [by left|right].
        split; [by apply elem_of_cons; right|done].
      * intros [?|[Hm Hm']]; apply Htr; [by left|].
        apply elem_of_cons in Hm as [->|?]; [left|by right].
        apply andb_false_iff in Hf as [Hf|Hf]; [congruence|].
        by apply negb_false_iff, bool_decide_eq_true in Hf.
Qed.

(** ** One debounced computation *)

Lemma filter_none {A} (f : A -> bool) l :
  (forall x, x ∈ l -> f x = false) -> List.filter f l = [].
Proof.
  induction l as [|x l IH]; intros Hf; [done|]. simpl.
  rewrite (Hf x) by (apply elem_of_cons; by left).
  apply IH. intros y Hy. apply Hf, elem_of_cons. by right.
Qed.

Lemma NoDup_milestones : NoDup milestones.
Proof. apply (bool_decide_unpack _). vm_compute. exact I. Qed.

Lemma scroll_depth_update_spec pct s :
  scroll_inv s ->
  exists s',
    scroll_depth_update pct s = (Ok tt, s')
    /\ maxScroll s' = (if JsNum.gt pct (maxScroll s) then pct else maxScroll s)
    /\ sink s' = sink s ++ map depth_event (List.filter (fresh pct (tracked s)) milestones)
    /\ (forall m, m ∈ tracked s' <->
                  m ∈ tracked s \/ (m ∈ milestones /\ JsNum.ge pct (JInt m) = true))
    /\ scrollTimer s' = scrollTimer s
    /\ same_gate s s'.
Proof.
  intros Hinv. unfold scroll_depth_update. unfold_m.
  destruct (JsNum.gt pct (maxScroll s)) eqn:Hgt.
  - destruct (forEach_track_milestone pct milestones NoDup_milestones (set_maxScroll pct s))
      as (s' & Hrun & Hsink & Htr & Hmax & Htim & Hgate).
    exists s'. split_and!; try done.
    destruct Hgate; by split.
  - exists s.
    assert (Hnone : forall m, m ∈ milestones -> JsNum.ge pct (JInt m) = true -> m ∈ tracked s).
    { intros m Hm Hge. apply (inv_tracked s Hinv). split; [done|].
      eapply not_gt_ge; [apply (inv_number s Hinv)|done..]. }
    split_and!; try done.
    + rewrite filter_none; [by rewrite app_nil_r|].
      intros m Hm. unfold fresh. destruct (JsNum.ge pct (JInt m)) eqn:Hge; [|done].
      by rewrite (bool_decide_eq_true_2 _ (Hnone m Hm Hge)).
    + intros m. split; [by left|]. intros [?|[? ?]]; [done|]. by apply Hnone.
Qed.

Lemma milestones_above_zero m : m ∈ milestones -> JsNum.ge (JInt 0) (JInt m) = false.
Proof.
  unfold milestones. rewrite !elem_of_cons, elem_of_nil.
  intros [->|[->|[->|[->|[->|[]]]]]]; reflexivity.
Qed.

Lemma filter_fresh_elem pct t m :
  m ∈ List.filter (fresh pct t) milestones <->
  m ∈ milestones /\ JsNum.ge pct (JInt m) = true /\ m ∉ t.
Proof.
  rewrite list_elem_of_In, List.filter_In, <- list_elem_of_In. unfold fresh.
  rewrite andb_true_iff, negb_true_iff, bool_decide_eq_false. tauto.
Qed.

Lemma NoDup_filter_milestones (f : Z -> bool) : NoDup (List.filter f milestones).
Proof.
  apply NoDup_ListNoDup, List.NoDup_filter, NoDup_ListNoDup, NoDup_milestones.
Qed.

Lemma scroll_depth_update_inv pct s :
  scroll_inv s -> checkInterval s = None ->
  scroll_inv (exec (scroll_depth_update pct) s).
Proof.
  intros Hinv Hgate.
  destruct (scroll_depth_update_spec pct s Hinv)
    as (s' & Hrun & Hmax & Hsink & Htr & _ & Hsame).
  unfold exec. rewrite Hrun. cbn [snd].
  assert (Hge_new : forall m, JsNum.ge (maxScroll s') (JInt m) = true <->
                              JsNum.ge (maxScroll s) (JInt m) = true
                              \/ JsNum.ge pct (JInt m) = true).
  { intros m. rewrite Hmax. destruct (JsNum.gt pct (maxScroll s)) eqn:Hgt.
    - split; [by right|]. intros [Hold|?]; [|done].
      eapply ge_trans; [by apply gt_ge|done].
    - split; [by left|]. intros [?|Hnew]; [done|].
      eapply not_gt_ge; [apply (inv_number s Hinv)|done..]. }
  split.
  - rewrite Hsink, scroll_events_app, scroll_depths_app, map_app.
    by rewrite scroll_events_depth_events, scroll_depths_depth_events, (inv_events s Hinv).
  - rewrite Hsink, scroll_depths_app, scroll_depths_depth_events.
    apply NoDup_app. split_and!.
    + apply (inv_nodup s Hinv).
    + intros m Hm Hm'. apply filter_fresh_elem in Hm' as (_ & _ & Hnot).
      by apply Hnot, (inv_sink s Hinv).
    + apply NoDup_filter_milestones.
  - intros m. rewrite Hsink, scroll_depths_app, scroll_depths_depth_events.
    rewrite elem_of_app, filter_fresh_elem, Htr, (inv_sink s Hinv).
    destruct (decide (m ∈ tracked s)); tauto.
  - intros m. rewrite Htr, Hge_new, (inv_tracked s Hinv). tauto.
  - rewrite Hmax. destruct (JsNum.gt pct (maxScroll s)) eqn:Hgt.
    + by eapply gt_not_nan.
    + apply (inv_number s Hinv).
  - destruct Hsame as [_ Hci _ _]. rewrite Hci, Hgate. done.
Qed.

(** ** Listeners other than the scroll timer *)

Lemma init_spec e s : _initializeTracking e s = (Ok tt, after_init e s).
Proof.
  destruct s as [[c1 c2 c3 c4 c5 c6 c7 c8 c9] ls ms tr st t0 tf ci sk co].
  destruct e as [rdy perf date].
  unfold _initializeTracking, after_init, wired.
  destruct c1, c2, c3, c4, c5, c6, perf;
    unfold trackPerformance, trackClicks, trackForms, trackScroll, trackErrors,
      trackVisibility, trackInputFocus; unfold_m; unfold_set; cbn -[app];
    rewrite <- ?app_assoc, ?app_nil_r; reflexivity.
Qed.


Lemma quiet_refl s : quiet s s.
Proof. split; [apply same_scroll_refl|apply same_gate_refl]. Qed.

Lemma quiet_trans s1 s2 s3 : quiet s1 s2 -> quiet s2 s3 -> quiet s1 s3.
Proof.
  intros [[] []] [[] []]. split; split; congruence.
Qed.

Lemma quiet_sink s name p :
  is_scroll_depth (name, p) = false -> quiet s (set_sink (sink s ++ [(name, p)]) s).
Proof.
  intros Hn. split; split; try done; simpl.
  - rewrite scroll_events_app. simpl. rewrite Hn. apply app_nil_r.
  - rewrite scroll_depths_app. simpl. unfold depth_of. rewrite Hn. apply app_nil_r.
Qed.

Lemma quiet_console s c :
  is_LogStarting c = false -> is_failure c = false ->
  quiet s (set_console (console s ++ [c]) s).
Proof.
  intros H1 H2. split; split; try done; simpl.
  - unfold init_runs. simpl. rewrite List.filter_app. simpl. rewrite H1. by rewrite app_nil_r.
  - unfold failures. simpl. rewrite List.filter_app. simpl. rewrite H2. by rewrite app_nil_r.
Qed.

Lemma quiet_scrollTimer s t : quiet s (set_scrollTimer t s).
Proof. by split; split. Qed.

Lemma quiet_startTime s t : quiet s (set_startTime t s).
Proof. by split; split. Qed.

Lemma quiet_trackedFields s t : quiet s (set_trackedFields t s).
Proof. by split; split. Qed.

Lemma click_listener_quiet pg t s : quiet s (exec (click_listener pg t) s).
Proof.
  unfold click_listener, try_catch. unfold_m.
  destruct (getElementProps (config s) pg t) as [p|err]; cbn [snd];
    [|by apply quiet_console].
  destruct (tagName_toLowerCase t) as [tag|err]; cbn [snd]; [|by apply quiet_console].
  destruct (String.eqb tag "button"); [by apply quiet_sink|].
  destruct (String.eqb tag "a"); [by apply quiet_sink|].
  destruct (match Dom.role t with Some r => String.eqb r "button" | None => false end);
    by apply quiet_sink.
Qed.

Lemma submit_listener_quiet t s : quiet s (exec (submit_listener t) s).
Proof.
  unfold submit_listener. unfold_m.
  destruct (f_elements t); cbn [snd]; [by apply quiet_sink|apply quiet_refl].
Qed.

Lemma scroll_listener_quiet s : quiet s (exec scroll_listener s).
Proof. unfold scroll_listener. unfold_m. apply quiet_scrollTimer. Qed.

Lemma error_listener_quiet e s : quiet s (exec (error_listener e) s).
Proof.
  unfold error_listener. unfold_m.
  destruct (stack_of (error e)); cbn [snd]; [by apply quiet_sink|apply quiet_refl].
Qed.

Lemma unhandledrejection_listener_quiet r s :
  quiet s (exec (unhandledrejection_listener r) s).
Proof.
  unfold unhandledrejection_listener. unfold_m.
  destruct (JsVal.String r); cbn [snd]; [by apply quiet_sink|apply quiet_refl].
Qed.

Lemma visibilitychange_listener_quiet h d s :
  quiet s (exec (visibilitychange_listener h d) s).
Proof.
  unfold visibilitychange_listener. destruct h; unfold_m; cbn [snd].
  - by apply quiet_sink.
  - eapply quiet_trans; [apply quiet_startTime|by apply quiet_sink].
Qed.

Lemma focus_listener_quiet t s : quiet s (exec (focus_listener t) s).
Proof.
  unfold focus_listener.
  destruct (is_form_control (Dom.tagName t)); unfold_m; [|apply quiet_refl].
  destruct (negb _); cbn [snd]; [|apply quiet_refl].
  eapply quiet_trans; [apply quiet_trackedFields|by apply quiet_sink].
Qed.

Lemma load_timeout_quiet t s : quiet s (exec (load_timeout t) s).
Proof. unfold load_timeout. unfold_m. by apply quiet_sink. Qed.

Lemma on_exec t type capture body s :
  exec (on t type capture body) s =
  if registered t type capture s then exec body s else s.
Proof. unfold exec, on. by destruct (registered t type capture s). Qed.

Lemma on_quiet t type capture body s :
  quiet s (exec body s) -> quiet s (exec (on t type capture body) s).
Proof. rewrite on_exec. destruct (registered _ _ _ _); [done|intros _; apply quiet_refl]. Qed.

Lemma registered_nil t type capture s :
  listeners s = [] -> registered t type capture s = false.
Proof. unfold registered. by intros ->. Qed.

(** ** The invariant along a session *)

Lemma quiet_inv s s' :
  scroll_inv s -> quiet s s' -> (checkInterval s <> None -> s' = s) -> scroll_inv s'.
Proof.
  intros Hinv [[Hm Ht He Hd] [Hl Hc _ _ _]] Hpoll.
  destruct (decide (checkInterval s = None)) as [Hnone|Hsome].
  - split.
    + rewrite He, Hd. apply Hinv.
    + rewrite Hd. apply Hinv.
    + intros m. rewrite Hd, Ht. apply Hinv.
    + intros m. rewrite Ht, Hm. apply Hinv.
    + rewrite Hm. apply Hinv.
    + rewrite Hc. done.
  - by rewrite (Hpoll Hsome).
Qed.

Lemma initial_inv : scroll_inv initial_session.
Proof.
  split; try done.
  - apply NoDup_nil_2.
  - intros m. split; intros Hm; [by apply elem_of_nil in Hm|set_solver].
  - intros m. split; [set_solver|]. intros [Hm Hge].
    change (maxScroll initial_session) with (JInt 0) in Hge.
    by rewrite (milestones_above_zero m Hm) in Hge.
Qed.

Lemma after_init_inv e s :
  scroll_inv s -> sink s = [] -> maxScroll s = JInt 0 -> tracked s = ∅ ->
  checkInterval s = None ->
  scroll_inv (after_init e s).
Proof.
  intros Hinv Hsink Hmax Htr Hci.
  assert (Hm : maxScroll (after_init e s) = JInt 0)
    by (simpl; by destruct (Config.trackScroll (config s))).
  assert (Ht : tracked (after_init e s) = ∅)
    by (simpl; by destruct (Config.trackScroll (config s))).
  assert (Hs : sink (after_init e s) = []) by done.
  split; rewrite ?Hs, ?Hm, ?Ht; try done.
  - apply NoDup_nil_2.
  - intros m. split; intros H; [by apply elem_of_nil in H|set_solver].
  - intros m. split; [set_solver|]. intros [H Hge].
    by rewrite (milestones_above_zero m H) in Hge.
Qed.

(** ** The gate *)

Lemma start_spec customConfig e s :
  start customConfig e s =
  (Ok tt, if sink_ready e then after_init e (merged customConfig s)
          else waiting (merged customConfig s)).
Proof.
  unfold start. unfold_m. destruct (sink_ready e); cbn [negb].
  - apply init_spec.
  - reflexivity.
Qed.

Lemma checkInterval_tick_spec e s :
  checkInterval_tick e s =
  (Ok tt,
   match checkInterval s with
   | None => s
   | Some attempts =>
       if sink_ready e then after_init e (sdk_ready s)
       else if (maxAttempts <=? S attempts)%nat then timed_out s
            else set_checkInterval (Some (S attempts)) s
   end).
Proof.
  unfold checkInterval_tick. unfold_m.
  destruct (checkInterval s) as [a|]; [|done].
  destruct (sink_ready e).
  - cbn. rewrite init_spec. by destruct s.
  - destruct (maxAttempts <=? S a)%nat; by destruct s.
Qed.

Lemma scroll_timeout_exec v s :
  exec (scroll_timeout v) s =
  match scrollTimer s with
  | Some _ => exec (scroll_depth_update (scroll_percent v)) (set_scrollTimer None s)
  | None => s
  end.
Proof.
  unfold scroll_timeout, trackScrollDepth. unfold_m. by destruct (scrollTimer s).
Qed.

Lemma scroll_depth_update_same_gate pct s :
  same_gate s (exec (scroll_depth_update pct) s)
  /\ fst (scroll_depth_update pct s) = Ok tt.
Proof.
  unfold scroll_depth_update. unfold_m.
  destruct (JsNum.gt pct (maxScroll s)); [|split; [apply same_gate_refl|done]].
  destruct (forEach_track_milestone pct milestones NoDup_milestones (set_maxScroll pct s))
    as (s' & Hrun & _ & _ & _ & _ & Hgate).
  rewrite Hrun. split; [|done]. destruct Hgate. by split.
Qed.

(** Every event but the interval tick leaves the gate as it is. *)
Lemma dispatch_same_gate pg ev s :
  (forall e, ev <> EInterval e) -> same_gate s (exec (dispatch pg ev) s).
Proof.
  intros Hev. destruct ev; cbn [dispatch]; try (by destruct (Hev e));
    try (apply on_quiet;
         first [ apply click_listener_quiet | apply submit_listener_quiet
               | apply scroll_listener_quiet | apply error_listener_quiet
               | apply unhandledrejection_listener_quiet
               | apply visibilitychange_listener_quiet
               | apply focus_listener_quiet | apply load_timeout_quiet ]).
  rewrite on_exec. destruct (registered _ _ _ _); [|apply same_gate_refl].
  rewrite scroll_timeout_exec. destruct (scrollTimer s); [|apply same_gate_refl].
  destruct (scroll_depth_update_same_gate (scroll_percent v) (set_scrollTimer None s))
    as [[] _].
  by split.
Qed.

(** Without a listener, every event but the interval tick does nothing. *)
Lemma dispatch_no_listener pg ev s :
  listeners s = [] -> (forall e, ev <> EInterval e) -> dispatch pg ev s = (Ok tt, s).
Proof.
  intros Hl Hev. destruct ev; cbn [dispatch]; try (by destruct (Hev e));
    unfold on; by rewrite registered_nil.
Qed.

Lemma scroll_inv_same s s' :
  scroll_inv s ->
  maxScroll s' = maxScroll s -> tracked s' = tracked s -> sink s' = sink s ->
  (checkInterval s' <> None ->
   listeners s' = [] /\ sink s' = [] /\ maxScroll s' = JInt 0 /\ tracked s' = ∅) ->
  scroll_inv s'.
Proof.
  intros Hinv Hm Ht Hs Hp. split; rewrite ?Hs, ?Hm, ?Ht; try apply Hinv.
  by rewrite <- Hs, <- Hm, <- Ht.
Qed.

Lemma registered_polling t type capture s :
  scroll_inv s -> registered t type capture s = true -> checkInterval s = None.
Proof.
  intros Hinv Hreg. destruct (checkInterval s) eqn:Hci; [|done].
  destruct (inv_polling s Hinv) as [Hl _]; [by rewrite Hci|].
  by rewrite registered_nil in Hreg.
Qed.

Lemma dispatch_inv pg ev s :
  scroll_inv s ->
  scroll_inv (exec (dispatch pg ev) s)
  /\ JsNum.ge (maxScroll (exec (dispatch pg ev) s)) (maxScroll s) = true.
Proof.
  intros Hinv.
  assert (Hquiet : (forall e, ev <> EInterval e) -> quiet s (exec (dispatch pg ev) s) ->
                   scroll_inv (exec (dispatch pg ev) s)
                   /\ JsNum.ge (maxScroll (exec (dispatch pg ev) s)) (maxScroll s) = true).
  { intros Hev Hq. split.
    - apply (quiet_inv s); [done..|]. intros Hpoll.
      destruct (inv_polling s Hinv Hpoll) as [Hl _].
      unfold exec. by rewrite dispatch_no_listener.
    - destruct Hq as [[-> _ _ _] _]. apply ge_refl, Hinv. }
  destruct ev; try (apply Hquiet; [done|]; cbn [dispatch]; apply on_quiet;
         first [ apply click_listener_quiet | apply submit_listener_quiet
               | apply scroll_listener_quiet | apply error_listener_quiet
               | apply unhandledrejection_listener_quiet
               | apply visibilitychange_listener_quiet
               | apply focus_listener_quiet | apply load_timeout_quiet ]).
  - (* the debounce timer fires *)
    cbn [dispatch]. rewrite on_exec.
    destruct (registered _ _ _ _) eqn:Hreg; [|split; [done|apply ge_refl, Hinv]].
    rewrite scroll_timeout_exec.
    destruct (scrollTimer s); [|split; [done|apply ge_refl, Hinv]].
    pose proof (registered_polling _ _ _ _ Hinv Hreg) as Hci.
    assert (Hinv1 : scroll_inv (set_scrollTimer None s)).
    { apply (scroll_inv_same s); try done; simpl; by rewrite Hci. }
    split; [by apply scroll_depth_update_inv|].
    destruct (scroll_depth_update_spec (scroll_percent v) _ Hinv1)
      as (s' & Hrun & Hmax & _).
    unfold exec. rewrite Hrun. cbn [snd]. rewrite Hmax. simpl maxScroll.
    destruct (JsNum.gt _ _) eqn:Hgt; [by apply gt_ge|apply ge_refl, Hinv].
  - (* the polling interval fires *)
    cbn [dispatch]. unfold exec. rewrite checkInterval_tick_spec. cbn [snd].
    destruct (checkInterval s) as [a|] eqn:Hci; [|split; [done|apply ge_refl, Hinv]].
    destruct (inv_polling s Hinv) as (Hl & Hs & Hm & Ht); [by rewrite Hci|].
    destruct (sink_ready e).
    + split.
      * apply after_init_inv; try done.
        apply (scroll_inv_same s); try done.
      * simpl. rewrite Hm. by destruct (Config.trackScroll (config s)).
    + destruct (maxAttempts <=? S a)%nat.
      * split; [by apply (scroll_inv_same s)|apply ge_refl, Hinv].
      * split; [by apply (scroll_inv_same s)|apply ge_refl, Hinv].
Qed.

Lemma started_inv customConfig e : scroll_inv (started customConfig e).
Proof.
  unfold started, exec. rewrite start_spec. cbn [snd].
  destruct (sink_ready e).
  - apply after_init_inv; try done. apply (scroll_inv_same initial_session); try done.
    apply initial_inv.
  - apply (scroll_inv_same initial_session); try done. apply initial_inv.
Qed.

(** ** Runs *)

Lemma session_after_cons pg ev evs s :
  session_after pg (ev :: evs) s = session_after pg evs (exec (dispatch pg ev) s).
Proof.
  unfold session_after, exec. cbn [run].
  destruct (dispatch pg ev s) as [[|err] s']; [done|].
  cbn [snd]. by destruct (run pg evs s').
Qed.

Lemma session_after_app pg evs1 evs2 s :
  session_after pg (evs1 ++ evs2) s = session_after pg evs2 (session_after pg evs1 s).
Proof.
  revert s. induction evs1 as [|ev evs1 IH]; intros s; [done|].
  by rewrite <- app_comm_cons, !session_after_cons, IH.
Qed.

Lemma session_after_inv pg evs s : scroll_inv s -> scroll_inv (session_after pg evs s).
Proof.
  revert s. induction evs as [|ev evs IH]; intros s Hinv; [done|].
  rewrite session_after_cons. by apply IH, dispatch_inv.
Qed.

Lemma session_after_mono pg evs s :
  scroll_inv s -> JsNum.ge (maxScroll (session_after pg evs s)) (maxScroll s) = true.
Proof.
  revert s. induction evs as [|ev evs IH]; intros s Hinv.
  - apply ge_refl, Hinv.
  - rewrite session_after_cons.
    destruct (dispatch_inv pg ev s Hinv) as [Hinv' Hge].
    eapply ge_trans; [by apply IH|done].
Qed.

(** ** Binary64: integers and a zero divisor *)

Section Binary64.

Local Open Scope Z_scope.

Lemma shr_1_m mrs : 0 <= shr_m mrs -> shr_m (shr_1 mrs) = shr_m mrs / 2.
Proof.
  destruct mrs as [m r s]. cbn [shr_m shr_1]. intros Hm.
  destruct m as [|[p|p|]|p]; cbn [shr_m]; [reflexivity| | |reflexivity|lia].
  - apply Z.div_unique with (r := 1); lia.
  - apply Z.div_unique with (r := 0); lia.
Qed.

Lemma iter_pos_shr_1 p : forall mrs,
  0 <= shr_m mrs -> shr_m (SpecFloat.iter_pos shr_1 p mrs) = shr_m mrs / 2 ^ Zpos p.
Proof.
  induction p as [p IH|p IH|]; intros mrs Hm; cbn [SpecFloat.iter_pos].
  - assert (H1 : 0 <= shr_m (shr_1 mrs)) by (rewrite shr_1_m; [apply Z.div_pos|]; lia).
    assert (H2 : 0 <= shr_m (SpecFloat.iter_pos shr_1 p (shr_1 mrs))).
    { rewrite IH by done. apply Z.div_pos; lia. }
    rewrite IH, IH, shr_1_m by done.
    rewrite !Z.div_div by lia. f_equal.
    replace (Zpos p~1) with (1 + Zpos p + Zpos p) by lia.
    rewrite !Z.pow_add_r by lia. lia.
  - assert (H2 : 0 <= shr_m (SpecFloat.iter_pos shr_1 p mrs)).
    { rewrite IH by done. apply Z.div_pos; lia. }
    rewrite IH, IH by done. rewrite Z.div_div by lia. f_equal.
    replace (Zpos p~0) with (Zpos p + Zpos p) by lia.
    rewrite Z.pow_add_r by lia. lia.
  - rewrite shr_1_m by done. reflexivity.
Qed.

Lemma digits2_pos_bounds p :
  2 ^ (Zpos (digits2_pos p) - 1) <= Zpos p < 2 ^ Zpos (digits2_pos p).
Proof.
  induction p as [p IH|p IH|]; cbn [digits2_pos]; [| |simpl; lia];
    rewrite Pos2Z.inj_succ;
    replace (Z.succ (Zpos (digits2_pos p)) - 1) with (Z.succ (Zpos (digits2_pos p) - 1)) by lia;
    rewrite !Z.pow_succ_r by lia; lia.
Qed.

(** Shifting a positive mantissa to the exponent of the format
    leaves a positive mantissa: one of at most 53 bits, or the
    mantissa itself when it needed no shift. *)
Lemma shr_fexp_positive m e l :
  1 <= m -> emin prec emax <= e ->
  let r := shr_fexp prec emax m e l in
  1 <= shr_m (fst r) <= m /\ e <= snd r
  /\ (shr_m (fst r) < 2 ^ 53
      \/ (fexp prec emax (Zdigits2 m + e) <= e /\ shr_m (fst r) = m)).
Proof.
  intros Hm He. unfold shr_fexp, shr.
  assert (Hrec : shr_m (shr_record_of_loc m l) = m) by (destruct l as [|[]]; reflexivity).
  destruct m as [|p|p]; try lia. cbn [Zdigits2].
  pose proof (digits2_pos_bounds p) as Hd.
  set (d := Zpos (digits2_pos p)) in *.
  destruct (fexp prec emax (d + e) - e) as [|n|n] eqn:Hn; cbn [fst snd].
  - rewrite Hrec. clearbody d. lia.
  - rewrite iter_pos_shr_1 by (rewrite Hrec; lia). rewrite Hrec.
    unfold fexp, emin, prec, emax in *.
    assert (Hn1 : Zpos n <= d - 1) by lia.
    assert (Hn2 : d - Zpos n <= 53) by lia.
    assert (Hp1 : 2 ^ Zpos n <= 2 ^ (d - 1)) by (apply Z.pow_le_mono_r; lia).
    assert (Hp2 : 2 ^ d = 2 ^ Zpos n * 2 ^ (d - Zpos n)).
    { rewrite <- Z.pow_add_r by lia. f_equal. lia. }
    assert (Hp3 : 2 ^ (d - Zpos n) <= 2 ^ 53) by (apply Z.pow_le_mono_r; lia).
    assert (Hp4 : 0 < 2 ^ Zpos n) by lia.
    split_and!.
    + apply Z.div_le_lower_bound; lia.
    + apply Z.div_le_upper_bound; [lia|]. nia.
    + lia.
    + left. apply Z.lt_le_trans with (2 ^ (d - Zpos n)); [|done].
      apply Z.div_lt_upper_bound; lia.
  - rewrite Hrec. clearbody d. lia.
Qed.

Lemma round_nearest_even_bounds m l : m <= round_nearest_even m l <= m + 1.
Proof.
  destruct l as [|[]]; cbn [round_nearest_even]; try lia. destruct (Z.even m); lia.
Qed.

(** Rounding a positive mantissa whose exponent is in range gives a
    number that is not zero, with the sign asked for. *)
Lemma binary_round_aux_signed s m e :
  emin prec emax <= e ->
  signed s (binary_round_aux prec emax s (Zpos m) e loc_Exact).
Proof.
  intros He. unfold binary_round_aux.
  pose proof (shr_fexp_positive (Zpos m) e loc_Exact ltac:(lia) He) as (H1 & H2 & _).
  destruct (shr_fexp prec emax (Zpos m) e loc_Exact) as [mrs' e']. cbn [fst snd] in H1, H2.
  pose proof (round_nearest_even_bounds (shr_m mrs') (loc_of_shr_record mrs')) as H3.
  pose proof (shr_fexp_positive (round_nearest_even (shr_m mrs') (loc_of_shr_record mrs'))
                e' loc_Exact ltac:(lia) ltac:(lia)) as (H4 & _).
  destruct (shr_fexp prec emax _ e' loc_Exact) as [mrs'' e'']. cbn [fst snd] in H4.
  destruct (shr_m mrs'') as [|q|q]; try lia.
  by destruct (e'' <=? emax - prec).
Qed.

Lemma binary_round_aux_small s m e :
  emin prec emax <= e ->
  (fexp prec emax (Zpos (digits2_pos m) + e) <= e -> Zpos m < 2 ^ 53) ->
  small e (binary_round_aux prec emax s (Zpos m) e loc_Exact).
Proof.
  intros He Hm. unfold binary_round_aux.
  pose proof (shr_fexp_positive (Zpos m) e loc_Exact ltac:(lia) He) as (H1 & H2 & H0).
  assert (Hb : shr_m (fst (shr_fexp prec emax (Z.pos m) e loc_Exact)) < 2 ^ 53).
  { destruct H0 as [H0|[Hle H0]]; [done|]. rewrite H0. by apply Hm. }
  destruct (shr_fexp prec emax (Zpos m) e loc_Exact) as [mrs' e']. cbn [fst snd] in H1, H2, Hb.
  pose proof (round_nearest_even_bounds (shr_m mrs') (loc_of_shr_record mrs')) as H3.
  pose proof (shr_fexp_positive (round_nearest_even (shr_m mrs') (loc_of_shr_record mrs'))
                e' loc_Exact ltac:(lia) ltac:(lia)) as (H4 & H5 & _).
  destruct (shr_fexp prec emax _ e' loc_Exact) as [mrs'' e'']. cbn [fst snd] in H4, H5.
  destruct (shr_m mrs'') as [|q|q]; try done.
  destruct (e'' <=? emax - prec); [|done]. cbn [small]. lia.
Qed.

Lemma binary_round_signed s m e :
  emin prec emax <= e -> signed s (binary_round prec emax s m e).
Proof.
  intros He. unfold binary_round, shl_align.
  set (e' := fexp prec emax (Zpos (digits2_pos m) + e)).
  assert (He' : emin prec emax <= e') by (subst e'; unfold fexp; lia).
  destruct (e' - e); by apply binary_round_aux_signed.
Qed.

(** The binary64 number nearest to an integer that is not zero: not
    zero, of the same sign, with a mantissa below 2^63 and an exponent
    from -52 on. *)
Lemma binary_round_integer s p :
  signed s (binary_round prec emax s p 0) /\ small (-52) (binary_round prec emax s p 0).
Proof.
  split; [apply binary_round_signed; by unfold emin, prec, emax|].
  unfold binary_round, shl_align.
  pose proof (digits2_pos_bounds p) as Hd.
  assert (H0 : emin prec emax <= 0) by (by unfold emin, prec, emax).
  assert (Hal : fexp prec emax (Zpos (digits2_pos p) + 0) <= 0 -> Zpos p < 2 ^ 53).
  { unfold fexp, emin, prec, emax. intros Hle.
    apply Z.lt_le_trans with (2 ^ Zpos (digits2_pos p)); [lia|].
    apply Z.pow_le_mono_r; lia. }
  destruct (fexp prec emax (Zpos (digits2_pos p) + 0) - 0) as [|n|n] eqn:Hn.
  - pose proof (binary_round_aux_small s p 0 H0 Hal) as H.
    destruct (binary_round_aux _ _ _ _ _ _); try done. cbn [small] in *. lia.
  - pose proof (binary_round_aux_small s p 0 H0 Hal) as H.
    destruct (binary_round_aux _ _ _ _ _ _); try done. cbn [small] in *. lia.
  - unfold fexp, emin, prec, emax in Hn.
    assert (He : emin prec emax <= fexp prec emax (Zpos (digits2_pos p) + 0))
      by (unfold fexp, emin, prec, emax; lia).
    assert (Hm : Zpos (Pos.iter xO p n) < 2 ^ 53).
    { change (Pos.iter xO p n) with (shift_pos n p).
      rewrite shift_pos_correct, Z.pow_pos_fold.
      assert (Hp : 2 ^ Zpos n * 2 ^ Zpos (digits2_pos p) = 2 ^ (Zpos n + Zpos (digits2_pos p)))
        by (rewrite Z.pow_add_r; lia).
      assert (Hq : 2 ^ (Zpos n + Zpos (digits2_pos p)) <= 2 ^ 53)
        by (apply Z.pow_le_mono_r; lia).
      assert (0 < 2 ^ Zpos n) by lia. nia. }
    pose proof (binary_round_aux_small s _ _ He (fun _ => Hm)) as H.
    destruct (binary_round_aux _ _ _ _ _ _); try done. cbn [small] in *.
    unfold fexp, emin, prec, emax in H. lia.
Qed.

(** The primitive value of an integer that is not zero is not zero
    and has the sign of the integer. *)
Lemma to_float_signed z : z <> 0 -> signed (z <? 0) (Prim2SF (JsNum.to_float z)).
Proof.
  intros Hz. unfold JsNum.to_float, JsNum.nearest_binary64.
  assert (Hpos : forall m e,
             Zpos m < 2 ^ 63 -> -52 <= e ->
             signed false (Prim2SF (Z.ldexp (of_uint63 (Uint63.of_Z (Zpos m))) e))).
  { intros m e Hm He. rewrite Z_ldexp_spec, of_uint63_spec, Uint63.of_Z_spec.
    rewrite Z.mod_small by (change wB with (2 ^ 63); lia).
    cbn [binary_normalize].
    destruct (binary_round_integer false m) as [Hs' Hb'].
    destruct (binary_round prec emax false m 0) as [| [] | |[] m' e']; try done.
    cbn [small] in Hb'. cbn [SFldexp].
    apply binary_round_signed. unfold emin, prec, emax. lia. }
  destruct z as [|p|p]; [done| |]; cbn [binary_normalize Z.ltb Z.compare].
  - destruct (binary_round_integer false p) as [Hs Hb].
    destruct (binary_round prec emax false p 0) as [| [] | |[] m e]; try done.
    cbn [small] in Hb. destruct Hb as [Hm He]. cbn [SF2Prim]. by apply Hpos.
  - destruct (binary_round_integer true p) as [Hs Hb].
    destruct (binary_round prec emax true p 0) as [| [] | |[] m e]; try done.
    cbn [small] in Hb. cbn [SF2Prim]. rewrite FloatAxioms.opp_spec.
    destruct Hb as [Hm He]. pose proof (Hpos m e Hm He) as H.
    by destruct (Prim2SF _) as [| [] | |[] m' e'].
Qed.

(** [x / 0 * 100] in binary64, for [x] that is not zero: the infinity
    of the sign of [x]. *)
Lemma div_zero_mul_hundred s x :
  signed s (Prim2SF x) ->
  Prim2SF (PrimFloat.mul (PrimFloat.div x PrimFloat.zero) JsNum.hundred) = S754_infinity s.
Proof.
  intros Hx. rewrite FloatAxioms.mul_spec, FloatAxioms.div_spec.
  change (Prim2SF PrimFloat.zero) with (S754_zero false).
  change (Prim2SF JsNum.hundred) with (S754_finite false 7036874417766400 (-46)).
  destruct (Prim2SF x) as [|s'| |s' mx ex]; try done; cbn in Hx; subst s'; by destruct s.
Qed.

(** The percentage over a zero divisor. *)
Lemma round_percent_zero a :
  JsNum.round_percent a 0 = if a =? 0 then JNaN else JInf (a <? 0).
Proof.
  destruct (a =? 0) eqn:Ha.
  - apply Z.eqb_eq in Ha as ->. vm_compute. reflexivity.
  - apply Z.eqb_neq in Ha. unfold JsNum.round_percent, JsNum.Math_round.
    change (JsNum.to_float 0) with PrimFloat.zero.
    by rewrite (div_zero_mul_hundred (a <? 0)) by by apply to_float_signed.
Qed.

End Binary64.


(** ** Scroll depth *)

Lemma filter_ext_elem {A} (f g : A -> bool) l :
  (forall x, x ∈ l -> f x = g x) -> List.filter f l = List.filter g l.
Proof.
  intros H. apply List.filter_ext_in. intros x Hx. by apply H, list_elem_of_In.
Qed.

Lemma tracked_decide s m :
  scroll_inv s -> m ∈ milestones ->
  bool_decide (m ∈ tracked s) = JsNum.ge (maxScroll s) (JInt m).
Proof.
  intros Hinv Hm. destruct (JsNum.ge (maxScroll s) (JInt m)) eqn:Hge.
  - apply bool_decide_eq_true. by apply (inv_tracked s Hinv).
  - apply bool_decide_eq_false. intros Hin.
    apply (inv_tracked s Hinv) in Hin as [_ Hin]. congruence.
Qed.

Lemma tick_emits pct s :
  scroll_inv s ->
  sink (exec (scroll_depth_update pct) s) =
  sink s ++ map depth_event
    (List.filter (newly_reached (maxScroll s) (maxScroll (exec (scroll_depth_update pct) s)))
                 milestones).
Proof.
  intros Hinv.
  destruct (scroll_depth_update_spec pct s Hinv) as (s' & Hrun & Hmax & Hsink & _).
  unfold exec. rewrite Hrun. cbn [snd]. rewrite Hsink. do 2 f_equal.
  apply filter_ext_elem. intros m Hm. unfold fresh, newly_reached.
  rewrite (tracked_decide s m Hinv Hm), Hmax.
  destruct (JsNum.gt pct (maxScroll s)) eqn:Hgt; [done|].
  destruct (JsNum.ge pct (JInt m)) eqn:Hge.
  - rewrite (not_gt_ge pct (maxScroll s) (JInt m)); [done|apply Hinv|done..].
  - simpl. by destruct (JsNum.ge (maxScroll s) (JInt m)).
Qed.

Lemma newly_reached_same a m : newly_reached a a m = false.
Proof. unfold newly_reached. by destruct (JsNum.ge a (JInt m)). Qed.

(** C4: along every session, the running maximum never decreases;
    the [scroll_depth] events that reached the sink carry pairwise
    different depths, all of them milestones, and these depths are the
    milestone set (a milestone enters the set when its event is sent,
    so no milestone is added twice); and one debounced computation
    sends an event for exactly the milestones that the new maximum
    reaches and the old maximum had not reached. *)
Theorem scroll_milestones_once customConfig e pg evs1 evs2 :
  let s1 := session_after pg evs1 (started customConfig e) in
  let s2 := session_after pg (evs1 ++ evs2) (started customConfig e) in
  JsNum.ge (maxScroll s2) (maxScroll s1) = true
  /\ NoDup (scroll_depths (sink s2))
  /\ scroll_events (sink s2) = map depth_event (scroll_depths (sink s2))
  /\ (forall m, m ∈ scroll_depths (sink s2) <-> m ∈ tracked s2)
  /\ (forall m, m ∈ tracked s2 <->
                m ∈ milestones /\ JsNum.ge (maxScroll s2) (JInt m) = true)
  /\ (forall v,
        let s3 := exec (dispatch pg (EScrollTimeout v)) s2 in
        sink s3 = sink s2 ++ map depth_event
          (List.filter (newly_reached (maxScroll s2) (maxScroll s3)) milestones)).
Proof.
  intros s1 s2.
  assert (Hinv1 : scroll_inv s1) by apply session_after_inv, started_inv.
  assert (Hinv2 : scroll_inv s2) by apply session_after_inv, started_inv.
  split_and!; try apply Hinv2.
  - subst s1 s2. rewrite session_after_app. by apply session_after_mono.
  - intros v s3. subst s3. cbn [dispatch]. rewrite on_exec.
    assert (Hsame : sink s2 = sink s2 ++ map depth_event
              (List.filter (newly_reached (maxScroll s2) (maxScroll s2)) milestones)).
    { rewrite filter_none; [by rewrite app_nil_r|].
      intros m _. apply newly_reached_same. }
    destruct (registered _ _ _ _) eqn:Hreg; [|done].
    rewrite scroll_timeout_exec. destruct (scrollTimer s2); [|done].
    pose proof (registered_polling _ _ _ _ Hinv2 Hreg) as Hci.
    assert (Hinv' : scroll_inv (set_scrollTimer None s2)).
    { apply (scroll_inv_same s2); try done; simpl; by rewrite Hci. }
    apply (tick_emits _ _ Hinv').
Qed.

Lemma scroll_milestones_once_witness :
  let at_percent top := EScrollTimeout {| pageYOffset := top; scrollTop := 0;
                                          scrollHeight := 1800; innerHeight := 800 |} in
  let evs := [EScroll; at_percent 600%Z; EScroll; at_percent 300%Z;
              EScroll; at_percent 1000%Z] in
  let s := session_after sample_page evs (started Config.no_custom ready_env) in
  scroll_depths (sink s) = [25; 50; 75; 90; 100]%Z
  /\ NoDup (scroll_depths (sink s))
  /\ maxScroll s = JInt 100.
Proof.
  intros at_percent evs s. split_and!.
  - vm_compute. reflexivity.
  - apply (scroll_milestones_once Config.no_custom ready_env sample_page [] evs).
  - vm_compute. reflexivity.
Defined.

Lemma filter_milestones_sorted (f : Z -> bool) :
  StronglySorted Z.lt (List.filter f milestones).
Proof.
  unfold milestones. simpl.
  destruct (f 25%Z), (f 50%Z), (f 75%Z), (f 90%Z), (f 100%Z);
    repeat (apply SSorted_cons || apply SSorted_nil || apply Forall_cons_2
            || apply Forall_nil_2 || done).
Qed.

(** C7: a fresh page that jumps to 60% sends depth 25 and then depth
    50 from the one computation, and nothing else; in every session,
    one computation sends the milestones that the new percentage
    reaches and that are not yet in the milestone set, in ascending
    order. *)
Theorem scroll_jump_emits_in_order :
  (forall e pg v,
      sink_ready e = true -> scroll_percent v = JInt 60 ->
      sink (session_after pg [EScroll; EScrollTimeout v] (started Config.no_custom e))
      = [depth_event 25; depth_event 50])
  /\ (forall customConfig e pg evs pct,
        let s := session_after pg evs (started customConfig e) in
        let emitted := List.filter (fresh pct (tracked s)) milestones in
        sink (exec (scroll_depth_update pct) s) = sink s ++ map depth_event emitted
        /\ StronglySorted Z.lt emitted).
Proof.
  split.
  - intros [r perf date] pg v Hr Hv. simpl in Hr. subst r.
    rewrite !session_after_cons. unfold session_after. cbn [run snd dispatch].
    set (s0 := started Config.no_custom _).
    assert (H0 : exec (on Window "scroll" false scroll_listener) s0
                 = set_scrollTimer (Some 500%Z) s0).
    { rewrite on_exec. subst s0. by destruct perf. }
    rewrite H0, on_exec.
    assert (H1 : registered Window "scroll" false (set_scrollTimer (Some 500%Z) s0) = true).
    { subst s0. by destruct perf. }
    rewrite H1, scroll_timeout_exec. cbn [scrollTimer set_scrollTimer]. rewrite Hv.
    subst s0. destruct perf; vm_compute; reflexivity.
  - intros customConfig e pg evs pct s emitted.
    assert (Hinv : scroll_inv s) by apply session_after_inv, started_inv.
    split; [|apply filter_milestones_sorted].
    destruct (scroll_depth_update_spec pct s Hinv) as (s' & Hrun & _ & Hsink & _).
    unfold exec. by rewrite Hrun.
Qed.

Lemma scroll_jump_emits_in_order_witness :
  sink (session_after {| Dom.pathname := "/"; Dom.body := None |}
          [EScroll; EScrollTimeout {| pageYOffset := 600; scrollTop := 0;
                                       scrollHeight := 1800; innerHeight := 800 |}]
          (started Config.no_custom {| sink_ready := true; perf_timing := true;
                                       now := 0 |}))
  = [depth_event 25; depth_event 50].
Proof.
  apply (proj1 scroll_jump_emits_in_order); [reflexivity|vm_compute; reflexivity].
Defined.

(** C9: when the document is exactly as tall as the viewport the
    divisor of the percentage is zero and nothing guards it. At
    scroll offset zero the binary64 quotient 0/0 is NaN, it stays NaN
    through the multiplication and [Math.round], and the computation
    changes nothing and sends nothing. At a positive offset the
    quotient is Infinity and so is the percentage: the one computation
    sends, in this order, each of 25, 50, 75, 90 and 100 that is not
    yet in the milestone set, all five on a page that had reached
    none, and afterwards all five are in the set. A negative offset
    gives -Infinity, which changes nothing either. *)
Theorem scroll_zero_height customConfig e pg evs v :
  scrollHeight v = innerHeight v ->
  let s := session_after pg evs (started customConfig e) in
  let s' := exec (trackScrollDepth v) s in
  (effective_scrollTop v = 0%Z -> scroll_percent v = JNaN /\ s' = s)
  /\ ((0 < effective_scrollTop v)%Z ->
      scroll_percent v = JInf false
      /\ sink s' = sink s ++ map depth_event
           (List.filter (fun m => negb (bool_decide (m ∈ tracked s)))
                        [25; 50; 75; 90; 100]%Z)
      /\ (tracked s = ∅ ->
          sink s' = sink s ++ [depth_event 25; depth_event 50; depth_event 75;
                               depth_event 90; depth_event 100])
      /\ (forall m, m ∈ [25; 50; 75; 90; 100]%Z -> m ∈ tracked s'))
  /\ ((effective_scrollTop v < 0)%Z -> scroll_percent v = JInf true /\ s' = s).
Proof.
  intros Hh s s'.
  assert (Hinv : scroll_inv s) by apply session_after_inv, started_inv.
  assert (Hp : scroll_percent v
               = if (effective_scrollTop v =? 0)%Z then JNaN
                 else JInf (effective_scrollTop v <? 0)%Z).
  { unfold scroll_percent. replace (scrollHeight v - innerHeight v)%Z with 0%Z by lia.
    apply round_percent_zero. }
  split_and!.
  - intros Htop. rewrite Htop in Hp. split; [done|].
    subst s'. unfold trackScrollDepth, scroll_depth_update. rewrite Hp. by unfold_m.
  - intros Htop.
    assert (Hp' : scroll_percent v = JInf false).
    { rewrite Hp. destruct (effective_scrollTop v =? 0)%Z eqn:H0;
        [apply Z.eqb_eq in H0; lia|]. f_equal. apply Z.ltb_ge. lia. }
    split; [done|]. subst s'. unfold trackScrollDepth. rewrite Hp'.
    destruct (scroll_depth_update_spec (JInf false) s Hinv)
      as (s' & Hrun & _ & Hsink & Htr & _).
    unfold exec. rewrite Hrun. cbn [snd].
    assert (Hall : sink s' = sink s ++ map depth_event
              (List.filter (fun m => negb (bool_decide (m ∈ tracked s)))
                           [25; 50; 75; 90; 100]%Z)).
    { rewrite Hsink. do 2 f_equal. }
    split_and!.
    + exact Hall.
    + intros Hnone. rewrite Hall, Hnone. reflexivity.
    + intros m Hm. apply Htr. by right.
  - intros Htop.
    assert (Hp' : scroll_percent v = JInf true).
    { rewrite Hp. destruct (effective_scrollTop v =? 0)%Z eqn:H0;
        [apply Z.eqb_eq in H0; lia|]. f_equal. apply Z.ltb_lt. lia. }
    split; [done|]. subst s'. unfold trackScrollDepth, scroll_depth_update. rewrite Hp'.
    unfold_m. by destruct (maxScroll s) as [|[]|].
Qed.

Lemma scroll_zero_height_witness :
  let top := {| pageYOffset := 0; scrollTop := 0; scrollHeight := 800; innerHeight := 800 |} in
  let down := {| pageYOffset := 5; scrollTop := 0; scrollHeight := 800; innerHeight := 800 |} in
  let s := started Config.no_custom {| sink_ready := true; perf_timing := true; now := 0 |} in
  (scroll_percent top = JNaN /\ exec (trackScrollDepth top) s = s)
  /\ scroll_percent down = JInf false
  /\ sink (exec (trackScrollDepth down) s)
     = [("scroll_depth", [("depth", PNum (JInt 25))]);
        ("scroll_depth", [("depth", PNum (JInt 50))]);
        ("scroll_depth", [("depth", PNum (JInt 75))]);
        ("scroll_depth", [("depth", PNum (JInt 90))]);
        ("scroll_depth", [("depth", PNum (JInt 100))])].
Proof.
  intros top down s.
  pose proof (scroll_zero_height Config.no_custom
                {| sink_ready := true; perf_timing := true; now := 0 |}
                {| Dom.pathname := "/"; Dom.body := None |} [] top eq_refl) as (H0 & _ & _).
  pose proof (scroll_zero_height Config.no_custom
                {| sink_ready := true; perf_timing := true; now := 0 |}
                {| Dom.pathname := "/"; Dom.body := None |} [] down eq_refl) as (_ & H1 & _).
  destruct (H1 eq_refl) as (Hp & _ & Hall & _).
  split; [exact (H0 eq_refl)|]. split; [exact Hp|]. exact (Hall eq_refl).
Defined.

(** ** The readiness gate *)

Lemma tick_of_other ev : (forall e, ev <> EInterval e) -> tick_of ev = None.
Proof. destruct ev; try done. intros H. by destruct (H e). Qed.

Lemma ticks_interval e evs : ticks (EInterval e :: evs) = sink_ready e :: ticks evs.
Proof. reflexivity. Qed.

Lemma ticks_other ev evs : tick_of ev = None -> ticks (ev :: evs) = ticks evs.
Proof. intros H. unfold ticks. simpl. by rewrite H. Qed.

Lemma run_cons_ok pg ev evs s s' :
  dispatch pg ev s = (Ok tt, s') -> run pg (ev :: evs) s = run pg evs s'.
Proof. intros H. cbn [run]. by rewrite H. Qed.

(** A page with no listener and no live interval is inert. *)
Lemma inert_run pg evs s :
  listeners s = [] -> checkInterval s = None -> run pg evs s = ([], s).
Proof.
  intros Hl Hc. induction evs as [|ev evs IH]; [done|].
  rewrite (run_cons_ok pg ev evs s s); [done|].
  destruct ev; try (by apply dispatch_no_listener).
  cbn [dispatch]. by rewrite checkInterval_tick_spec, Hc.
Qed.

Lemma failures_timed_out s : failures (timed_out s) = S (failures s).
Proof.
  unfold failures, timed_out. simpl. rewrite List.filter_app, length_app. simpl. lia.
Qed.

Lemma init_runs_timed_out s : init_runs (timed_out s) = init_runs s.
Proof.
  unfold init_runs, timed_out. simpl. rewrite List.filter_app, length_app. simpl. lia.
Qed.

Lemma init_runs_ready e s : init_runs (after_init e (sdk_ready s)) = S (init_runs s).
Proof.
  unfold init_runs, after_init, sdk_ready. simpl.
  rewrite !List.filter_app, !length_app. simpl. lia.
Qed.

Lemma failures_ready e s : failures (after_init e (sdk_ready s)) = failures s.
Proof.
  unfold failures, after_init, sdk_ready. simpl.
  rewrite !List.filter_app, !length_app. simpl. lia.
Qed.

Lemma polling_absent_run pg evs : forall s a,
  polling s a -> a < maxAttempts ->
  Forall (fun b => b = false) (take (maxAttempts - a) (ticks evs)) ->
  let s' := session_after pg evs s in
  listeners s' = [] /\ sink s' = [] /\ init_runs s' = 0
  /\ failures s' = (if (maxAttempts - a <=? length (ticks evs))%nat then 1 else 0)
  /\ (maxAttempts - a <= length (ticks evs) -> checkInterval s' = None)
  /\ uncaught pg evs s = [].
Proof.
  unfold maxAttempts.
  induction evs as [|ev evs IH]; intros s a Hpol Ha Habs.
  - destruct Hpol. simpl.
    destruct (100 - a) as [|n] eqn:Hn; [lia|]. simpl.
    split_and!; try done. lia.
  - destruct (tick_of ev) as [b|] eqn:Htick.
    + destruct ev; try done. clear Htick. rewrite ticks_interval in *.
      destruct (100 - a) as [|n] eqn:Hn; [lia|].
      cbn [take] in Habs. apply Forall_cons in Habs as [Hfalse Habs].
      assert (Hstep : dispatch pg (EInterval e) s =
                (Ok tt, if (100 <=? S a)%nat then timed_out s
                        else set_checkInterval (Some (S a)) s)).
      { cbn [dispatch]. rewrite checkInterval_tick_spec, (pol_interval s a Hpol).
        by rewrite Hfalse. }
      unfold session_after, uncaught. rewrite (run_cons_ok _ _ _ _ _ Hstep).
      destruct (100 <=? S a)%nat eqn:Hlast.
      * apply Nat.leb_le in Hlast. assert (n = 0) as -> by lia.
        rewrite inert_run by (by destruct Hpol). cbn [fst snd length Nat.leb].
        rewrite failures_timed_out, init_runs_timed_out. destruct Hpol.
        split_and!; try done. by f_equal.
      * apply Nat.leb_gt in Hlast.
        assert (Hpol' : polling (set_checkInterval (Some (S a)) s) (S a))
          by (destruct Hpol; by split).
        assert (Hn' : 100 - S a = n) by lia.
        specialize (IH _ (S a) Hpol' Hlast). rewrite Hn' in IH.
        destruct (IH Habs) as (H1 & H2 & H3 & H4 & H5 & H6).
        split_and!; try done.
        cbn [length]. intros ?. apply H5. lia.
    + assert (Hstep : dispatch pg ev s = (Ok tt, s)).
      { apply dispatch_no_listener; [apply Hpol|]. intros e ->. done. }
      unfold session_after, uncaught. rewrite (run_cons_ok _ _ _ _ _ Hstep).
      rewrite (ticks_other _ _ Htick) in *.
      by apply IH.
Qed.

(** Once the interval is cleared, nothing touches the gate again. *)
Lemma cleared_run pg evs : forall s,
  checkInterval s = None -> same_gate s (session_after pg evs s).
Proof.
  induction evs as [|ev evs IH]; intros s Hc; [apply same_gate_refl|].
  rewrite session_after_cons.
  assert (Hstep : same_gate s (exec (dispatch pg ev) s)).
  { destruct (tick_of ev) eqn:Htick.
    - destruct ev; try done. cbn [dispatch]. unfold exec.
      rewrite checkInterval_tick_spec, Hc. apply same_gate_refl.
    - apply dispatch_same_gate. intros e ->. done. }
  destruct Hstep as [H1 H2 H3 H4 H5].
  destruct (IH (exec (dispatch pg ev) s)) as [G1 G2 G3 G4 G5]; [congruence|].
  split; congruence.
Qed.

Lemma polling_ready_run pg evs : forall s a k,
  polling s a ->
  take (S k) (ticks evs) = replicate k false ++ [true] ->
  a + k < maxAttempts ->
  let s' := session_after pg evs s in
  init_runs s' = 1 /\ failures s' = 0 /\ checkInterval s' = None
  /\ exists e, listeners s' = wired (config s) e.
Proof.
  unfold maxAttempts.
  induction evs as [|ev evs IH]; intros s a k Hpol Htake Hk.
  - simpl in Htake. by destruct k.
  - destruct (tick_of ev) as [b|] eqn:Htick.
    + destruct ev; try done. clear Htick. rewrite ticks_interval in Htake.
      cbn [take] in Htake.
      rewrite session_after_cons. cbn [dispatch]. unfold exec.
      rewrite checkInterval_tick_spec, (pol_interval s a Hpol). cbn [snd].
      destruct k as [|k]; cbn [replicate app] in Htake.
      * assert (Hready : sink_ready e = true) by (destruct (ticks evs); by injection Htake).
        rewrite Hready.
        destruct (cleared_run pg evs (after_init e (sdk_ready s))) as [G1 G2 G3 G4 G5];
          [done|].
        rewrite G4, G5, G2, G1, init_runs_ready, failures_ready.
        destruct Hpol as [_ Hl _ -> ->]. split_and!; try done.
        exists e. simpl. by rewrite Hl.
      * injection Htake as Hfalse Htake. rewrite Hfalse.
        unfold maxAttempts.
        assert ((100 <=? S a)%nat = false) as -> by (apply Nat.leb_gt; lia).
        assert (Hpol' : polling (set_checkInterval (Some (S a)) s) (S a))
          by (destruct Hpol; by split).
        apply (IH _ (S a) k Hpol' Htake). lia.
    + rewrite session_after_cons.
      assert (Hstep : dispatch pg ev s = (Ok tt, s)).
      { apply dispatch_no_listener; [apply Hpol|]. intros e ->. done. }
      unfold exec. rewrite Hstep. cbn [snd].
      rewrite (ticks_other _ _ Htick) in Htake.
      by apply (IH s a k).
Qed.

Lemma started_polling customConfig e :
  sink_ready e = false -> polling (started customConfig e) 0.
Proof.
  intros Hr. unfold started, exec. rewrite start_spec, Hr. by split.
Qed.

(** C3: [start] finds the sink absent. As long as every firing of
    the 50 ms interval, up to the 100th, finds it absent, no listener
    is attached and nothing reaches the sink; once the 100th firing
    has happened there is exactly one failure report, the interval is
    cleared, initialization never ran and nothing was thrown.
    Conversely, when a firing within the first 100 is the first to find
    the sink, the interval is cleared by that firing, initialization
    has run exactly once, wiring the enabled listeners, and no failure
    is reported, whatever happens afterwards. *)
Theorem readiness_gate customConfig e0 pg evs :
  sink_ready e0 = false ->
  let s := session_after pg evs (started customConfig e0) in
  (Forall (fun b => b = false) (take maxAttempts (ticks evs)) ->
   listeners s = [] /\ sink s = [] /\ init_runs s = 0
   /\ failures s = (if (maxAttempts <=? length (ticks evs))%nat then 1 else 0)
   /\ (maxAttempts <= length (ticks evs) -> checkInterval s = None)
   /\ uncaught pg evs (started customConfig e0) = [])
  /\ (forall k, k < maxAttempts ->
      take (S k) (ticks evs) = replicate k false ++ [true] ->
      init_runs s = 1 /\ failures s = 0 /\ checkInterval s = None
      /\ exists e, listeners s = wired (config (started customConfig e0)) e).
Proof.
  intros Hr s. pose proof (started_polling customConfig e0 Hr) as Hpol. split.
  - intros Habs.
    pose proof (polling_absent_run pg evs _ 0 Hpol) as H.
    rewrite Nat.sub_0_r in H. apply H; [unfold maxAttempts; lia|done].
  - intros k Hk Htake. by apply (polling_ready_run pg evs _ 0 k).
Qed.

Lemma readiness_gate_witness :
  let absent := {| sink_ready := false; perf_timing := true; now := 0 |} in
  let present := {| sink_ready := true; perf_timing := true; now := 150 |} in
  let pg := {| Dom.pathname := "/"; Dom.body := None |} in
  let timeout := session_after pg (replicate 100 (EInterval absent))
                               (started Config.no_custom absent) in
  let third := session_after pg [EInterval absent; EInterval absent; EInterval present]
                             (started Config.no_custom absent) in
  (failures timeout = 1 /\ listeners timeout = [] /\ sink timeout = []
   /\ init_runs timeout = 0)
  /\ (init_runs third = 1 /\ failures third = 0 /\ checkInterval third = None).
Proof.
  intros absent present pg timeout third.
  destruct (readiness_gate Config.no_custom absent pg (replicate 100 (EInterval absent))
              eq_refl) as [Habsent _].
  destruct (readiness_gate Config.no_custom absent pg
              [EInterval absent; EInterval absent; EInterval present] eq_refl)
    as [_ Hready].
  split.
  - destruct Habsent as (H1 & H2 & H3 & H4 & _).
    + apply (bool_decide_unpack _). vm_compute. exact I.
    + split_and!; assumption.
  - destruct (Hready 2) as (H1 & H2 & H3 & _).
    + unfold maxAttempts. lia.
    + reflexivity.
    + split_and!; assumption.
Defined.

(** ** Wiring of the focus tracker *)

Lemma focus_in_wired cfg e : focus_registration ∈ wired cfg e.
Proof.
  unfold wired. rewrite !elem_of_app. do 6 right. apply elem_of_cons. by left.
Qed.

Lemma registered_elem r s :
  r ∈ listeners s -> registered (reg_target r) (reg_type r) (reg_capture r) s = true.
Proof.
  intros Hr. unfold registered. apply existsb_exists. exists r.
  split; [by apply list_elem_of_In|].
  destruct r as [[] ty c]; unfold registration_eqb; simpl;
    by rewrite String.eqb_refl, Bool.eqb_reflx.
Qed.

(** C10: whenever [_initializeTracking] runs, with whatever
    configuration, the capture-phase focus listener is among the
    listeners it attaches; with every switch of the configuration off
    it is the only listener attached, and the first focus on an input,
    textarea or select still sends [form_field_focused]. *)
Theorem focus_always_wired :
  (forall e s,
      listeners (exec (_initializeTracking e) s) = listeners s ++ wired (config s) e
      /\ focus_registration ∈ wired (config s) e
      /\ registered Document "focus" true (exec (_initializeTracking e) s) = true)
  /\ (forall e pg target,
        sink_ready e = true ->
        is_form_control (Dom.tagName target) = true ->
        let s := started all_off e in
        listeners s = [focus_registration]
        /\ dispatch pg (EFocus target) s
           = (Ok tt, set_sink [focus_event target]
                       (set_trackedFields {[field_identifier target]} s))).
Proof.
  split.
  - intros e s. unfold exec. rewrite init_spec. cbn [snd].
    split_and!; [done|apply focus_in_wired|].
    apply (registered_elem focus_registration). simpl.
    apply elem_of_app. right. apply focus_in_wired.
  - intros [r perf date] pg target Hr Hctl s. simpl in Hr. subst r s.
    split; [done|].
    cbn [dispatch]. unfold on.
    change (registered Document "focus" true _) with true. cbn iota.
    unfold focus_listener. rewrite Hctl. unfold_m.
    change (trackedFields (started all_off _)) with (∅ : gset string).
    rewrite bool_decide_eq_false_2 by set_solver. cbn [negb].
    unfold set_sink, set_trackedFields, focus_event. simpl. do 3 f_equal.
    set_solver.
Qed.

Lemma focus_always_wired_witness :
  let e := {| sink_ready := true; perf_timing := true; now := 0 |} in
  let email := Dom.mkNode 7 1 (Some "INPUT") "email" Dom.ClassUndefined EmptyString None
                 "user_email" "email" VUndefined None EmptyString EmptyString
                 (Some "signup") [] None in
  sink (session_after {| Dom.pathname := "/"; Dom.body := None |} [EFocus email]
          (started all_off e))
  = [("form_field_focused",
      [("fieldId", PStr "email"); ("fieldName", PStr "user_email");
       ("fieldType", PStr "email"); ("formId", PStr "signup")])].
Proof.
  intros e email. unfold session_after. cbn [run].
  destruct (proj2 focus_always_wired e {| Dom.pathname := "/"; Dom.body := None |} email
              eq_refl eq_refl) as [_ ->].
  reflexivity.
Defined.

(** ** Property bags *)

Lemma obj_get_set_eq k v o : obj_get k (obj_set k v o) = Some v.
Proof.
  induction o as [|[k' v'] o IH]; simpl.
  - by rewrite String.eqb_refl.
  - destruct (String.eqb k k') eqn:Hk; simpl; [by rewrite String.eqb_refl|].
    by rewrite Hk.
Qed.

Lemma obj_get_set_ne k k' v o :
  String.eqb k k' = false -> obj_get k (obj_set k' v o) = obj_get k o.
Proof.
  intros Hne. induction o as [|[k'' v''] o IH]; simpl.
  - by rewrite Hne.
  - destruct (String.eqb k' k'') eqn:Hk; simpl.
    + apply String.eqb_eq in Hk as <-. by rewrite Hne.
    + by rewrite IH.
Qed.

Lemma has_key_set k k' v o :
  has_key k (obj_set k' v o) = String.eqb k k' || has_key k o.
Proof.
  unfold has_key. induction o as [|[k'' v''] o IH]; simpl.
  - done.
  - destruct (String.eqb k' k'') eqn:Hk; simpl.
    + apply String.eqb_eq in Hk as <-. by destruct (String.eqb k k').
    + rewrite IH. destruct (String.eqb k k'), (String.eqb k k''); done.
Qed.

(** ** Click classification *)

(** C6: the name sent for a click is decided in this order: a
    [button] tag gives [button_clicked]; otherwise an [a] tag gives
    [link_clicked] with [href] and [target] added to the descriptor;
    otherwise a [role] attribute equal to "button" gives
    [button_clicked]; otherwise [element_clicked]. The first two cases
    do not look at [role]. *)
Theorem click_classification pg s element tag p :
  registered Document "click" true s = true ->
  Dom.tagName element = Some tag ->
  getElementProps (config s) pg element = Ok p ->
  let lower := JsString.toLowerCase tag in
  let emitted name q :=
    dispatch pg (EClick element) s = (Ok tt, set_sink (sink s ++ [(name, q)]) s) in
  (lower = "button" -> emitted "button_clicked" p)
  /\ (lower = "a" ->
      emitted "link_clicked" (link_props element p)
      /\ obj_get "href" (link_props element p) = Some (PStr (Dom.href element))
      /\ obj_get "target" (link_props element p) = Some (PStr (Dom.target element)))
  /\ (lower <> "button" -> lower <> "a" -> Dom.role element = Some "button" ->
      emitted "button_clicked" p)
  /\ (lower <> "button" -> lower <> "a" -> Dom.role element <> Some "button" ->
      emitted "element_clicked" p).
Proof.
  intros Hreg Htag Hp lower emitted. subst emitted. cbn beta.
  assert (Hrun : dispatch pg (EClick element) s =
            if String.eqb lower "button" then track "button_clicked" p s
            else if String.eqb lower "a" then track "link_clicked" (link_props element p) s
            else if match Dom.role element with
                    | Some r => String.eqb r "button"
                    | None => false
                    end
                 then track "button_clicked" p s
                 else track "element_clicked" p s).
  { cbn [dispatch]. unfold on. rewrite Hreg. unfold click_listener, try_catch.
    unfold mbind, M_bind, gets, lift. rewrite Hp. unfold tagName_toLowerCase.
    rewrite Htag. fold lower.
    destruct (String.eqb lower "button"); [done|].
    destruct (String.eqb lower "a"); [done|].
    by destruct (match Dom.role element with Some _ => _ | None => _ end). }
  rewrite Hrun. split_and!.
  - intros ->. done.
  - intros ->. split_and!; [done| |apply obj_get_set_eq].
    unfold link_props. rewrite obj_get_set_ne by done. apply obj_get_set_eq.
  - intros H1 H2 ->. apply String.eqb_neq in H1, H2. by rewrite H1, H2.
  - intros H1 H2 Hrole. apply String.eqb_neq in H1, H2. rewrite H1, H2.
    destruct (Dom.role element) as [r|]; [|done].
    destruct (String.eqb r "button") eqn:Hr; [|done].
    apply String.eqb_eq in Hr. congruence.
Qed.

Lemma click_classification_witness :
  let pg := {| Dom.pathname := "/home"; Dom.body := None |} in
  let s := started Config.no_custom {| sink_ready := true; perf_timing := true; now := 0 |} in
  let anchor := Dom.mkNode 8 1 (Some "A") "docs" (Dom.ClassString "nav") EmptyString None
                  EmptyString EmptyString VUndefined (Some "button")
                  "https://example.org/docs" "_blank" None [] None in
  let p := [("elementType", PStr "a"); ("page", PStr "/home"); ("elementId", PStr "docs");
            ("elementClasses", PStr "nav");
            ("xpath", PStr (id_shortcut "docs"))] in
  dispatch pg (EClick anchor) s
  = (Ok tt, set_sink (sink s ++ [("link_clicked", link_props anchor p)]) s).
Proof.
  intros pg s anchor p.
  apply (click_classification pg s anchor "A" p); reflexivity.
Defined.

(** ** Structural path *)

Lemma scan_siblings_spec element tag siblings : forall ix,
  Dom.tagName element = Some tag ->
  tagged_are_elements siblings = true ->
  scan_siblings siblings element ix =
  if among siblings element then Some (ix + same_tag_before siblings element) else None.
Proof.
  intros ix Htag. revert ix.
  induction siblings as [|sib rest IH]; intros ix Hwf; [done|].
  apply andb_true_iff in Hwf as [Hsib Hrest].
  unfold same_tag_before. cbn [scan_siblings among existsb earlier_siblings].
  destruct (Dom.sib_ident sib =? Dom.ident element)%nat eqn:Hid.
  - simpl. by rewrite Nat.add_0_r.
  - cbn [orb List.filter]. fold (among rest element).
    rewrite Htag in *.
    destruct (same_tagName (Dom.sib_tagName sib) (Some tag)) eqn:Hsame.
    + assert ((Dom.sib_nodeType sib =? 1)%Z = true) as ->.
      { destruct (Dom.sib_tagName sib); [done|]. simpl in Hsame. done. }
      cbn [andb length]. rewrite (IH (S ix) Hrest). unfold same_tag_before.
      rewrite Htag. destruct (among rest element); [|done]. f_equal. lia.
    + rewrite andb_false_r. rewrite (IH ix Hrest). unfold same_tag_before.
      by rewrite Htag.
Qed.

Lemma getXPath_total pg : forall n,
  ancestors_tagged n = true -> exists path, getXPath pg n = Ok path.
Proof.
  fix IH 1. intros n Hn. destruct n as [i nt tg d cl tx ds nm ty vl rl hr tgt fm kids par].
  cbn [getXPath Dom.id Dom.parentNode Dom.childNodes].
  destruct (JsString.truthy d); [by eexists|].
  destruct (is_body pg _); [by eexists|].
  destruct par as [p|]; [|by eexists].
  cbn [ancestors_tagged Dom.parentNode Dom.tagName] in Hn.
  apply andb_true_iff in Hn as [Htag Hp].
  destruct (scan_siblings _ _ 0); [|by eexists].
  destruct (IH p Hp) as [parentPath ->].
  unfold tagName_toLowerCase. cbn [Dom.tagName mbind result_bind].
  destruct tg; [by eexists|done].
Qed.

Lemma truthy_empty s : JsString.truthy s = false <-> s = EmptyString.
Proof. by destruct s. Qed.

Lemma getXPath_eq pg element :
  getXPath pg element =
  if JsString.truthy (Dom.id element) then Ok (id_shortcut (Dom.id element))
  else if is_body pg element then Ok "/html/body"
  else match Dom.parentNode element with
       | None => Ok JsString.empty
       | Some parent =>
           match scan_siblings (Dom.childNodes parent) element 0 with
           | Some ix =>
               parentPath ← getXPath pg parent;
               tag ← tagName_toLowerCase element;
               Ok (path_step parentPath tag ix)
           | None => Ok JsString.empty
           end
       end.
Proof. by destruct element. Qed.

Lemma scan_siblings_shape a b siblings : forall ix,
  Dom.ident a = Dom.ident b -> Dom.tagName a = Dom.tagName b ->
  scan_siblings siblings a ix = scan_siblings siblings b ix.
Proof.
  intros ix Hi Ht. revert ix.
  induction siblings as [|sib rest IH]; intros ix; [done|].
  cbn [scan_siblings]. rewrite Hi, Ht.
  destruct (Dom.sib_ident sib =? Dom.ident b)%nat; [done|].
  by destruct (_ && _).
Qed.

(** The path reads the shape of the document and the identity of
    the body, nothing else. *)
Lemma getXPath_shape pg pg' :
  Dom.body pg' = Dom.body pg ->
  forall a b, shape a = shape b -> getXPath pg' a = getXPath pg b.
Proof.
  intros Hbody. fix IH 1. intros a b Hs.
  rewrite (getXPath_eq pg' a), (getXPath_eq pg b).
  destruct a as [i nt tg d cl tx ds nm ty vl rl hr tgt fm kids par].
  destruct b as [i' nt' tg' d' cl' tx' ds' nm' ty' vl' rl' hr' tgt' fm' kids' par'].
  cbn [shape Dom.ident Dom.nodeType Dom.tagName Dom.id Dom.childNodes Dom.parentNode] in *.
  injection Hs as <- <- <- <- <- Hpar.
  destruct (JsString.truthy d); [done|].
  unfold is_body. rewrite Hbody. cbn [Dom.ident].
  destruct (match Dom.body pg with Some b => (i =? b)%nat | None => false end); [done|].
  destruct par as [p|], par' as [p'|]; try done; try (by destruct p'); try (by destruct p).
  assert (Hkids : Dom.childNodes p = Dom.childNodes p').
  { destruct p, p'. cbn [shape] in Hpar. by injection Hpar. }
  rewrite Hkids, (IH p p' Hpar).
  rewrite (scan_siblings_shape
             (Dom.mkNode i nt tg d cl tx ds nm ty vl rl hr tgt fm kids (Some p))
             (Dom.mkNode i nt tg d cl' tx' ds' nm' ty' vl' rl' hr' tgt' fm' kids (Some p'))
             (Dom.childNodes p') 0 eq_refl eq_refl).
  done.
Qed.

(** C5: the path of an element with a non-empty id is
    [//*[@id="..."]] with that id between the quotes, wherever the
    element is; without id, the path of [document.body] is
    [/html/body]; without id and not the body, a node with no parent
    has the empty path; otherwise (an element found among the children
    of its parent) the path is the path of the parent followed by
    [/tagname[k]], [k] being one plus the number of earlier siblings
    with the same tag name, so a parent with an id contributes its
    [//*[@id="..."]] and the climb stops there. The path is a function
    of the shape of the document: on two pages with the same body,
    nodes whose ancestor chains agree in identity, kind, tag name, id
    and children have the same path, whatever their classes, text,
    values and other attributes are. *)
Theorem getXPath_cases pg element :
  let quoted := fun i => ("//*[@id=" ++ String "034" (i ++ String "034" "]"))%string in
  (Dom.id element <> EmptyString ->
   getXPath pg element = Ok (quoted (Dom.id element)))
  /\ (Dom.id element = EmptyString -> is_body pg element = true ->
      getXPath pg element = Ok "/html/body")
  /\ (Dom.id element = EmptyString -> is_body pg element = false ->
      Dom.parentNode element = None ->
      getXPath pg element = Ok EmptyString)
  /\ (forall parent tag,
        Dom.id element = EmptyString -> is_body pg element = false ->
        Dom.parentNode element = Some parent ->
        Dom.tagName element = Some tag ->
        among (Dom.childNodes parent) element = true ->
        tagged_are_elements (Dom.childNodes parent) = true ->
        ancestors_tagged parent = true ->
        let k := S (same_tag_before (Dom.childNodes parent) element) in
        let step := ("/" ++ JsString.toLowerCase tag ++ "[" ++ JsString.of_nat k ++ "]")%string in
        (exists parentPath,
            getXPath pg parent = Ok parentPath
            /\ getXPath pg element = Ok (parentPath ++ step)%string)
        /\ (Dom.id parent <> EmptyString ->
            getXPath pg element = Ok (quoted (Dom.id parent) ++ step)%string))
  /\ (forall pg' element',
        Dom.body pg' = Dom.body pg -> shape element' = shape element ->
        getXPath pg' element' = getXPath pg element).
Proof.
  intros quoted.
  assert (Hid : forall n, Dom.id n <> EmptyString ->
                          getXPath pg n = Ok (quoted (Dom.id n))).
  { intros n Hn. rewrite getXPath_eq. by destruct (Dom.id n). }
  split; [|split; [|split; [|split]]].
  - apply Hid.
  - intros Hd Hb. by rewrite getXPath_eq, Hd, Hb.
  - intros Hd Hb Hp. by rewrite getXPath_eq, Hd, Hb, Hp.
  - intros parent tag Hd Hb Hp Htag Hin Hwf Hanc k step.
    assert (Hpath : forall parentPath, getXPath pg parent = Ok parentPath ->
              getXPath pg element = Ok (parentPath ++ step)%string).
    { intros parentPath Hparent.
      rewrite getXPath_eq, Hd, Hb, Hp. cbn [JsString.truthy].
      rewrite (scan_siblings_spec _ tag) by done. rewrite Hin, Hparent.
      unfold tagName_toLowerCase. rewrite Htag. cbn [mbind result_bind].
      unfold path_step. subst step k. by rewrite Nat.add_0_l, Nat.add_1_r. }
    split.
    + destruct (getXPath_total pg parent Hanc) as [parentPath Hparent].
      exists parentPath. split; [done|]. by apply Hpath.
    + intros Hdp. apply Hpath. by apply Hid.
  - intros pg' element' Hbody Hshape. by apply getXPath_shape.
Qed.

Lemma getXPath_cases_witness :
  getXPath sample_page hero = Ok ("//*[@id=" ++ String "034" ("hero" ++ String "034" "]"))%string
  /\ getXPath sample_page hero_span
     = Ok ("//*[@id=" ++ String "034" ("hero" ++ String "034" "]/span[1]"))%string
  /\ getXPath sample_page sample_div = Ok "/html/body/div[2]"
  /\ getXPath {| Dom.pathname := "/other"; Dom.body := Some 3 |}
               (with_value (VStr "typed") (with_className "card open" sample_div))
     = Ok "/html/body/div[2]".
Proof.
  pose proof (getXPath_cases sample_page hero) as (Hid & _).
  pose proof (getXPath_cases sample_page hero_span) as (_ & _ & _ & Hspan & _).
  pose proof (getXPath_cases sample_page sample_div) as (_ & _ & _ & Hdiv & Hshape).
  destruct (Hspan hero "SPAN" eq_refl eq_refl eq_refl eq_refl eq_refl eq_refl eq_refl)
    as [_ Hspan'].
  destruct (Hdiv sample_body "DIV" eq_refl eq_refl eq_refl eq_refl eq_refl eq_refl eq_refl)
    as [(parentPath & Hparent & Hpath) _].
  assert (Hd : getXPath sample_page sample_div = Ok "/html/body/div[2]").
  { rewrite Hpath. injection Hparent as <-. reflexivity. }
  split_and!.
  - by apply Hid.
  - by apply Hspan'.
  - exact Hd.
  - rewrite <- Hd. by apply Hshape.
Defined.

(** ** Descriptor keys *)

Lemma has_key_set_if k c k' v p :
  String.eqb k k' = false -> has_key k (set_if c k' v p) = has_key k p.
Proof. intros Hne. unfold set_if. destruct c; [|done]. by rewrite has_key_set, Hne. Qed.

Lemma obj_get_set_if_ne k c k' v p :
  String.eqb k k' = false -> obj_get k (set_if c k' v p) = obj_get k p.
Proof. intros Hne. unfold set_if. destruct c; [|done]. by apply obj_get_set_ne. Qed.

Lemma has_key_copy_dataset k ds : forall p,
  (forall key, String.eqb k ("data_" ++ key) = false) ->
  has_key k (copy_dataset ds p) = has_key k p.
Proof.
  intros p Hk. unfold copy_dataset. generalize (map fst ds) as keys. intros keys.
  revert p. induction keys as [|key keys IH]; intros p; [done|].
  simpl. by rewrite IH, has_key_set, Hk.
Qed.

Lemma obj_get_copy_dataset k ds : forall p,
  (forall key, String.eqb k ("data_" ++ key) = false) ->
  obj_get k (copy_dataset ds p) = obj_get k p.
Proof.
  intros p Hk. unfold copy_dataset. generalize (map fst ds) as keys. intros keys.
  revert p. induction keys as [|key keys IH]; intros p; [done|].
  simpl. by rewrite IH, obj_get_set_ne.
Qed.

Lemma getElementProps_eq cfg pg element :
  getElementProps cfg pg element =
  elementType ← tagName_toLowerCase element;
  p ← (if JsVal.truthy (Dom.value element)
          && negb (String.eqb (Dom.type element) "password")
       then v ← JsVal.String (Dom.value element);
            Ok (obj_set "elementValue" (PStr (JsString.substring0 50 v))
                        (props_before_value cfg pg element elementType))
       else Ok (props_before_value cfg pg element elementType));
  xpath ← getXPath pg element;
  Ok (obj_set "xpath" (PStr xpath) p).
Proof. reflexivity. Qed.

Lemma has_key_before_value cfg pg element elementType :
  has_key "elementValue" (props_before_value cfg pg element elementType) = false.
Proof.
  unfold props_before_value.
  rewrite !has_key_set_if by done.
  destruct (Dom.dataset element) as [ds|];
    [destruct (Config.captureAttributes cfg);
     [rewrite has_key_copy_dataset by done|]|];
    (destruct (find_gaId 5 (Some element)); [rewrite has_key_set; cbn [orb String.eqb]|]);
    rewrite ?has_key_set_if by done;
    (destruct (Dom.className element); rewrite ?has_key_set_if by done);
    rewrite ?has_key_set_if by done; reflexivity.
Qed.

Lemma obj_get_classes_before_value cfg pg element elementType :
  obj_get "elementClasses" (props_before_value cfg pg element elementType) =
  match Dom.className element with
  | Dom.ClassString c =>
      if JsString.truthy c then Some (PStr (normalize_classes c)) else None
  | _ => None
  end.
Proof.
  unfold props_before_value.
  rewrite !obj_get_set_if_ne by done.
  assert (Hds : forall p, obj_get "elementClasses"
             match Dom.dataset element with
             | Some ds => if Config.captureAttributes cfg then copy_dataset ds p else p
             | None => p
             end = obj_get "elementClasses" p).
  { intros p. destruct (Dom.dataset element); [|done].
    destruct (Config.captureAttributes cfg); [|done].
    by apply obj_get_copy_dataset. }
  rewrite Hds.
  assert (Hga : forall p, obj_get "elementClasses"
             match find_gaId 5 (Some element) with
             | Some g => obj_set "gaId" (PStr g) p
             | None => p
             end = obj_get "elementClasses" p).
  { intros p. destruct (find_gaId 5 (Some element)); [|done]. by apply obj_get_set_ne. }
  rewrite Hga, obj_get_set_if_ne by done.
  destruct (Dom.className element) as [|c|]; rewrite ?obj_get_set_if_ne by done;
    try (by destruct (JsString.truthy (Dom.id element))).
  unfold set_if at 1. destruct (JsString.truthy c).
  - apply obj_get_set_eq.
  - by destruct (JsString.truthy (Dom.id element)).
Qed.

(** ** Form fields *)

Lemma nth_error_lookup {A} (l : list A) i : nth_error l i = l !! i.
Proof. revert i. induction l as [|x l IH]; intros [|i]; simpl; try done. Qed.

Lemma fields_loop_spec elements : forall fuel i fields,
  fuel = length elements - i -> i <= length elements ->
  fields_loop fuel i elements fields =
  fields ++ map entry_of (List.filter reported (drop i elements)).
Proof.
  induction fuel as [|fuel IH]; intros i fields Hfuel Hi.
  - rewrite drop_ge by lia. simpl. by rewrite app_nil_r.
  - cbn [fields_loop].
    assert (Hlt : i < length elements) by lia.
    rewrite (proj2 (Nat.ltb_lt _ _) Hlt), nth_error_lookup.
    destruct (lookup_lt_is_Some_2 elements i Hlt) as [field Hfield].
    rewrite Hfield, (drop_S _ _ _ Hfield). cbn [List.filter].
    fold (reported field). destruct (reported field).
    + rewrite IH by lia. cbn [map]. by rewrite <- app_assoc.
    + apply IH; lia.
Qed.

Lemma collect_fields_spec elements :
  collect_fields elements = map entry_of (List.filter reported elements).
Proof.
  unfold collect_fields. rewrite (fields_loop_spec elements _ 0 []) by lia. done.
Qed.

Lemma scan_siblings_with_value v element siblings : forall ix,
  scan_siblings siblings (with_value v element) ix = scan_siblings siblings element ix.
Proof.
  induction siblings as [|sib rest IH]; intros ix; [done|].
  cbn [scan_siblings]. change (Dom.ident (with_value v element)) with (Dom.ident element).
  change (Dom.tagName (with_value v element)) with (Dom.tagName element).
  by rewrite !IH.
Qed.

Lemma getXPath_with_value pg v element :
  getXPath pg (with_value v element) = getXPath pg element.
Proof.
  rewrite (getXPath_eq pg (with_value v element)), (getXPath_eq pg element).
  change (Dom.id (with_value v element)) with (Dom.id element).
  change (is_body pg (with_value v element)) with (is_body pg element).
  change (Dom.parentNode (with_value v element)) with (Dom.parentNode element).
  destruct (JsString.truthy _); [done|]. destruct (is_body _ _); [done|].
  destruct (Dom.parentNode element); [|done].
  by rewrite scan_siblings_with_value.
Qed.

(** C2: the descriptor of a password field has no [elementValue]
    key, and does not depend on the value of the field at all; a
    submitted form sends [form_submitted] whose [fields] list holds,
    in order, one [{name, type}] entry for each named field whose type
    is not "password", no entry of type "password", and nothing that
    depends on the value of any field. *)
Theorem password_never_captured :
  (forall cfg pg element,
      Dom.type element = "password" ->
      (forall p, getElementProps cfg pg element = Ok p ->
                 has_key "elementValue" p = false)
      /\ (forall v, getElementProps cfg pg (with_value v element)
                    = getElementProps cfg pg element))
  /\ (forall form elements s,
        f_elements form = Some elements ->
        submit_listener form s
        = (Ok tt, set_sink (sink s ++ [("form_submitted", form_props form elements)]) s)
        /\ obj_get "fields" (form_props form elements)
           = Some (PFields (map entry_of (List.filter reported elements))))
  /\ (forall elements entry,
        entry ∈ map entry_of (List.filter reported elements) ->
        fe_type entry <> "password" /\ fe_name entry <> EmptyString)
  /\ (forall form elements elements',
        map entry_of elements = map entry_of elements' ->
        form_props form elements = form_props form elements').
Proof.
  split; [|split; [|split]].
  - intros cfg pg element Hty. split.
    + intros p. rewrite getElementProps_eq, Hty.
      destruct (tagName_toLowerCase element) as [elementType|]; [|done].
      cbn [mbind result_bind String.eqb Ascii.eqb Bool.eqb negb].
      rewrite andb_false_r.
      destruct (getXPath pg element) as [xpath|]; [|done].
      intros [= <-]. rewrite has_key_set. cbn [String.eqb Ascii.eqb Bool.eqb orb].
      apply has_key_before_value.
    + intros v. rewrite !getElementProps_eq, getXPath_with_value.
      destruct element as [i nt tg d cl tx ds nm ty vl rl hr tgt fm kids par].
      cbn [Dom.type Dom.value with_value] in *. subst ty.
      cbn [String.eqb Ascii.eqb Bool.eqb negb]. by rewrite !andb_false_r.
  - intros form elements s Hel. split.
    + unfold submit_listener. rewrite Hel. reflexivity.
    + unfold form_props. cbn. by rewrite collect_fields_spec.
  - intros elements entry Hin. apply list_elem_of_fmap in Hin as (field & -> & Hin).
    apply list_elem_of_In, List.filter_In in Hin as [_ Hrep].
    apply andb_true_iff in Hrep as [Hname Hty]. simpl. split.
    + apply negb_true_iff, String.eqb_neq in Hty. done.
    + intros Hn. by rewrite Hn in Hname.
  - intros form elements elements' Hsame. unfold form_props.
    rewrite !collect_fields_spec.
    assert (Hlen : length elements = length elements').
    { by rewrite <- (length_map entry_of elements), Hsame, length_map. }
    assert (Hfil : map entry_of (List.filter reported elements)
                   = map entry_of (List.filter reported elements')).
    { clear Hlen. revert elements' Hsame.
      induction elements as [|f fs IH]; intros [|f' fs'] Hsame; try done.
      cbn [map] in Hsame.
      assert (Hf : entry_of f = entry_of f') by congruence.
      assert (Hfs : map entry_of fs = map entry_of fs') by congruence.
      cbn [List.filter].
      assert (reported f = reported f') as ->.
      { unfold reported.
        by rewrite (f_equal fe_name Hf : field_name f = field_name f'),
                   (f_equal fe_type Hf : field_type f = field_type f'). }
      destruct (reported f'); cbn [map]; [rewrite Hf; f_equal|]; by apply IH. }
    by rewrite Hlen, Hfil.
Qed.

Lemma password_never_captured_witness :
  let secret := Dom.mkNode 9 1 (Some "INPUT") "pw" (Dom.ClassString "field") EmptyString
                  (Some [("kind", "secret")]) "password" "password" (VStr "hunter2")
                  None EmptyString EmptyString (Some "login") [] None in
  let p := [("elementType", PStr "input"); ("page", PStr "/home"); ("elementId", PStr "pw");
            ("elementClasses", PStr "field"); ("data_kind", PStr "secret");
            ("elementName", PStr "password"); ("inputType", PStr "password");
            ("xpath", PStr (id_shortcut "pw"))] in
  getElementProps Config.default_config sample_page secret = Ok p
  /\ has_key "elementValue" p = false.
Proof.
  intros secret p.
  assert (Hp : getElementProps Config.default_config sample_page secret = Ok p)
    by reflexivity.
  split; [exact Hp|].
  exact (proj1 (proj1 password_never_captured Config.default_config sample_page secret
                  eq_refl) p Hp).
Defined.

(** ** Class names *)

Lemma split_space_free sep s : sep = JsString.space ->
  Forall (fun w => space_free w = true) (JsString.split sep s)
  /\ JsString.split sep s <> [].
Proof.
  intros ->. induction s as [|c s [IH Hne]]; [by split; [repeat constructor|]|].
  cbn [JsString.split]. destruct (Ascii.eqb c JsString.space) eqn:Hc.
  - split; [by constructor|done].
  - destruct (JsString.split JsString.space s) as [|w ws]; [done|].
    apply Forall_cons in IH as [Hw Hws]. split; [|done].
    constructor; [|done]. simpl. by rewrite Hc, Hw.
Qed.

Lemma append_cons c (a b : string) : (String c a ++ b = String c (a ++ b))%string.
Proof. reflexivity. Qed.

Lemma append_empty_r (a : string) : (a ++ EmptyString)%string = a.
Proof. induction a as [|c a IH]; [done|]. by rewrite append_cons, IH. Qed.

Lemma split_word_space w r :
  space_free w = true ->
  JsString.split JsString.space (w ++ String JsString.space r)
  = w :: JsString.split JsString.space r.
Proof.
  induction w as [|c w IH]; intros Hw; [done|].
  cbn [space_free] in Hw. apply andb_true_iff in Hw as [Hc Hw]. apply negb_true_iff in Hc.
  rewrite append_cons. cbn [JsString.split]. by rewrite Hc, (IH Hw).
Qed.

Lemma split_word w :
  space_free w = true -> JsString.split JsString.space w = [w].
Proof.
  induction w as [|c w IH]; intros Hw; [done|].
  cbn [space_free] in Hw. apply andb_true_iff in Hw as [Hc Hw]. apply negb_true_iff in Hc.
  cbn [JsString.split]. by rewrite Hc, (IH Hw).
Qed.

Lemma join_cons w w' ws :
  JsString.join " " (w :: w' :: ws)
  = (w ++ String JsString.space (JsString.join " " (w' :: ws)))%string.
Proof. reflexivity. Qed.

Lemma split_join pieces :
  pieces <> [] -> Forall (fun w => space_free w = true) pieces ->
  JsString.split JsString.space (JsString.join " " pieces) = pieces.
Proof.
  induction pieces as [|w ws IH]; intros Hne Hall; [done|].
  apply Forall_cons in Hall as [Hw Hws].
  destruct ws as [|w' ws]; [by apply split_word|].
  rewrite join_cons, (split_word_space _ _ Hw). f_equal. by apply IH.
Qed.

Lemma remove_spaces_app a b :
  remove_spaces (a ++ b) = (remove_spaces a ++ remove_spaces b)%string.
Proof.
  induction a as [|c a IH]; [done|]. rewrite append_cons. cbn [remove_spaces].
  destruct (Ascii.eqb c JsString.space); [done|]. by rewrite append_cons, IH.
Qed.

Lemma remove_spaces_join pieces :
  remove_spaces (JsString.join " " pieces) = flat (map remove_spaces pieces).
Proof.
  induction pieces as [|w ws IH]; [done|].
  destruct ws as [|w' ws].
  - cbn [map flat]. by rewrite append_empty_r.
  - rewrite join_cons, remove_spaces_app. cbn [map flat remove_spaces].
    change (Ascii.eqb JsString.space JsString.space) with true. cbn iota.
    by rewrite IH.
Qed.

Lemma flat_filter_truthy pieces :
  flat (map remove_spaces (List.filter JsString.truthy pieces))
  = flat (map remove_spaces pieces).
Proof.
  induction pieces as [|w ws IH]; [done|]. cbn [List.filter].
  destruct w; cbn [JsString.truthy map flat]; by rewrite IH.
Qed.

Lemma flat_split s :
  flat (map remove_spaces (JsString.split JsString.space s)) = remove_spaces s.
Proof.
  induction s as [|c s IH]; [done|]. cbn [JsString.split remove_spaces].
  destruct (Ascii.eqb c JsString.space) eqn:Hc; [done|].
  destruct (JsString.split JsString.space s) as [|w ws].
  - cbn [map flat remove_spaces] in *. by rewrite Hc, <- IH.
  - cbn [map flat remove_spaces] in *. by rewrite Hc, append_cons, IH.
Qed.

(** C8, as the code has it: for a string [className] the descriptor
    holds [elementClasses] exactly when [className] is not the empty
    string, and its value is [className] split at space characters
    only, the empty pieces dropped and the others joined by one space:
    every character that is not a space, a tab or a line break
    included, is kept in place, and splitting the value at spaces
    again gives back the non-empty pieces (the value is the empty
    string when there is none). *)
Theorem elementClasses_split_on_spaces cfg pg element p :
  getElementProps cfg pg element = Ok p ->
  obj_get "elementClasses" p
  = match Dom.className element with
    | Dom.ClassString c =>
        if JsString.truthy c then Some (PStr (normalize_classes c)) else None
    | _ => None
    end
  /\ (forall c,
       let pieces := List.filter JsString.truthy (JsString.split JsString.space c) in
       remove_spaces (normalize_classes c) = remove_spaces c
       /\ (pieces <> [] -> JsString.split JsString.space (normalize_classes c) = pieces)
       /\ (pieces = [] -> normalize_classes c = EmptyString)).
Proof.
  intros Hp. split.
  - rewrite getElementProps_eq in Hp.
    destruct (tagName_toLowerCase element) as [elementType|]; [|done].
    cbn [mbind result_bind] in Hp.
    destruct (JsVal.truthy (Dom.value element)
              && negb (String.eqb (Dom.type element) "password")).
    + destruct (JsVal.String (Dom.value element)) as [v|]; [|done].
      cbn [mbind result_bind] in Hp.
      destruct (getXPath pg element) as [xpath|]; [|done].
      injection Hp as <-. rewrite !obj_get_set_ne by done.
      apply obj_get_classes_before_value.
    + destruct (getXPath pg element) as [xpath|]; [|done].
      injection Hp as <-. rewrite !obj_get_set_ne by done.
      apply obj_get_classes_before_value.
  - intros c pieces. unfold normalize_classes. fold pieces. split_and!.
    + subst pieces. by rewrite remove_spaces_join, flat_filter_truthy, flat_split.
    + intros Hne. apply split_join; [done|]. subst pieces.
      destruct (split_space_free JsString.space c eq_refl) as [Hall _].
      apply Forall_forall. intros w Hw. apply list_elem_of_In, List.filter_In in Hw as [Hw _].
      by apply (proj1 (Forall_forall _ _) Hall), list_elem_of_In.
    + by intros ->.
Qed.

Lemma elementClasses_split_on_spaces_witness :
  let p := [("elementType", PStr "button"); ("page", PStr "/home");
            ("elementClasses", PStr ("btn" ++ String JsString.tab "primary"));
            ("xpath", PStr "/html/body/div[2]/button[1]")] in
  getElementProps Config.default_config sample_page tabbed_button = Ok p
  /\ obj_get "elementClasses" p = Some (PStr ("btn" ++ String JsString.tab "primary")).
Proof.
  intros p.
  assert (Hp : getElementProps Config.default_config sample_page tabbed_button = Ok p)
    by reflexivity.
  split; [exact Hp|].
  exact (proj1 (elementClasses_split_on_spaces Config.default_config sample_page
                  tabbed_button p Hp)).
Defined.

(** C8, as the claim words it, fails on a class list separated by a
    tab, which the descriptor keeps as it is, and on a class list made
    of one space, for which the descriptor holds the empty string. *)
Lemma elementClasses_counterexample :
  ~ classes_as_claimed Config.default_config sample_page tabbed_button
  /\ ~ classes_as_claimed Config.default_config sample_page blank_button.
Proof.
  split; intros Hclaim.
  - specialize (Hclaim _ _ eq_refl eq_refl). vm_compute in Hclaim. discriminate.
  - specialize (Hclaim _ _ eq_refl eq_refl). vm_compute in Hclaim. discriminate.
Qed.

(** ** Fault boundaries *)

Lemma click_listener_never_throws pg target s : fst (click_listener pg target s) = Ok tt.
Proof.
  unfold click_listener, try_catch. unfold_m.
  destruct (getElementProps (config s) pg target) as [p|err]; [|done].
  destruct (tagName_toLowerCase target) as [tag|err]; [|done].
  destruct (String.eqb tag "button"); [done|].
  destruct (String.eqb tag "a"); [done|].
  by destruct (match Dom.role target with Some _ => _ | None => _ end).
Qed.

(** C1: the click listener is a fault boundary, nothing thrown
    while it handles an event leaves it. The other listeners are not:
    on a page with every tracker wired, a rejection whose reason has
    no string conversion makes the [unhandledrejection] listener throw
    the TypeError of [String(e.reason)] to the page before anything is
    sent, and an error whose [stack] is not a string does the same to
    the [error] listener. *)
Theorem listener_exception_escapes :
  let s := started Config.no_custom ready_env in
  (forall pg target s', fst (dispatch pg (EClick target) s') = Ok tt)
  /\ dispatch sample_page (EUnhandledRejection bare_reason) s
     = (Throw (TypeError "Cannot convert object to primitive value"), s)
  /\ dispatch sample_page (EError odd_error) s
     = (Throw (TypeError "e.error?.stack?.substring is not a function"), s)
  /\ uncaught sample_page [EUnhandledRejection bare_reason; EError odd_error] s
     = [TypeError "Cannot convert object to primitive value";
        TypeError "e.error?.stack?.substring is not a function"]
  /\ sink (session_after sample_page [EUnhandledRejection bare_reason; EError odd_error] s)
     = [].
Proof.
  intros s. split; [|by vm_compute].
  intros pg target s'. cbn [dispatch]. unfold on.
  destruct (registered _ _ _ _); [|done]. apply click_listener_never_throws.
Qed.

(** ** Binary64 checks *)

(** A zero divisor gives NaN or an infinity, and a finite quotient
    is rounded as binary64 rounds it: 57/200*100 is just below 28.5. *)
Example primitive_zero_over_zero : JsNum.round_percent 0 0 = JNaN.
Proof. vm_compute. reflexivity. Qed.

Example primitive_positive_over_zero : JsNum.round_percent 5 0 = JInf false.
Proof. vm_compute. reflexivity. Qed.

Example round_percent_binary64 :
  JsNum.round_percent 57 200 = JInt 28 /\ JsNum.round_percent 600 1000 = JInt 60
  /\ JsNum.round_percent 1 200 = JInt 1 /\ JsNum.round_percent 999 1000 = JInt 100.
Proof. vm_compute. repeat split. Qed.

(** ** What reaches the sink *)

Lemma emits_refl names s : emits names s s.
Proof. exists []. by rewrite app_nil_r. Qed.

Lemma emits_same names s s' : sink s' = sink s -> emits names s s'.
Proof. intros H. exists []. by rewrite app_nil_r. Qed.

Lemma emits_track names name p s s0 :
  sink s0 = sink s -> name ∈ names ->
  emits names s (set_sink (sink s0 ++ [(name, p)]) s0).
Proof.
  intros Hs Hn. exists [(name, p)]. simpl. rewrite Hs. split; [done|].
  by repeat constructor.
Qed.

Lemma emits_weaken names names' s s' :
  names ⊆ names' -> emits names s s' -> emits names' s s'.
Proof.
  intros Hsub (new & Hs & Hall). exists new. split; [done|].
  eapply Forall_impl; [done|]. intros e He. by apply Hsub.
Qed.

Ltac name_in := repeat (apply elem_of_cons; first [ by left | right ]).

Lemma click_listener_emits pg t s :
  emits ["button_clicked"; "link_clicked"; "element_clicked"] s
        (exec (click_listener pg t) s).
Proof.
  unfold click_listener, try_catch. unfold_m.
  destruct (getElementProps (config s) pg t) as [p|err]; cbn [snd];
    [|by apply emits_same].
  destruct (tagName_toLowerCase t) as [tag|err]; cbn [snd]; [|by apply emits_same].
  destruct (String.eqb tag "button"); [apply emits_track; [done|name_in]|].
  destruct (String.eqb tag "a"); [apply emits_track; [done|name_in]|].
  destruct (match Dom.role t with Some r => String.eqb r "button" | None => false end);
    apply emits_track; try done; name_in.
Qed.

Lemma submit_listener_emits t s : emits ["form_submitted"] s (exec (submit_listener t) s).
Proof.
  unfold submit_listener. unfold_m.
  destruct (f_elements t); cbn [snd]; [|apply emits_refl].
  apply emits_track; [done|name_in].
Qed.

Lemma scroll_depth_update_emits pct s :
  emits ["scroll_depth"] s (exec (scroll_depth_update pct) s).
Proof.
  unfold scroll_depth_update. unfold_m.
  destruct (JsNum.gt pct (maxScroll s)); [|apply emits_refl].
  destruct (forEach_track_milestone pct milestones NoDup_milestones (set_maxScroll pct s))
    as (s' & Hrun & Hsink & _).
  rewrite Hrun. cbn [snd]. eexists. split; [exact Hsink|].
  apply Forall_forall. intros e He. apply list_elem_of_fmap in He as (m & -> & _).
  name_in.
Qed.

Lemma scroll_timeout_emits v s : emits ["scroll_depth"] s (exec (scroll_timeout v) s).
Proof.
  rewrite scroll_timeout_exec. destruct (scrollTimer s); [|apply emits_refl].
  destruct (scroll_depth_update_emits (scroll_percent v) (set_scrollTimer None s))
    as (new & Hs & Hall).
  by exists new.
Qed.

Lemma error_listener_emits e s : emits ["javascript_error"] s (exec (error_listener e) s).
Proof.
  unfold error_listener. unfold_m.
  destruct (stack_of (error e)); cbn [snd]; [|apply emits_refl].
  apply emits_track; [done|name_in].
Qed.

Lemma unhandledrejection_listener_emits r s :
  emits ["promise_rejection"] s (exec (unhandledrejection_listener r) s).
Proof.
  unfold unhandledrejection_listener. unfold_m.
  destruct (JsVal.String r); cbn [snd]; [|apply emits_refl].
  apply emits_track; [done|name_in].
Qed.

Lemma visibilitychange_listener_emits h d s :
  emits ["page_hidden"; "page_visible"] s (exec (visibilitychange_listener h d) s).
Proof.
  unfold visibilitychange_listener. destruct h; unfold_m; cbn [snd];
    apply emits_track; try done; name_in.
Qed.

Lemma focus_listener_emits t s :
  emits ["form_field_focused"] s (exec (focus_listener t) s).
Proof.
  unfold focus_listener.
  destruct (is_form_control (Dom.tagName t)); unfold_m; [|apply emits_refl].
  destruct (negb _); cbn [snd]; [|apply emits_refl].
  apply emits_track; [done|name_in].
Qed.

Lemma load_timeout_emits t s : emits ["page_performance"] s (exec (load_timeout t) s).
Proof. unfold load_timeout. unfold_m. apply emits_track; [done|name_in]. Qed.

Lemma registered_listed t type capture s :
  registered t type capture s = true ->
  {| reg_target := t; reg_type := type; reg_capture := capture |} ∈ listeners s.
Proof.
  unfold registered. intros H. apply existsb_exists in H as (r & Hin & Heq).
  apply list_elem_of_In in Hin.
  assert ({| reg_target := t; reg_type := type; reg_capture := capture |} = r) as ->; [|done].
  destruct r as [t' type' capture']. unfold registration_eqb in Heq. simpl in Heq.
  apply andb_true_iff in Heq as [Heq Hc]. apply andb_true_iff in Heq as [Ht Hty].
  apply String.eqb_eq in Hty as ->. apply Bool.eqb_prop in Hc as ->.
  by destruct t, t'.
Qed.

(** One event: the sink grows by events of the listener the event is
    delivered to, and only when that listener is attached. *)
Lemma dispatch_emits pg ev s :
  emits (event_names ev) s (exec (dispatch pg ev) s)
  /\ (sink (exec (dispatch pg ev) s) <> sink s ->
      exists r, listener_of ev = Some r /\ r ∈ listeners s).
Proof.
  assert (Hon : forall t type capture body names,
             emits names s (exec body s) ->
             emits names s (exec (on t type capture body) s)
             /\ (sink (exec (on t type capture body) s) <> sink s ->
                 {| reg_target := t; reg_type := type; reg_capture := capture |}
                   ∈ listeners s)).
  { intros t type capture body names Hb. rewrite on_exec.
    destruct (registered t type capture s) eqn:Hreg.
    - split; [done|]. intros _. by apply registered_listed.
    - split; [apply emits_refl|done]. }
  destruct ev; cbn [dispatch event_names listener_of].
  - destruct (Hon Document "click" true (click_listener pg target) _
                (click_listener_emits pg target s)) as [H1 H2].
    split; [done|]. intros H. eexists. split; [done|]. by apply H2.
  - destruct (Hon Document "submit" true (submit_listener target) _
                (submit_listener_emits target s)) as [H1 H2].
    split; [done|]. intros H. eexists. split; [done|]. by apply H2.
  - destruct (Hon Window "scroll" false scroll_listener ["scroll_depth"]) as [H1 H2].
    { apply emits_same. unfold scroll_listener. by unfold_m. }
    split; [done|]. intros H. eexists. split; [done|]. by apply H2.
  - destruct (Hon Window "scroll" false (scroll_timeout v) _ (scroll_timeout_emits v s))
      as [H1 H2].
    split; [done|]. intros H. eexists. split; [done|]. by apply H2.
  - destruct (Hon Window "error" false (error_listener e) _ (error_listener_emits e s))
      as [H1 H2].
    split; [done|]. intros H. eexists. split; [done|]. by apply H2.
  - destruct (Hon Window "unhandledrejection" false (unhandledrejection_listener reason) _
                (unhandledrejection_listener_emits reason s)) as [H1 H2].
    split; [done|]. intros H. eexists. split; [done|]. by apply H2.
  - destruct (Hon Document "visibilitychange" false
                (visibilitychange_listener hidden date_now) _
                (visibilitychange_listener_emits hidden date_now s)) as [H1 H2].
    split; [done|]. intros H. eexists. split; [done|]. by apply H2.
  - destruct (Hon Document "focus" true (focus_listener target) _
                (focus_listener_emits target s)) as [H1 H2].
    split; [done|]. intros H. eexists. split; [done|]. by apply H2.
  - destruct (Hon Window "load" false (load_timeout t) _ (load_timeout_emits t s))
      as [H1 H2].
    split; [done|]. intros H. eexists. split; [done|]. by apply H2.
  - assert (Hs : sink (exec (checkInterval_tick e) s) = sink s).
    { unfold exec. rewrite checkInterval_tick_spec. cbn [snd].
      destruct (checkInterval s); [|done]. destruct (sink_ready e); [done|].
      by destruct (maxAttempts <=? S n)%nat. }
    split; [by apply emits_same|]. intros H. by destruct H.
Qed.

Lemma session_after_emits pg evs : forall s,
  exists new,
    sink (session_after pg evs s) = sink s ++ new
    /\ Forall (fun e => exists ev, ev ∈ evs /\ fst e ∈ event_names ev) new.
Proof.
  induction evs as [|ev evs IH]; intros s.
  - exists []. by rewrite app_nil_r.
  - rewrite session_after_cons.
    destruct (dispatch_emits pg ev s) as [(new1 & Hs1 & Hall1) _].
    destruct (IH (exec (dispatch pg ev) s)) as (new2 & Hs2 & Hall2).
    exists (new1 ++ new2). split; [by rewrite Hs2, Hs1, app_assoc|].
    apply Forall_app. split.
    + eapply Forall_impl; [done|]. intros e He. exists ev. split; [|done].
      apply elem_of_cons. by left.
    + eapply Forall_impl; [done|]. intros e (ev' & Hin & He). exists ev'.
      split; [|done]. apply elem_of_cons. by right.
Qed.

(** X1: what was handed to the sink stays: later events of the page
    only append to it, and what they append carries names of the
    listeners those events are delivered to. *)
Theorem sink_append_only pg evs1 evs2 s :
  exists new,
    sink (session_after pg (evs1 ++ evs2) s) = sink (session_after pg evs1 s) ++ new
    /\ Forall (fun e => exists ev, ev ∈ evs2 /\ fst e ∈ event_names ev) new.
Proof. rewrite session_after_app. apply session_after_emits. Qed.

Lemma wired_enabled cfg e r name :
  r ∈ wired cfg e -> name ∈ names_of r ->
  enabled cfg name = true /\ (name = "page_performance" -> perf_timing e = true).
Proof.
  unfold wired. rewrite !elem_of_app. intros Hr Hn.
  assert (Hpick : forall (c : bool) (l : list registration),
             r ∈ (if c then l else []) -> c = true /\ r ∈ l).
  { intros [] l H; [done|]. by apply elem_of_nil in H. }
  destruct Hr as [Hr|[Hr|[Hr|[Hr|[Hr|[Hr|Hr]]]]]].
  - apply Hpick in Hr as [Hc Hr]. apply andb_true_iff in Hc as [Hc Hp].
    apply list_elem_of_singleton in Hr as ->. cbn in Hn.
    apply list_elem_of_singleton in Hn as ->. unfold enabled. simpl. by rewrite Hc.
  - apply Hpick in Hr as [Hc Hr]. apply list_elem_of_singleton in Hr as ->. cbn in Hn.
    rewrite !elem_of_cons, elem_of_nil in Hn.
    destruct Hn as [->|[->|[->|[]]]]; unfold enabled; simpl; by rewrite Hc.
  - apply Hpick in Hr as [Hc Hr]. apply list_elem_of_singleton in Hr as ->. cbn in Hn.
    apply list_elem_of_singleton in Hn as ->. unfold enabled. simpl. by rewrite Hc.
  - apply Hpick in Hr as [Hc Hr]. apply list_elem_of_singleton in Hr as ->. cbn in Hn.
    apply list_elem_of_singleton in Hn as ->. unfold enabled. simpl. by rewrite Hc.
  - apply Hpick in Hr as [Hc Hr]. rewrite !elem_of_cons, elem_of_nil in Hr.
    destruct Hr as [->|[->|[]]]; cbn in Hn; apply list_elem_of_singleton in Hn as ->;
      unfold enabled; simpl; by rewrite Hc.
  - apply Hpick in Hr as [Hc Hr]. apply list_elem_of_singleton in Hr as ->. cbn in Hn.
    rewrite !elem_of_cons, elem_of_nil in Hn.
    destruct Hn as [->|[->|[]]]; unfold enabled; simpl; by rewrite Hc.
  - apply list_elem_of_singleton in Hr as ->. cbn in Hn.
    apply list_elem_of_singleton in Hn as ->. done.
Qed.

Lemma dispatch_wiring cfg pg ev s :
  wiring_inv cfg s -> wiring_inv cfg (exec (dispatch pg ev) s).
Proof.
  intros Hinv. pose proof Hinv as [Hcfg Hl Hsink].
  destruct (tick_of ev) as [b|] eqn:Htick.
  - destruct ev; try done. cbn [dispatch]. unfold exec.
    rewrite checkInterval_tick_spec. cbn [snd].
    destruct (checkInterval s) as [a|] eqn:Hci; [|done].
    destruct Hl as [Hl|[Hnone _]]; [|congruence].
    assert (Hempty : forall ev, ev ∈ sink s -> False).
    { intros ev Hev. destruct (Hsink ev Hev) as (r & Hr & _).
      rewrite Hl in Hr. by apply elem_of_nil in Hr. }
    destruct (sink_ready e).
    + split; [done| |].
      * right. split; [done|]. exists e. simpl. by rewrite Hl, Hcfg.
      * intros ev Hev. by destruct (Hempty ev).
    + destruct (maxAttempts <=? S a)%nat; split; try done; try (by left);
        intros ev Hev; by destruct (Hempty ev).
  - assert (Hev : forall e, ev <> EInterval e) by (intros e ->; done).
    destruct (dispatch_same_gate pg ev s Hev) as [G1 G2 G3 _ _].
    destruct (dispatch_emits pg ev s) as [(new & Hs & Hall) Hreg].
    split.
    + by rewrite G3.
    + by rewrite G1, G2.
    + intros e. rewrite Hs, elem_of_app, G1. intros [He|He]; [by apply Hsink|].
      destruct Hreg as (r & Hr & Hin).
      { rewrite Hs. intros Heq. apply (f_equal length) in Heq.
        rewrite length_app in Heq. destruct new; [by apply elem_of_nil in He|].
        simpl in Heq. lia. }
      exists r. split; [done|].
      unfold event_names in Hall. rewrite Hr in Hall.
      by apply (proj1 (Forall_forall _ _) Hall).
Qed.

Lemma started_wiring customConfig e :
  wiring_inv (Config.merge_config Config.default_config customConfig)
             (started customConfig e).
Proof.
  unfold started, exec. rewrite start_spec. cbn [snd].
  destruct (sink_ready e).
  - split; [done| |].
    + right. split; [done|]. by exists e.
    + intros ev Hev. by apply elem_of_nil in Hev.
  - split; [done|by left|]. intros ev Hev. by apply elem_of_nil in Hev.
Qed.

Lemma session_after_wiring cfg pg evs : forall s,
  wiring_inv cfg s -> wiring_inv cfg (session_after pg evs s).
Proof.
  induction evs as [|ev evs IH]; intros s Hinv; [done|].
  rewrite session_after_cons. by apply IH, dispatch_wiring.
Qed.

(** X2: in every session, whatever the page does, each event in
    the sink carries one of the eleven event names and belongs to a
    tracker that the merged configuration switches on
    ([form_field_focused] has no switch). *)
Theorem only_enabled_trackers_send customConfig e pg evs name p :
  (name, p) ∈ sink (session_after pg evs (started customConfig e)) ->
  enabled (Config.merge_config Config.default_config customConfig) name = true.
Proof.
  intros Hin.
  destruct (session_after_wiring _ pg evs _ (started_wiring customConfig e))
    as [_ Hl Hsink].
  destruct (Hsink _ Hin) as (r & Hr & Hn).
  destruct Hl as [Hl|(_ & e' & Hl)]; rewrite Hl in Hr.
  - by apply elem_of_nil in Hr.
  - by apply (wired_enabled _ e' r).
Qed.

Lemma only_enabled_trackers_send_witness :
  let s := session_after sample_page [EClick sample_div; EFocus sample_input]
                         (started all_off ready_env) in
  sink s = [focus_event sample_input]
  /\ enabled (Config.merge_config Config.default_config all_off) "form_field_focused" = true.
Proof.
  intros s.
  assert (Hs : sink s = [focus_event sample_input]) by (vm_compute; reflexivity).
  split; [exact Hs|].
  apply (only_enabled_trackers_send all_off ready_env sample_page
           [EClick sample_div; EFocus sample_input] "form_field_focused"
           (snd (focus_event sample_input))).
  fold s. rewrite Hs. apply elem_of_cons. by left.
Defined.

(** ** Start with the sink in place *)

(** X3: when [start] finds the sink, it wires the enabled trackers
    at once and never polls: for the rest of the session the listeners
    are those of that one run of [_initializeTracking], which ran
    exactly once, the configuration is the merged one, no interval is
    live and no failure is reported, whatever fires afterwards. *)
Theorem start_with_sink_ready customConfig e pg evs :
  sink_ready e = true ->
  let cfg := Config.merge_config Config.default_config customConfig in
  let s := session_after pg evs (started customConfig e) in
  listeners s = wired cfg e /\ config s = cfg /\ checkInterval s = None
  /\ init_runs s = 1 /\ failures s = 0.
Proof.
  intros Hr cfg s.
  assert (Hstart : started customConfig e
                   = after_init e (merged customConfig initial_session)).
  { unfold started, exec. by rewrite start_spec, Hr. }
  destruct (cleared_run pg evs (started customConfig e)) as [G1 G2 G3 G4 G5].
  { by rewrite Hstart. }
  subst s. rewrite G1, G2, G3, G4, G5, Hstart. by split_and!.
Qed.

Lemma start_with_sink_ready_witness :
  let s := session_after sample_page
             [EInterval ready_env; EClick sample_div; EInterval ready_env]
             (started Config.no_custom ready_env) in
  init_runs s = 1 /\ length (listeners s) = 8.
Proof.
  intros s.
  destruct (start_with_sink_ready Config.no_custom ready_env sample_page
              [EInterval ready_env; EClick sample_div; EInterval ready_env] eq_refl)
    as (Hl & _ & _ & Hi & _).
  fold s in Hl, Hi. split; [exact Hi|]. rewrite Hl. reflexivity.
Defined.

(** ** A page without timing data *)

Lemma wired_no_load cfg e r : perf_timing e = false -> r ∈ wired cfg e -> reg_type r <> "load".
Proof.
  intros Hperf. unfold wired. rewrite Hperf, andb_false_r.
  assert (Hpick : forall (c : bool) (l : list registration),
             r ∈ (if c then l else []) -> r ∈ l).
  { intros [] l H; [done|]. by apply elem_of_nil in H. }
  rewrite !elem_of_app. intros [Hr|[Hr|[Hr|[Hr|[Hr|[Hr|Hr]]]]]];
    try apply Hpick in Hr; rewrite ?elem_of_cons, ?elem_of_nil in Hr;
    by destruct_or!; subst.
Qed.

Lemma names_of_performance r : "page_performance" ∈ names_of r -> reg_type r = "load".
Proof.
  unfold names_of. intros H.
  destruct (String.eqb_spec (reg_type r) "load") as [Hl|_]; [done|].
  repeat (destruct (String.eqb (reg_type r) _);
          [rewrite ?elem_of_cons, ?elem_of_nil in H; by destruct_or!|]).
  by apply elem_of_nil in H.
Qed.

Lemma dispatch_no_load cfg pg ev s :
  wiring_inv cfg s -> untimed ev = true ->
  no_load_listener s -> no_load_listener (exec (dispatch pg ev) s).
Proof.
  intros [_ Hl _] Hev Hno.
  destruct (tick_of ev) as [b|] eqn:Htick.
  - destruct ev; try done. cbn [dispatch]. unfold exec.
    rewrite checkInterval_tick_spec. cbn [snd].
    destruct (checkInterval s) as [a|] eqn:Hci; [|done].
    destruct Hl as [Hl|[Hnone _]]; [|congruence].
    apply negb_true_iff in Hev.
    destruct (sink_ready e).
    + intros r. cbn [listeners after_init sdk_ready set_console set_checkInterval config].
      rewrite Hl. cbn [app]. by apply wired_no_load.
    + by destruct (maxAttempts <=? S a)%nat.
  - destruct (dispatch_same_gate pg ev s) as [G1 _ _ _ _]; [by intros e ->|].
    unfold no_load_listener. by rewrite G1.
Qed.

Lemma session_after_no_load cfg pg evs : forall s,
  wiring_inv cfg s -> forallb untimed evs = true ->
  no_load_listener s -> no_load_listener (session_after pg evs s).
Proof.
  induction evs as [|ev evs IH]; intros s Hinv Hevs Hno; [done|].
  cbn [forallb] in Hevs. apply andb_true_iff in Hevs as [Hev Hevs].
  rewrite session_after_cons. apply IH; [by apply dispatch_wiring|done|].
  by apply (dispatch_no_load cfg).
Qed.

(** X4: on a page without [performance.timing] the performance
    tracker attaches nothing, whether [start] finds the sink at once
    or the interval callback finds it later, so no [page_performance]
    event is ever sent in that session, even with [trackPerformance]
    on. *)
Theorem no_performance_without_timing customConfig e pg evs p :
  perf_timing e = false -> forallb untimed evs = true ->
  ("page_performance", p) ∉ sink (session_after pg evs (started customConfig e)).
Proof.
  intros Hperf Hevs Hin.
  pose proof (started_wiring customConfig e) as Hinv0.
  pose proof (session_after_wiring _ pg evs _ Hinv0) as [_ _ Hsink].
  destruct (Hsink _ Hin) as (r & Hl & Hn).
  apply names_of_performance in Hn.
  refine (session_after_no_load _ pg evs _ Hinv0 Hevs _ r Hl Hn).
  unfold started, exec. rewrite start_spec. cbn [snd].
  destruct (sink_ready e); [|by intros r' Hr'; apply elem_of_nil in Hr'].
  intros r'. cbn [listeners after_init merged set_config initial_session app config].
  by apply wired_no_load.
Qed.

Lemma no_performance_without_timing_witness :
  let e := {| sink_ready := false; perf_timing := false; now := 0 |} in
  let ready := {| sink_ready := true; perf_timing := false; now := 60 |} in
  let t := {| navigationStart := 0; loadEventEnd := 1245; domContentLoadedEventEnd := 892;
              firstContentfulPaint := None |} in
  let s := session_after sample_page [EInterval e; EInterval ready; ELoadTimeout t]
                         (started Config.no_custom e) in
  init_runs s = 1 /\ sink s = [] /\ ("page_performance", []) ∉ sink s.
Proof.
  intros e ready t s. split; [reflexivity|]. split; [reflexivity|].
  apply (no_performance_without_timing Config.no_custom e sample_page
           [EInterval e; EInterval ready; ELoadTimeout t]); reflexivity.
Defined.

(** ** Debounce and the visibility clock *)

Lemma set_scrollTimer_twice t s : set_scrollTimer t (set_scrollTimer t s) = set_scrollTimer t s.
Proof. by destruct s. Qed.

Lemma scroll_listener_exec s :
  exec scroll_listener s = set_scrollTimer (Some (Config.debounceScroll (config s))) s.
Proof. unfold scroll_listener. by unfold_m. Qed.

Lemma scroll_event_twice pg s :
  exec (dispatch pg EScroll) (exec (dispatch pg EScroll) s) = exec (dispatch pg EScroll) s.
Proof.
  cbn [dispatch]. rewrite !on_exec.
  destruct (registered Window "scroll" false s) eqn:Hreg.
  - rewrite scroll_listener_exec.
    change (registered Window "scroll" false (set_scrollTimer _ s))
      with (registered Window "scroll" false s).
    rewrite Hreg, scroll_listener_exec. apply set_scrollTimer_twice.
  - by rewrite Hreg.
Qed.

Lemma scroll_depth_update_timer pct s :
  scrollTimer (exec (scroll_depth_update pct) s) = scrollTimer s.
Proof.
  unfold scroll_depth_update. unfold_m.
  destruct (JsNum.gt pct (maxScroll s)); [|done].
  destruct (forEach_track_milestone pct milestones NoDup_milestones (set_maxScroll pct s))
    as (s' & Hrun & _ & _ & _ & Htim & _).
  by rewrite Hrun.
Qed.

(** X5: the debounce. Scroll events that arrive before the timer
    fires count as one: any burst of them followed by the firing
    leaves the session that one scroll event and the firing leave, so
    one depth computation runs, on the viewport at firing time; and
    the firing uses the timer up, a second firing with no scroll
    event in between does nothing. *)
Theorem scroll_debounce pg s v :
  (forall n, session_after pg (replicate (S n) EScroll ++ [EScrollTimeout v]) s
             = session_after pg [EScroll; EScrollTimeout v] s)
  /\ (forall v', dispatch pg (EScrollTimeout v') (exec (dispatch pg (EScrollTimeout v)) s)
                 = (Ok tt, exec (dispatch pg (EScrollTimeout v)) s)).
Proof.
  split.
  - intros n. rewrite session_after_app.
    change (replicate (S n) EScroll) with (EScroll :: replicate n EScroll).
    rewrite !session_after_cons. f_equal.
    induction n as [|n IH]; [done|].
    change (replicate (S n) EScroll) with (EScroll :: replicate n EScroll).
    by rewrite session_after_cons, scroll_event_twice.
  - intros v'. cbn [dispatch]. rewrite on_exec. unfold on.
    destruct (registered Window "scroll" false s) eqn:Hreg; [|by rewrite Hreg].
    assert (Hreg' : registered Window "scroll" false (exec (scroll_timeout v) s) = true).
    { rewrite scroll_timeout_exec. destruct (scrollTimer s); [|done].
      destruct (scroll_depth_update_same_gate (scroll_percent v) (set_scrollTimer None s))
        as [[Hl _ _ _ _] _].
      unfold registered in *. by rewrite Hl. }
    rewrite Hreg'.
    assert (Htimer : scrollTimer (exec (scroll_timeout v) s) = None).
    { rewrite scroll_timeout_exec. destruct (scrollTimer s) eqn:Ht; [|done].
      by rewrite scroll_depth_update_timer. }
    unfold scroll_timeout at 1. unfold_m. by rewrite Htimer.
Qed.

(** X6: the visibility clock. A return to the page restarts the
    clock, so the [page_hidden] that follows reports the rounded
    seconds since that return, whatever the clock held before; leaving
    does not restart it, two [page_hidden] in a row are both measured
    from the same start. *)
Theorem visibility_clock pg s t1 t2 t3 :
  registered Document "visibilitychange" false s = true ->
  sink (session_after pg [EVisibilityChange false t1; EVisibilityChange true t2] s)
  = sink s ++ [("page_visible", []);
               ("page_hidden", [("timeOnPage", PNum (JsNum.round_div1000 (t2 - t1)))])]
  /\ sink (session_after pg [EVisibilityChange true t2; EVisibilityChange true t3] s)
     = sink s ++ [("page_hidden",
                   [("timeOnPage", PNum (JsNum.round_div1000 (t2 - startTime s)))]);
                  ("page_hidden",
                   [("timeOnPage", PNum (JsNum.round_div1000 (t3 - startTime s)))])].
Proof.
  intros Hreg.
  assert (Hkeep : forall s', listeners s' = listeners s ->
                             registered Document "visibilitychange" false s' = true).
  { intros s' Hl. unfold registered in *. by rewrite Hl. }
  split.
  - rewrite !session_after_cons. unfold session_after. cbn [run snd dispatch].
    rewrite !on_exec, Hreg. unfold visibilitychange_listener. unfold_m. cbn [snd].
    rewrite Hkeep by done. cbn. by rewrite <- app_assoc.
  - rewrite !session_after_cons. unfold session_after. cbn [run snd dispatch].
    rewrite !on_exec, Hreg. unfold visibilitychange_listener. unfold_m. cbn [snd].
    rewrite Hkeep by done. cbn. by rewrite <- app_assoc.
Qed.

Lemma visibility_clock_witness :
  let s := started Config.no_custom ready_env in
  sink (session_after sample_page
          [EVisibilityChange false 5000; EVisibilityChange true 130000] s)
  = [("page_visible", []); ("page_hidden", [("timeOnPage", PNum (JInt 125))])].
Proof.
  intros s.
  destruct (visibility_clock sample_page s 5000 130000 0 eq_refl) as [H _].
  rewrite H. reflexivity.
Defined.

(** ** Focus *)

Lemma focus_ids_app k1 k2 : focus_ids (k1 ++ k2) = focus_ids k1 ++ focus_ids k2.
Proof. apply omap_app. Qed.

Lemma emits_no_focus names s s' :
  emits names s s' -> "form_field_focused" ∉ names ->
  List.filter is_focus_event (sink s') = List.filter is_focus_event (sink s)
  /\ focus_ids (sink s') = focus_ids (sink s).
Proof.
  intros (new & -> & Hall) Hnot.
  rewrite List.filter_app, focus_ids_app.
  assert (Hnone : List.filter is_focus_event new = [] /\ focus_ids new = []).
  { induction Hall as [|ev new Hev Hall [IH1 IH2]]; [done|].
    assert (Hf : is_focus_event ev = false).
    { unfold is_focus_event. apply String.eqb_neq. intros Heq. by rewrite Heq in Hev. }
    unfold focus_ids in *. simpl. unfold focus_id_of at 1. by rewrite Hf. }
  destruct Hnone as [-> ->]. by rewrite !app_nil_r.
Qed.

Lemma forEach_trackedFields pct l : forall s,
  trackedFields (exec (forEach l (track_milestone pct)) s) = trackedFields s.
Proof.
  induction l as [|m l IH]; intros s; [done|].
  unfold exec in *. rewrite forEach_cons, track_milestone_eq.
  destruct (fresh pct (tracked s) m); by rewrite IH.
Qed.

Lemma dispatch_trackedFields pg ev s :
  (forall t, ev <> EFocus t) -> (forall e, ev <> EInterval e) ->
  trackedFields (exec (dispatch pg ev) s) = trackedFields s.
Proof.
  intros Hf Hi.
  destruct ev; try (by destruct (Hf target)); try (by destruct (Hi e));
    cbn [dispatch]; rewrite on_exec; destruct (registered _ _ _ _); try done.
  - unfold click_listener, try_catch. unfold_m.
    destruct (getElementProps (config s) pg target); [|done].
    destruct (tagName_toLowerCase target); [|done].
    destruct (String.eqb _ "button"); [done|]. destruct (String.eqb _ "a"); [done|].
    by destruct (match Dom.role target with Some _ => _ | None => _ end).
  - unfold submit_listener. unfold_m. by destruct (f_elements target).
  - rewrite scroll_timeout_exec. destruct (scrollTimer s); [|done].
    unfold scroll_depth_update. unfold_m.
    destruct (JsNum.gt _ _); [|done].
    apply (forEach_trackedFields _ _ (set_maxScroll _ (set_scrollTimer None s))).
  - unfold error_listener. unfold_m. by destruct (stack_of (error e)).
  - unfold unhandledrejection_listener. unfold_m. by destruct (JsVal.String reason).
  - unfold visibilitychange_listener. unfold_m. by destruct hidden.
Qed.

Lemma focus_listener_cases target s :
  focus_listener target s =
  if is_form_control (Dom.tagName target)
     && negb (bool_decide (field_identifier target ∈ trackedFields s))
  then (Ok tt, set_sink (sink s ++ [focus_event target])
                 (set_trackedFields ({[field_identifier target]} ∪ trackedFields s) s))
  else (Ok tt, s).
Proof.
  unfold focus_listener. destruct (is_form_control _); [|done]. unfold_m.
  by destruct (bool_decide _).
Qed.

Lemma event_names_no_focus ev :
  (forall t, ev <> EFocus t) -> "form_field_focused" ∉ event_names ev.
Proof.
  intros Hf. destruct ev; try (by destruct (Hf target)); cbn;
    rewrite ?elem_of_cons, elem_of_nil; intros H; repeat destruct H as [H|H]; done.
Qed.

Lemma dispatch_focus_inv_other pg ev s :
  focus_inv s -> (forall t, ev <> EFocus t) -> (forall e, ev <> EInterval e) ->
  focus_inv (exec (dispatch pg ev) s).
Proof.
  intros [Hall Hnd Htr] Hf Hi.
  destruct (emits_no_focus _ _ _ (proj1 (dispatch_emits pg ev s))
              (event_names_no_focus ev Hf)) as [He1 He2].
  split; rewrite ?He1, ?He2; try done.
  intros i Hin. rewrite dispatch_trackedFields by done. by apply Htr.
Qed.

Lemma dispatch_focus_inv cfg pg ev s :
  wiring_inv cfg s -> focus_inv s -> focus_inv (exec (dispatch pg ev) s).
Proof.
  intros Hw Hinv. pose proof Hinv as [Hall Hnd Htr].
  destruct ev; try (by apply dispatch_focus_inv_other).
  - (* focus *)
    cbn [dispatch]. rewrite on_exec. destruct (registered _ _ _ _); [|done].
    unfold exec. rewrite focus_listener_cases.
    destruct (is_form_control _ && negb _) eqn:Hc; [|done]. cbn [snd].
    apply andb_true_iff in Hc as [_ Hnew].
    apply negb_true_iff, bool_decide_eq_false in Hnew.
    assert (Hid : focus_ids [focus_event target] = [field_identifier target]) by done.
    split; simpl sink.
    + rewrite List.filter_app, focus_ids_app, !length_app, Hall. done.
    + rewrite focus_ids_app, Hid. apply NoDup_app. split_and!; [done| |].
      * intros i Hi Hi'. apply list_elem_of_singleton in Hi' as ->. by apply Hnew, Htr.
      * apply NoDup_singleton.
    + intros i. rewrite focus_ids_app, Hid, elem_of_app, list_elem_of_singleton.
      simpl. intros [Hi| ->]; [apply elem_of_union_r; by apply Htr|].
      apply elem_of_union_l. by apply elem_of_singleton.
  - (* interval *)
    cbn [dispatch]. unfold exec. rewrite checkInterval_tick_spec. cbn [snd].
    destruct (checkInterval s) as [a|] eqn:Hci; [|done].
    destruct (wi_listeners cfg s Hw) as [Hl|[Hnone _]]; [|congruence].
    assert (Hempty : sink s = []).
    { destruct (sink s) as [|ev k] eqn:Hs; [done|].
      destruct (wi_sink cfg s Hw ev) as (r & Hr & _).
      - rewrite Hs. apply elem_of_cons. by left.
      - rewrite Hl in Hr. by apply elem_of_nil in Hr. }
    destruct (sink_ready e).
    + split; simpl sink; rewrite Hempty; try done. apply NoDup_nil_2.
      intros i Hi. by apply elem_of_nil in Hi.
    + destruct (maxAttempts <=? S a)%nat; by split.
Qed.

Lemma session_after_focus_inv cfg pg evs : forall s,
  wiring_inv cfg s -> focus_inv s -> focus_inv (session_after pg evs s).
Proof.
  induction evs as [|ev evs IH]; intros s Hw Hf; [done|].
  rewrite session_after_cons. apply IH; [by apply dispatch_wiring|].
  by apply (dispatch_focus_inv cfg).
Qed.

Lemma started_focus_inv customConfig e : focus_inv (started customConfig e).
Proof.
  unfold started, exec. rewrite start_spec. cbn [snd].
  destruct (sink_ready e); split; try done; try apply NoDup_nil_2;
    intros i Hi; by apply elem_of_nil in Hi.
Qed.

(** X7: along every session each [form_field_focused] event in the
    sink carries a field identifier and no identifier occurs twice;
    once an identifier is reported, a focus on any field with that
    identifier, the same field or another one (two fields with neither
    id nor name share "unknown"), sends nothing and changes nothing. *)
Theorem focus_reported_once customConfig e pg evs :
  let s := session_after pg evs (started customConfig e) in
  NoDup (focus_ids (sink s))
  /\ length (List.filter is_focus_event (sink s)) = length (focus_ids (sink s))
  /\ (forall target,
        field_identifier target ∈ focus_ids (sink s) ->
        dispatch pg (EFocus target) s = (Ok tt, s)).
Proof.
  intros s.
  destruct (session_after_focus_inv _ pg evs _ (started_wiring customConfig e)
              (started_focus_inv customConfig e)) as [Hall Hnd Htr].
  split_and!; [done..|].
  intros target Hin. cbn [dispatch]. unfold on.
  destruct (registered _ _ _ _); [|done].
  rewrite focus_listener_cases.
  by rewrite (bool_decide_eq_true_2 _ (Htr _ Hin)), andb_false_r.
Qed.

Lemma focus_reported_once_witness :
  let s := session_after sample_page [EFocus (anonymous_field 21)]
                         (started Config.no_custom ready_env) in
  focus_ids (sink s) = ["unknown"]
  /\ dispatch sample_page (EFocus (anonymous_field 22)) s = (Ok tt, s).
Proof.
  intros s.
  assert (Hs : focus_ids (sink s) = ["unknown"]) by (vm_compute; reflexivity).
  split; [exact Hs|].
  apply (focus_reported_once Config.no_custom ready_env sample_page
           [EFocus (anonymous_field 21)]).
  fold s. rewrite Hs. apply elem_of_cons. by left.
Defined.

(** ** Errors and rejections *)

Lemma substring0_length n s : String.length (JsString.substring0 n s) = Nat.min n (String.length s).
Proof.
  unfold JsString.substring0. revert s.
  induction n as [|n IH]; intros [|c s]; simpl; try done. by rewrite IH.
Qed.

Lemma substring0_prefix n s :
  exists rest, s = (JsString.substring0 n s ++ rest)%string.
Proof.
  unfold JsString.substring0. revert s.
  induction n as [|n IH]; intros [|c s]; cbn [String.substring].
  - by exists EmptyString.
  - by exists (String c s).
  - by exists EmptyString.
  - destruct (IH s) as [rest Hrest]. exists rest. by rewrite append_cons, <- Hrest.
Qed.

Lemma substring0_short n s : String.length s <= n -> JsString.substring0 n s = s.
Proof.
  unfold JsString.substring0. revert s.
  induction n as [|n IH]; intros [|c s]; simpl; try done; [lia|].
  intros H. rewrite IH; [done|lia].
Qed.

Lemma call_substring_other stack :
  (forall trace, stack <> VStr trace) ->
  call_substring stack
  = match JsVal.get stack "substring" with
    | VFun _ (Ok v) => Ok (pval_of v)
    | VFun _ (Throw err) => Throw err
    | _ => Throw (TypeError "e.error?.stack?.substring is not a function")
    end.
Proof.
  intros Hnot. unfold call_substring.
  by destruct stack as [| | | |x|trace|toStr fields|toStr call];
    try destruct (Hnot trace eq_refl).
Qed.

(** X8: what the error listener does with [e.error?.stack]. Without
    an error object, or with one that has no stack, the event is sent
    with an undefined stack. A string stack is cut to its first 500
    characters (kept whole when it is shorter). Any other stack is
    asked for its [substring] property: when that is a function the
    listener sends what the call returns (a String object hands back a
    string) or lets what it throws escape; when it is not, as on a
    number, the call is a TypeError. The listener throws in these two
    cases only, and has then sent nothing. *)
Theorem error_listener_outcome e s :
  let stack := JsVal.get (error e) "stack" in
  let sent := fun p =>
    (Ok tt, set_sink (sink s ++ [("javascript_error", error_props e p)]) s) in
  (JsVal.nullish (error e) = true \/ JsVal.nullish stack = true ->
   error_listener e s = sent PUndef)
  /\ (forall trace,
        JsVal.nullish (error e) = false -> stack = VStr trace ->
        exists cut rest,
          error_listener e s = sent (PStr cut)
          /\ trace = (cut ++ rest)%string
          /\ String.length cut = Nat.min 500 (String.length trace))
  /\ (forall toStr call,
        JsVal.nullish (error e) = false -> JsVal.nullish stack = false ->
        (forall trace, stack <> VStr trace) ->
        JsVal.get stack "substring" = VFun toStr call ->
        error_listener e s
        = match call with
          | Ok v => sent (pval_of v)
          | Throw err => (Throw err, s)
          end)
  /\ ((exists err, error_listener e s = (Throw err, s))
      <-> JsVal.nullish (error e) = false /\ JsVal.nullish stack = false
          /\ (forall trace, stack <> VStr trace)
          /\ (forall toStr v, JsVal.get stack "substring" <> VFun toStr (Ok v))).
Proof.
  intros stack sent. subst sent.
  unfold error_listener, stack_of, error_props. fold stack. unfold_m.
  clearbody stack.
  split_and!.
  - intros [Hn|Hn].
    + by rewrite Hn.
    + destruct (JsVal.nullish (error e)); [done|]. by rewrite Hn.
  - intros trace Hn Hs. rewrite Hn, Hs. cbn [JsVal.nullish].
    destruct (substring0_prefix 500 trace) as [rest Hrest].
    exists (JsString.substring0 500 trace), rest. split_and!; [done|done|].
    apply substring0_length.
  - intros toStr call Hn Hs Hnot Hsub.
    rewrite Hn, Hs, (call_substring_other _ Hnot), Hsub. by destruct call.
  - destruct (JsVal.nullish (error e)).
    { split; [by intros [err Herr]|by intros [? _]]. }
    destruct (JsVal.nullish stack) eqn:Hn.
    { split; [by intros [err Herr]|by intros (_ & ? & _)]. }
    assert (Hstr : (exists trace, stack = VStr trace) \/ forall trace, stack <> VStr trace).
    { destruct stack; try (by right). left. by eexists. }
    destruct Hstr as [[trace ->]|Hnot'].
    { split; [by intros [err Herr]|]. intros (_ & _ & H & _). by destruct (H trace). }
    rewrite (call_substring_other _ Hnot').
    destruct (JsVal.get stack "substring") as [| | | | | | |toStr [v|err]];
      try (split; [intros _; by split_and!|intros _; by eexists]).
    split; [by intros [err Herr]|]. intros (_ & _ & _ & H). by destruct (H toStr v).
Qed.

Lemma error_listener_outcome_witness :
  let plain := {| message := "boom"; filename := "app.js"; lineno := 42; colno := 10;
                  error := VObj (Some "Error: boom")
                                [("stack", VStr "Error: boom at app.js")] |} in
  let wrapped := {| message := "boom"; filename := "app.js"; lineno := 42; colno := 10;
                    error := VObj (Some "[object Object]")
                               [("stack",
                                 VObj (Some "trace")
                                      [("substring",
                                        VFun (Some "function substring() { [native code] }")
                                             (Ok (VStr "trace")))])] |} in
  (exists cut rest,
      error_listener plain initial_session
      = (Ok tt, set_sink [("javascript_error", error_props plain (PStr cut))] initial_session)
      /\ "Error: boom at app.js" = (cut ++ rest)%string
      /\ String.length cut = 21)
  /\ error_listener wrapped initial_session
     = (Ok tt, set_sink [("javascript_error", error_props wrapped (PStr "trace"))]
                        initial_session).
Proof.
  intros plain wrapped. split.
  - exact (proj1 (proj2 (error_listener_outcome plain initial_session))
             "Error: boom at app.js" eq_refl eq_refl).
  - refine (proj1 (proj2 (proj2 (error_listener_outcome wrapped initial_session)))
              (Some "function substring() { [native code] }") (Ok (VStr "trace"))
              eq_refl eq_refl _ eq_refl).
    by intros trace.
Defined.

(** X9: the rejection listener reports the string form of the
    reason: the words undefined, null, true and false, NaN, Infinity
    and -Infinity, a string as it is, an integer up to 2^53 in
    magnitude by all its decimal digits, any other number as
    [Number::toString] prints its binary64 value (10^21 is 1e+21,
    2^64 ends in zeros, a tenth is 0.1, a ten-millionth is 1e-7), an
    object or a function by what its conversion yields. It throws, and
    sends nothing, exactly when the reason is an object or a function
    whose conversion throws. *)
Theorem rejection_listener_outcome reason s :
  let sent := fun r =>
    (Ok tt, set_sink (sink s ++ [("promise_rejection", [("reason", PStr r)])]) s) in
  let outcome := unhandledrejection_listener reason s in
  match reason with
  | VUndefined => outcome = sent "undefined"
  | VNull => outcome = sent "null"
  | VBool true => outcome = sent "true"
  | VBool false => outcome = sent "false"
  | VNum JNaN => outcome = sent "NaN"
  | VNum (JInf false) => outcome = sent "Infinity"
  | VNum (JInf true) => outcome = sent "-Infinity"
  | VNum (JInt z) =>
      ((Z.abs z <= 2 ^ 53)%Z -> outcome = sent (NilZero.string_of_int (Z.to_int z)))
      /\ (z = (10 ^ 21)%Z -> outcome = sent "1e+21")
      /\ (z = (2 ^ 64)%Z -> outcome = sent "18446744073709552000")
      /\ (z = (- 2 ^ 70)%Z -> outcome = sent "-1.1805916207174113e+21")
  | VFrac x =>
      outcome = sent (JsNum.number_to_string (Prim2SF x))
      /\ (x = 0.5%float -> outcome = sent "0.5")
      /\ (x = (-1.5)%float -> outcome = sent "-1.5")
      /\ (x = 0x1.999999999999ap-4%float -> outcome = sent "0.1")
      /\ (x = 0x1.ad7f29abcaf48p-24%float -> outcome = sent "1e-7")
      /\ (x = 0x1.edd2f1a9fbe77p+6%float -> outcome = sent "123.456")
  | VStr str => outcome = sent str
  | VObj (Some str) _ | VFun (Some str) _ => outcome = sent str
  | VObj None _ | VFun None _ =>
      outcome = (Throw (TypeError "Cannot convert object to primitive value"), s)
  end
  /\ ((exists err, outcome = (Throw err, s))
      <-> (exists fields, reason = VObj None fields)
          \/ (exists call, reason = VFun None call)).
Proof.
  intros sent outcome. subst sent outcome.
  unfold unhandledrejection_listener. unfold_m. split.
  - destruct reason as [| |[]|[|[]|z]|x|str|[str|] fields|[str|] call]; try done.
    + cbn [JsVal.String JsNum.to_string]. split_and!.
      * intros Hz. apply Z.leb_le in Hz. by rewrite Hz.
      * intros ->. by vm_compute.
      * intros ->. by vm_compute.
      * intros ->. by vm_compute.
    + cbn [JsVal.String]. split_and!; [done|intros ->; by vm_compute..].
  - destruct reason as [| |[]|n|x|str|[str|] fields|[str|] call]; cbn [JsVal.String].
    all: try (split; [by intros [err Herr]|by intros [[? ?]|[? ?]]]).
    + split; [intros _; left; by eexists|intros _; by eexists].
    + split; [intros _; right; by eexists|intros _; by eexists].
Qed.

Lemma rejection_listener_outcome_witness :
  unhandledrejection_listener (VNum (JInt 404)) initial_session
  = (Ok tt, set_sink [("promise_rejection", [("reason", PStr "404")])] initial_session)
  /\ unhandledrejection_listener (VNum (JInt (10 ^ 21))) initial_session
     = (Ok tt, set_sink [("promise_rejection", [("reason", PStr "1e+21")])] initial_session)
  /\ unhandledrejection_listener (VFrac 0x1.999999999999ap-4%float) initial_session
     = (Ok tt, set_sink [("promise_rejection", [("reason", PStr "0.1")])] initial_session).
Proof.
  split_and!.
  - apply (proj1 (proj1 (rejection_listener_outcome (VNum (JInt 404)) initial_session))).
    by vm_compute.
  - exact (proj1 (proj2 (proj1 (rejection_listener_outcome (VNum (JInt (10 ^ 21)))
                                  initial_session))) eq_refl).
  - exact (proj1 (proj2 (proj2 (proj2 (proj1 (rejection_listener_outcome
                                                 (VFrac 0x1.999999999999ap-4%float)
                                                 initial_session))))) eq_refl).
Defined.

(** ** The descriptor, key by key *)

Lemma obj_get_set_if_eq k c v p :
  obj_get k (set_if c k v p) = if c then Some v else obj_get k p.
Proof. unfold set_if. destruct c; [apply obj_get_set_eq|done]. Qed.

Lemma obj_get_dataset_layer k (cfg : Config.TrackerConfig) element p :
  (forall key, String.eqb k ("data_" ++ key) = false) ->
  obj_get k match Dom.dataset element with
            | Some ds => if Config.captureAttributes cfg then copy_dataset ds p else p
            | None => p
            end = obj_get k p.
Proof.
  intros Hk. destruct (Dom.dataset element); [|done].
  destruct (Config.captureAttributes cfg); [|done]. by apply obj_get_copy_dataset.
Qed.

Lemma obj_get_gaId_layer k element p :
  String.eqb k "gaId" = false ->
  obj_get k match find_gaId 5 (Some element) with
            | Some g => obj_set "gaId" (PStr g) p
            | None => p
            end = obj_get k p.
Proof. intros Hk. destruct (find_gaId 5 (Some element)); [|done]. by apply obj_get_set_ne. Qed.

Lemma obj_get_class_layer k element p :
  String.eqb k "elementClasses" = false ->
  obj_get k match Dom.className element with
            | Dom.ClassString c =>
                set_if (JsString.truthy c) "elementClasses" (PStr (normalize_classes c)) p
            | _ => p
            end = obj_get k p.
Proof.
  intros Hk. destruct (Dom.className element); try done. by apply obj_get_set_if_ne.
Qed.

Ltac peel :=
  repeat first [ rewrite obj_get_set_if_ne by done
               | rewrite obj_get_dataset_layer by done
               | rewrite obj_get_gaId_layer by done
               | rewrite obj_get_class_layer by done ].

Lemma getElementProps_shape cfg pg element p :
  getElementProps cfg pg element = Ok p ->
  exists tag xpath pv,
    Dom.tagName element = Some tag
    /\ getXPath pg element = Ok xpath
    /\ props_with_value cfg pg element (JsString.toLowerCase tag) = Ok pv
    /\ p = obj_set "xpath" (PStr xpath) pv.
Proof.
  rewrite getElementProps_eq. unfold tagName_toLowerCase.
  destruct (Dom.tagName element) as [tag|]; [|done]. cbn [mbind result_bind].
  fold (props_with_value cfg pg element (JsString.toLowerCase tag)).
  destruct (props_with_value cfg pg element (JsString.toLowerCase tag)) as [pv|] eqn:Hpv;
    [|done].
  cbn [mbind result_bind].
  destruct (getXPath pg element) as [xpath|] eqn:Hx; [|done].
  intros [= <-]. by exists tag, xpath, pv.
Qed.

Lemma obj_get_with_value k cfg pg element elementType pv :
  props_with_value cfg pg element elementType = Ok pv ->
  String.eqb k "elementValue" = false ->
  obj_get k pv = obj_get k (props_before_value cfg pg element elementType).
Proof.
  unfold props_with_value. intros Hpv Hk.
  destruct (JsVal.truthy _ && negb _).
  - destruct (JsVal.String (Dom.value element)); [|done].
    injection Hpv as <-. by apply obj_get_set_ne.
  - by injection Hpv as <-.
Qed.

Lemma obj_set_keys k v o x :
  x ∈ map fst (obj_set k v o) <-> x = k \/ x ∈ map fst o.
Proof.
  induction o as [|[k' v'] o IH]; simpl.
  - rewrite list_elem_of_singleton, elem_of_nil. tauto.
  - destruct (String.eqb k k') eqn:Hk; simpl; rewrite !elem_of_cons.
    + apply String.eqb_eq in Hk as ->. tauto.
    + rewrite IH. tauto.
Qed.

Lemma obj_set_NoDup k v o : NoDup (map fst o) -> NoDup (map fst (obj_set k v o)).
Proof.
  induction o as [|[k' v'] o IH]; simpl; intros Hnd.
  - apply NoDup_singleton.
  - apply NoDup_cons in Hnd as [Hk' Hnd].
    destruct (String.eqb k k') eqn:Hk; simpl.
    + apply String.eqb_eq in Hk as ->. by apply NoDup_cons.
    + apply NoDup_cons. split; [|by apply IH].
      rewrite obj_set_keys. intros [->|?]; [|done]. by rewrite String.eqb_refl in Hk.
Qed.

Lemma set_if_NoDup c k v o : NoDup (map fst o) -> NoDup (map fst (set_if c k v o)).
Proof. unfold set_if. destruct c; [apply obj_set_NoDup|done]. Qed.

Lemma copy_dataset_NoDup ds o : NoDup (map fst o) -> NoDup (map fst (copy_dataset ds o)).
Proof.
  unfold copy_dataset. generalize (map fst ds) as keys. intros keys. revert o.
  induction keys as [|key keys IH]; intros o Hnd; [done|].
  simpl. by apply IH, obj_set_NoDup.
Qed.

Lemma props_before_value_NoDup cfg pg element elementType :
  NoDup (map fst (props_before_value cfg pg element elementType)).
Proof.
  unfold props_before_value.
  repeat first [ apply set_if_NoDup | apply obj_set_NoDup | apply copy_dataset_NoDup
               | match goal with
                 | |- context [match ?x with _ => _ end] => destruct x
                 end ].
  all: apply (bool_decide_unpack _); by vm_compute.
Qed.

(** X10: a descriptor that is built holds each key once; it always
    holds [elementType] (the lower-cased tag name, which [inputType]
    and the data attributes never overwrite), the [page] and the
    [xpath] of the element, and it holds [elementId], [elementName]
    and [inputType] exactly when the element has a non-empty id, name
    and type, with these values. *)
Theorem descriptor_keys cfg pg element p :
  getElementProps cfg pg element = Ok p ->
  NoDup (map fst p)
  /\ exists tag xpath,
      Dom.tagName element = Some tag /\ getXPath pg element = Ok xpath
      /\ obj_get "elementType" p = Some (PStr (JsString.toLowerCase tag))
      /\ obj_get "page" p = Some (PStr (Dom.pathname pg))
      /\ obj_get "xpath" p = Some (PStr xpath)
      /\ obj_get "elementId" p
         = present (JsString.truthy (Dom.id element)) (Dom.id element)
      /\ obj_get "elementName" p
         = present (JsString.truthy (Dom.name element)) (Dom.name element)
      /\ obj_get "inputType" p
         = present (JsString.truthy (Dom.type element)) (Dom.type element).
Proof.
  intros Hp.
  destruct (getElementProps_shape _ _ _ _ Hp) as (tag & xpath & pv & Htag & Hx & Hpv & ->).
  split.
  - apply obj_set_NoDup. unfold props_with_value in Hpv.
    destruct (JsVal.truthy _ && negb _).
    + destruct (JsVal.String (Dom.value element)); [|done]. injection Hpv as <-.
      apply obj_set_NoDup, props_before_value_NoDup.
    + injection Hpv as <-. apply props_before_value_NoDup.
  - exists tag, xpath. split_and!; try done.
    + rewrite obj_get_set_ne, (obj_get_with_value _ _ _ _ _ _ Hpv) by done.
      unfold props_before_value. by peel.
    + rewrite obj_get_set_ne, (obj_get_with_value _ _ _ _ _ _ Hpv) by done.
      unfold props_before_value. by peel.
    + apply obj_get_set_eq.
    + rewrite obj_get_set_ne, (obj_get_with_value _ _ _ _ _ _ Hpv) by done.
      unfold props_before_value. peel. rewrite obj_get_set_if_eq.
      by destruct (JsString.truthy (Dom.id element)).
    + rewrite obj_get_set_ne, (obj_get_with_value _ _ _ _ _ _ Hpv) by done.
      unfold props_before_value. peel. rewrite obj_get_set_if_eq.
      destruct (JsString.truthy (Dom.name element)); [done|]. peel.
      by destruct (JsString.truthy (Dom.id element)).
    + rewrite obj_get_set_ne, (obj_get_with_value _ _ _ _ _ _ Hpv) by done.
      unfold props_before_value. rewrite obj_get_set_if_eq.
      destruct (JsString.truthy (Dom.type element)); [done|]. peel.
      by destruct (JsString.truthy (Dom.id element)).
Qed.

Lemma descriptor_keys_witness :
  exists p, getElementProps Config.default_config sample_page long_field = Ok p
            /\ obj_get "elementType" p = Some (PStr "textarea")
            /\ obj_get "inputType" p = Some (PStr "textarea")
            /\ NoDup (map fst p).
Proof.
  destruct (getElementProps Config.default_config sample_page long_field) as [p|] eqn:Hp;
    [|by vm_compute in Hp].
  exists p. destruct (descriptor_keys _ _ _ _ Hp)
    as (Hnd & tag & xpath & Htag & _ & Hty & _ & _ & _ & _ & Hin).
  injection Htag as <-. by split_and!.
Defined.

Lemma has_key_false_get k o : has_key k o = false -> obj_get k o = None.
Proof.
  unfold has_key. induction o as [|[k' v] o IH]; [done|].
  cbn [existsb obj_get fst]. destruct (String.eqb k k'); [done|]. apply IH.
Qed.

(** *** Trimming *)

Lemma append_assoc (a b c : string) : ((a ++ b) ++ c = a ++ (b ++ c))%string.
Proof. induction a as [|x a IH]; [done|]. by rewrite !append_cons, IH. Qed.

Lemma is_trimmed_white c : JsString.is_trimmed c = white c.
Proof. by destruct c as [[] [] [] [] [] [] [] []]. Qed.

Lemma rev_append_spec s : forall acc,
  JsString.rev_append s acc = (JsString.rev s ++ acc)%string.
Proof.
  unfold JsString.rev. induction s as [|c s IH]; intros acc; [done|].
  cbn [JsString.rev_append]. rewrite (IH (String c acc)), (IH (String c EmptyString)).
  by rewrite append_assoc.
Qed.

Lemma rev_cons c s : JsString.rev (String c s) = (JsString.rev s ++ String c EmptyString)%string.
Proof. unfold JsString.rev at 1. cbn [JsString.rev_append]. apply rev_append_spec. Qed.

Lemma rev_app a b : JsString.rev (a ++ b) = (JsString.rev b ++ JsString.rev a)%string.
Proof.
  induction a as [|c a IH]; [by rewrite append_empty_r|].
  by rewrite append_cons, !rev_cons, IH, append_assoc.
Qed.

Lemma rev_involutive s : JsString.rev (JsString.rev s) = s.
Proof.
  induction s as [|c s IH]; [done|]. by rewrite rev_cons, rev_app, IH.
Qed.

Lemma blank_app a b : blank (a ++ b) = blank a && blank b.
Proof.
  induction a as [|c a IH]; [done|]. rewrite append_cons. cbn [blank].
  by rewrite IH, andb_assoc.
Qed.

Lemma blank_rev s : blank (JsString.rev s) = blank s.
Proof.
  induction s as [|c s IH]; [done|]. rewrite rev_cons, blank_app, IH. cbn [blank].
  by rewrite andb_true_r, andb_comm.
Qed.

Lemma trimStart_blank lead s :
  blank lead = true -> JsString.trimStart (lead ++ s) = JsString.trimStart s.
Proof.
  induction lead as [|c lead IH]; [done|]. cbn [blank]. intros H.
  apply andb_true_iff in H as [Hc Hl]. rewrite append_cons. cbn [JsString.trimStart].
  rewrite is_trimmed_white, Hc. by apply IH.
Qed.

Lemma trimStart_all_blank s : blank s = true -> JsString.trimStart s = EmptyString.
Proof.
  intros H. rewrite <- (append_empty_r s). by rewrite trimStart_blank.
Qed.

Lemma rev_starts_with_last c s :
  exists l r, last_unit (String c s) = Some l /\ JsString.rev (String c s) = String l r.
Proof.
  revert c. induction s as [|d s IH]; intros c.
  - exists c, EmptyString. by split.
  - destruct (IH d) as (l & r & Hl & Hr).
    exists l, (r ++ String c EmptyString)%string. split; [done|].
    by rewrite rev_cons, Hr, append_cons.
Qed.

(** [trim] removes the white space around a text and nothing else. *)
Lemma trim_spec lead core trail :
  blank lead = true -> blank trail = true -> tight core = true ->
  JsString.trim (lead ++ core ++ trail) = core.
Proof.
  intros Hlead Htrail Htight. unfold JsString.trim. rewrite trimStart_blank by done.
  destruct core as [|c core].
  { change (EmptyString ++ trail)%string with trail.
    rewrite (trimStart_all_blank trail) by done. reflexivity. }
  unfold tight in Htight. apply andb_true_iff in Htight as [Hfirst Hlast].
  rewrite append_cons. cbn [JsString.trimStart]. rewrite is_trimmed_white.
  apply negb_true_iff in Hfirst. rewrite Hfirst.
  rewrite <- append_cons, rev_app.
  rewrite (trimStart_blank (JsString.rev trail)) by by rewrite blank_rev.
  destruct (rev_starts_with_last c core) as (l & r & Hl & Hr).
  rewrite Hl in Hlast. rewrite Hr. cbn [JsString.trimStart]. rewrite is_trimmed_white.
  apply negb_true_iff in Hlast. rewrite Hlast, <- Hr. apply rev_involutive.
Qed.

Lemma trimStart_split s :
  exists lead, blank lead = true /\ s = (lead ++ JsString.trimStart s)%string
               /\ match JsString.trimStart s with
                  | String c _ => white c = false
                  | EmptyString => True
                  end.
Proof.
  induction s as [|c s (lead & Hb & Hs & Hc)]; [by exists EmptyString|].
  cbn [JsString.trimStart]. rewrite is_trimmed_white.
  destruct (white c) eqn:Hw.
  - exists (String c lead). cbn [blank]. rewrite Hw, Hb, append_cons. by rewrite <- Hs.
  - by exists EmptyString.
Qed.

(** Every text is white space, a core that neither starts nor ends
    with white space, and white space again. *)
Lemma trim_decomposition s :
  exists lead core trail,
    s = (lead ++ core ++ trail)%string
    /\ blank lead = true /\ blank trail = true /\ tight core = true.
Proof.
  destruct (trimStart_split s) as (lead & Hlead & Hs & Hfirst).
  destruct (trimStart_split (JsString.rev (JsString.trimStart s)))
    as (back & Hback & Hr & Hlast).
  set (t := JsString.trimStart s) in *.
  set (u := JsString.trimStart (JsString.rev t)) in *.
  assert (Ht : t = (JsString.rev u ++ JsString.rev back)%string).
  { rewrite <- rev_app, <- Hr. by rewrite rev_involutive. }
  exists lead, (JsString.rev u), (JsString.rev back). split_and!.
  - by rewrite <- Ht.
  - done.
  - by rewrite blank_rev.
  - unfold tight. destruct (JsString.rev u) as [|c core] eqn:Hcore; [done|].
    apply andb_true_iff. split.
    + rewrite Ht, append_cons in Hfirst. by rewrite Hfirst.
    + destruct (rev_starts_with_last c core) as (l & r & Hl & Hrev).
      rewrite Hl. rewrite <- Hcore, rev_involutive in Hrev. rewrite Hrev in Hlast.
      by rewrite Hlast.
Qed.

(** X11: [elementText] is there exactly when [captureText] is on
    and the text content is not empty, and it is then the text without
    the white space around it (tabs, line breaks, spaces, no-break
    spaces), cut to its first 100 characters; a text of white space
    only gives the empty string. [elementValue] is there exactly when
    the value is truthy and the type is not "password", and it is then
    the string form of the value cut to its first 50 characters. *)
Theorem descriptor_truncation cfg pg element p lead core trail :
  getElementProps cfg pg element = Ok p ->
  Dom.textContent element = (lead ++ core ++ trail)%string ->
  blank lead = true -> blank trail = true -> tight core = true ->
  let first := fun n full cut =>
    cut = String.substring 0 n full
    /\ (exists rest, full = (cut ++ rest)%string)
    /\ String.length cut = Nat.min n (String.length full) in
  (obj_get "elementText" p = None
   <-> Config.captureText cfg = false \/ Dom.textContent element = EmptyString)
  /\ (Config.captureText cfg = true -> Dom.textContent element <> EmptyString ->
      exists cut, obj_get "elementText" p = Some (PStr cut) /\ first 100 core cut)
  /\ (obj_get "elementValue" p = None
      <-> JsVal.truthy (Dom.value element) = false \/ Dom.type element = "password")
  /\ (forall v, Dom.value element = VStr v -> v <> EmptyString ->
                Dom.type element <> "password" ->
                exists cut, obj_get "elementValue" p = Some (PStr cut) /\ first 50 v cut)
  /\ (forall full, JsVal.truthy (Dom.value element) = true ->
                   Dom.type element <> "password" ->
                   JsVal.String (Dom.value element) = Ok full ->
                   exists cut, obj_get "elementValue" p = Some (PStr cut)
                               /\ first 50 full cut).
Proof.
  intros Hp Htext Hlead Htrail Htight first.
  destruct (getElementProps_shape _ _ _ _ Hp) as (tag & xpath & pv & Htag & Hx & Hpv & ->).
  assert (Ht : obj_get "elementText" (obj_set "xpath" (PStr xpath) pv)
               = present (Config.captureText cfg
                          && JsString.truthy (Dom.textContent element))
                   (JsString.substring0 100 core)).
  { rewrite obj_get_set_ne, (obj_get_with_value _ _ _ _ _ _ Hpv) by done.
    unfold props_before_value. peel. rewrite obj_get_set_if_eq. unfold present.
    rewrite Htext at 2. rewrite trim_spec by done.
    destruct (Config.captureText cfg && _); [done|]. peel.
    by destruct (JsString.truthy (Dom.id element)). }
  assert (Hbefore : obj_get "elementValue"
                      (props_before_value cfg pg element (JsString.toLowerCase tag)) = None).
  { apply has_key_false_get, has_key_before_value. }
  assert (Hv : forall full, JsVal.truthy (Dom.value element) = true ->
                   Dom.type element <> "password" ->
                   JsVal.String (Dom.value element) = Ok full ->
                   obj_get "elementValue" (obj_set "xpath" (PStr xpath) pv)
                   = Some (PStr (JsString.substring0 50 full))).
  { intros full Htr Hty Hfull. rewrite obj_get_set_ne by done.
    unfold props_with_value in Hpv. rewrite Htr, Hfull in Hpv.
    apply String.eqb_neq in Hty. rewrite Hty in Hpv. injection Hpv as <-.
    apply obj_get_set_eq. }
  assert (Hcut : forall n full, first n full (JsString.substring0 n full)).
  { intros n full. split_and!; [done|apply substring0_prefix|apply substring0_length]. }
  split_and!.
  - rewrite Ht. unfold present.
    destruct (Config.captureText cfg), (Dom.textContent element); cbn; naive_solver.
  - intros Hc Hne. rewrite Ht, Hc. unfold present.
    destruct (Dom.textContent element); [done|]. eexists. split; [done|]. apply Hcut.
  - rewrite obj_get_set_ne by done. unfold props_with_value in Hpv.
    destruct (JsVal.truthy (Dom.value element)) eqn:Htr;
      destruct (String.eqb_spec (Dom.type element) "password") as [Hty|Hty];
      cbn [andb negb] in Hpv.
    + injection Hpv as <-. rewrite Hbefore. naive_solver.
    + destruct (JsVal.String (Dom.value element)) as [full|]; [|done].
      injection Hpv as <-. rewrite obj_get_set_eq. naive_solver.
    + injection Hpv as <-. rewrite Hbefore. naive_solver.
    + injection Hpv as <-. rewrite Hbefore. naive_solver.
  - intros v Hval Hne Hty. eexists. split; [|apply Hcut]. apply Hv; [|done|by rewrite Hval].
    rewrite Hval. by destruct v.
  - intros full Htr Hty Hfull. eexists. split; [|apply Hcut]. by apply Hv.
Qed.

Lemma descriptor_truncation_witness :
  (exists p, getElementProps Config.default_config sample_page padded_button = Ok p
             /\ obj_get "elementText" p = Some (PStr "Save  changes")
             /\ obj_get "elementValue" p = Some (PStr "7"))
  /\ (exists p, getElementProps Config.default_config sample_page long_field = Ok p
                /\ obj_get "elementText" p
                   = Some (PStr "0123456789012345678901234567890123456789012345678901234567890123456789012345678901234567890123456789")
                /\ obj_get "elementValue" p
                   = Some (PStr "abcdefghijklmnopqrstuvwxyzabcdefghijklmnopqrstuvwx")).
Proof.
  split.
  - destruct (getElementProps Config.default_config sample_page padded_button)
      as [p|] eqn:Hp; [|by vm_compute in Hp].
    exists p. split; [done|].
    destruct (descriptor_truncation _ _ _ _
                (String "009" (String "010" (String "160" " ")))
                "Save  changes"
                (String " " (String "160" (String "013" (String "010" EmptyString))))
                Hp eq_refl eq_refl eq_refl eq_refl) as (_ & Ht & _ & _ & Hv).
    destruct (Ht eq_refl ltac:(done)) as (cut & Hcut & -> & _).
    destruct (Hv "7" eq_refl ltac:(done) eq_refl) as (cut' & Hcut' & -> & _).
    by split.
  - destruct (getElementProps Config.default_config sample_page long_field)
      as [p|] eqn:Hp; [|by vm_compute in Hp].
    exists p. split; [done|].
    destruct (descriptor_truncation _ _ _ _
                "  "
                "0123456789012345678901234567890123456789012345678901234567890123456789012345678901234567890123456789tail"
                "  "
                Hp eq_refl eq_refl eq_refl eq_refl) as (_ & Ht & _ & Hs & _).
    destruct (Ht eq_refl ltac:(done)) as (cut & Hcut & -> & _).
    destruct (Hs _ eq_refl ltac:(done) ltac:(done)) as (cut' & Hcut' & -> & _).
    by split.
Defined.

(** ** The marker climb *)

Lemma find_gaId_none n : find_gaId n None = None.
Proof. by destruct n. Qed.

Lemma element_chain_eq n :
  element_chain n = n :: match Dom.parentElement n with
                         | Some p => element_chain p
                         | None => []
                         end.
Proof.
  destruct n as [i nt tg d cl tx ds nm ty vl rl hr tgt fm kids [p|]]; [|done].
  cbn [element_chain Dom.parentNode]. unfold Dom.parentElement. cbn [Dom.parentNode].
  by destruct (Dom.nodeType p =? 1)%Z.
Qed.

Lemma find_gaId_chain n : forall e,
  find_gaId n (Some e) = head (omap dataset_gaId (take n (element_chain e))).
Proof.
  induction n as [|n IH]; intros e; [done|].
  rewrite element_chain_eq. cbn [find_gaId take]. unfold omap; cbn [list_omap].
  destruct (dataset_gaId e); [done|].
  destruct (Dom.parentElement e) as [p|].
  - apply IH.
  - rewrite find_gaId_none. by destruct n.
Qed.

(** X12: [gaId] is the marker of the nearest of the element and
    its first four ancestor elements that carries a non-empty one; a
    marker further up, or no marker within these five levels, leaves
    the descriptor without [gaId]. *)
Theorem gaId_nearest_within_five cfg pg element p :
  getElementProps cfg pg element = Ok p ->
  obj_get "gaId" p
  = PStr <$> head (omap dataset_gaId (take 5 (element_chain element))).
Proof.
  intros Hp.
  destruct (getElementProps_shape _ _ _ _ Hp) as (tag & xpath & pv & Htag & Hx & Hpv & ->).
  rewrite obj_get_set_ne, (obj_get_with_value _ _ _ _ _ _ Hpv) by done.
  unfold props_before_value. rewrite !obj_get_set_if_ne, obj_get_dataset_layer by done.
  rewrite <- find_gaId_chain.
  destruct (find_gaId 5 (Some element)) as [g|]; [apply obj_get_set_eq|].
  peel. by destruct (JsString.truthy (Dom.id element)).
Qed.

Lemma gaId_nearest_within_five_witness :
  (exists p, getElementProps Config.default_config sample_page deep_button = Ok p
             /\ obj_get "gaId" p = Some (PStr "near"))
  /\ (exists p, getElementProps Config.default_config sample_page
                  (marked 36 "BUTTON" None (Some deep_button)) = Ok p
                /\ obj_get "gaId" p = None).
Proof.
  split.
  - destruct (getElementProps Config.default_config sample_page deep_button) as [p|] eqn:Hp;
      [|by vm_compute in Hp].
    exists p. split; [done|]. by rewrite (gaId_nearest_within_five _ _ _ _ Hp).
  - destruct (getElementProps Config.default_config sample_page
                (marked 36 "BUTTON" None (Some deep_button))) as [p|] eqn:Hp;
      [|by vm_compute in Hp].
    exists p. split; [done|]. by rewrite (gaId_nearest_within_five _ _ _ _ Hp).
Defined.

(** ** Data attributes *)

Lemma data_key_eqb k k' : String.eqb ("data_" ++ k) ("data_" ++ k') = String.eqb k k'.
Proof. reflexivity. Qed.

Lemma lookup_key k ds v : Dom.lookup k ds = Some v -> k ∈ map fst ds.
Proof.
  induction ds as [|[k' v'] ds IH]; [done|]. simpl.
  destruct (String.eqb k k') eqn:Hk.
  - apply String.eqb_eq in Hk as ->. intros _. apply elem_of_cons. by left.
  - intros H. apply elem_of_cons. right. by apply IH.
Qed.

Lemma obj_get_copy_key ds k keys : forall p,
  k ∈ keys ->
  obj_get ("data_" ++ k)
    (fold_left (fun acc key => obj_set ("data_" ++ key) (data_value ds key) acc) keys p)
  = Some (data_value ds k).
Proof.
  assert (Hkeep : forall keys p,
             obj_get ("data_" ++ k) p = Some (data_value ds k) ->
             obj_get ("data_" ++ k)
               (fold_left (fun acc key => obj_set ("data_" ++ key) (data_value ds key) acc)
                          keys p) = Some (data_value ds k)).
  { clear keys. induction keys as [|key keys IH]; intros p Hp; [done|].
    cbn [fold_left]. apply IH. destruct (String.eqb k key) eqn:Hk.
    - apply String.eqb_eq in Hk as ->. apply obj_get_set_eq.
    - rewrite obj_get_set_ne; [done|]. by rewrite data_key_eqb. }
  induction keys as [|key keys IH]; intros p Hin; [by apply elem_of_nil in Hin|].
  cbn [fold_left]. destruct (String.eqb k key) eqn:Hk.
  - apply String.eqb_eq in Hk as ->. apply Hkeep, obj_get_set_eq.
  - apply IH. apply elem_of_cons in Hin as [->|?]; [|done].
    by rewrite String.eqb_refl in Hk.
Qed.

(** X13: with [captureAttributes] on, every data attribute of the
    element is in the descriptor under [data_<name>] with its value;
    with [captureAttributes] off, or on an element without a dataset,
    the descriptor has no [data_] key at all. *)
Theorem data_attributes_copied cfg pg element p :
  getElementProps cfg pg element = Ok p ->
  (forall ds key v,
      Config.captureAttributes cfg = true -> Dom.dataset element = Some ds ->
      Dom.lookup key ds = Some v ->
      obj_get ("data_" ++ key) p = Some (PStr v))
  /\ (Config.captureAttributes cfg = false \/ Dom.dataset element = None ->
      forall key, obj_get ("data_" ++ key) p = None).
Proof.
  intros Hp.
  destruct (getElementProps_shape _ _ _ _ Hp) as (tag & xpath & pv & Htag & Hx & Hpv & ->).
  split.
  - intros ds key v Hc Hds Hv.
    rewrite obj_get_set_ne, (obj_get_with_value _ _ _ _ _ _ Hpv) by done.
    unfold props_before_value. rewrite !obj_get_set_if_ne, Hds, Hc by done.
    unfold copy_dataset. fold (data_value ds).
    rewrite (obj_get_copy_key ds key) by (by eapply lookup_key).
    unfold data_value. by rewrite Hv.
  - intros Hoff key.
    rewrite obj_get_set_ne, (obj_get_with_value _ _ _ _ _ _ Hpv) by done.
    unfold props_before_value. rewrite !obj_get_set_if_ne by done.
    assert (Hlayer : forall o,
               match Dom.dataset element with
               | Some ds => if Config.captureAttributes cfg then copy_dataset ds o else o
               | None => o
               end = o).
    { intros o. destruct Hoff as [-> | ->]; [by destruct (Dom.dataset element)|done]. }
    rewrite Hlayer. peel. by destruct (JsString.truthy (Dom.id element)).
Qed.

Lemma data_attributes_copied_witness :
  exists p, getElementProps Config.default_config sample_page long_field = Ok p
            /\ obj_get "data_reportType" p = Some (PStr "triplog").
Proof.
  destruct (getElementProps Config.default_config sample_page long_field) as [p|] eqn:Hp;
    [|by vm_compute in Hp].
  exists p. split; [done|].
  exact (proj1 (data_attributes_copied _ _ _ _ Hp) _ "reportType" "triplog"
           eq_refl eq_refl eq_refl).
Defined.

(** ** A click that cannot be described *)

(** X14: when building the descriptor throws, the click listener
    drops that click: nothing is sent, one error goes to the console,
    the rest of the session is as before and nothing is thrown to the
    page; a click whose target has no tag name (the document itself)
    is such a click. *)
Theorem click_exception_dropped pg target s :
  registered Document "click" true s = true ->
  (forall err, getElementProps (config s) pg target = Throw err ->
               dispatch pg (EClick target) s
               = (Ok tt, set_console (console s ++ [ErrTrackingClick err]) s))
  /\ (Dom.tagName target = None ->
      exists err, getElementProps (config s) pg target = Throw err).
Proof.
  intros Hreg. split.
  - intros err Herr. cbn [dispatch]. unfold on. rewrite Hreg.
    unfold click_listener, try_catch. unfold_m. by rewrite Herr.
  - intros Htag. rewrite getElementProps_eq. unfold tagName_toLowerCase.
    rewrite Htag. by eexists.
Qed.

Lemma click_exception_dropped_witness :
  let s := started Config.no_custom ready_env in
  exists err, dispatch sample_page (EClick document_target) s
              = (Ok tt, set_console (console s ++ [ErrTrackingClick err]) s).
Proof.
  intros s.
  destruct (click_exception_dropped sample_page document_target s eq_refl) as [Hdrop Hthrow].
  destruct (Hthrow eq_refl) as [err Herr]. exists err. by apply Hdrop.
Defined.

(** ** The head of a submitted form *)

(** X15: what the submit listener sends for a form whose
    [elements] is its collection of controls: one [form_submitted]
    event with [formId] and [formName] being [form.id] and
    [form.name], or the word unknown when these are falsy, with
    [formAction] and [formMethod] as the form yields them, with
    [fieldCount] counting every control, password and unnamed ones
    included, and with [fields] listing the named controls that are no
    passwords. A control named "id" replaces [form.id], so [formId] is
    then that control and not the id attribute. The [fields] list is
    never longer than [fieldCount], and as long exactly when every
    control is named and not a password. *)
Theorem form_submitted_header pg form elements s :
  registered Document "submit" true s = true ->
  f_elements form = Some elements ->
  let fields := map entry_of (List.filter reported elements) in
  dispatch pg (ESubmit form) s
  = (Ok tt,
     set_sink (sink s ++
               [("form_submitted",
                 [("formId", named (f_id form));
                  ("formName", named (f_name form));
                  ("formAction", as_sent (f_action form));
                  ("formMethod", as_sent (f_method form));
                  ("fieldCount", PNum (JInt (Z.of_nat (length elements))));
                  ("fields", PFields fields)])]) s)
  /\ length fields <= length elements
  /\ (length fields = length elements
      <-> Forall (fun field => reported field = true) elements).
Proof.
  intros Hreg Hel fields. subst fields. split_and!.
  - cbn [dispatch]. unfold on. rewrite Hreg. unfold submit_listener. rewrite Hel.
    unfold_m. unfold form_props. rewrite collect_fields_spec.
    assert (Hnamed : forall v, or_else_unknown v = named v).
    { by intros [| |[]|n|x|[|c i]|toStr fields|toStr call]. }
    assert (Hsent : forall v, pval_of v = as_sent v) by (by intros []).
    by rewrite !Hnamed, !Hsent.
  - rewrite length_map. apply List.filter_length_le.
  - rewrite length_map. clear Hel.
    induction elements as [|f fs IH]; [by split|]. cbn [List.filter].
    destruct (reported f) eqn:Hf; cbn [length].
    + rewrite Forall_cons. split.
      * intros H. split; [done|]. apply IH. lia.
      * intros [_ H]. f_equal. by apply IH.
    + split.
      * intros H. pose proof (List.filter_length_le reported fs). lia.
      * intros H. apply Forall_cons in H as [H _]. congruence.
Qed.

Lemma form_submitted_header_witness :
  let s := started Config.no_custom ready_env in
  dispatch sample_page (ESubmit login_form) s
  = (Ok tt,
     set_sink [("form_submitted",
                [("formId", PVal id_control);
                 ("formName", PStr "unknown");
                 ("formAction", PStr "https://example.test/login");
                 ("formMethod", PStr "post");
                 ("fieldCount", PNum (JInt 4));
                 ("fields", PFields [{| fe_name := "user"; fe_type := "text" |};
                                     {| fe_name := "id"; fe_type := "hidden" |}])])] s).
Proof.
  intros s.
  exact (proj1 (form_submitted_header sample_page login_form login_fields s
                  eq_refl eq_refl)).
Defined.

(** ** Paths of siblings *)

Lemma scan_siblings_ge element siblings : forall ix k,
  scan_siblings siblings element ix = Some k -> ix <= k.
Proof.
  induction siblings as [|sib rest IH]; intros ix k; [done|]. cbn [scan_siblings].
  destruct (Dom.sib_ident sib =? Dom.ident element)%nat; [intros [= <-]; lia|].
  destruct (_ && _); intros H; apply IH in H; lia.
Qed.

Lemma scan_siblings_among element siblings : forall ix,
  among siblings element = true -> exists k, scan_siblings siblings element ix = Some k.
Proof.
  induction siblings as [|sib rest IH]; intros ix; [done|].
  cbn [among existsb scan_siblings].
  destruct (Dom.sib_ident sib =? Dom.ident element)%nat; [by eexists|].
  cbn [orb]. intros H. destruct (_ && _); by apply IH.
Qed.

Lemma listed_as_itself_cons sib rest element :
  listed_as_itself (sib :: rest) element =
  (if (Dom.sib_ident sib =? Dom.ident element)%nat
   then (Dom.sib_nodeType sib =? 1)%Z
        && same_tagName (Dom.sib_tagName sib) (Dom.tagName element)
   else true) && listed_as_itself rest element.
Proof. reflexivity. Qed.

Lemma scan_siblings_distinct a b siblings : forall ix ka kb,
  Dom.ident a <> Dom.ident b ->
  Dom.tagName a = Dom.tagName b ->
  listed_as_itself siblings a = true -> listed_as_itself siblings b = true ->
  scan_siblings siblings a ix = Some ka -> scan_siblings siblings b ix = Some kb ->
  ka <> kb.
Proof.
  intros ix ka kb Hid Htag. revert ix.
  induction siblings as [|sib rest IH]; intros ix Ha Hb; [done|].
  rewrite listed_as_itself_cons in Ha, Hb.
  apply andb_true_iff in Ha as [Ha Hra]. apply andb_true_iff in Hb as [Hb Hrb].
  cbn [scan_siblings]. rewrite <- Htag in Hb |- *.
  destruct (Dom.sib_ident sib =? Dom.ident a)%nat eqn:Hsa;
    destruct (Dom.sib_ident sib =? Dom.ident b)%nat eqn:Hsb.
  - apply Nat.eqb_eq in Hsa, Hsb. congruence.
  - rewrite Ha. intros [= <-] Hkb. apply scan_siblings_ge in Hkb. lia.
  - rewrite Hb. intros Hka [= <-]. apply scan_siblings_ge in Hka. lia.
  - destruct (_ && _); by apply IH.
Qed.

Lemma append_inv_head (a b c : string) : (a ++ b = a ++ c)%string -> b = c.
Proof.
  induction a as [|x a IH]; [done|]. rewrite !append_cons. intros [= H]. by apply IH.
Qed.

Lemma length_append (a b : string) :
  String.length (a ++ b) = String.length a + String.length b.
Proof. induction a as [|x a IH]; [done|]. rewrite append_cons. simpl. by rewrite IH. Qed.

Lemma append_inv_tail (a b c : string) : (a ++ c = b ++ c)%string -> a = b.
Proof.
  revert b. induction a as [|x a IH]; intros [|y b] H.
  - done.
  - apply (f_equal String.length) in H. rewrite !length_append in H. simpl in H. lia.
  - apply (f_equal String.length) in H. rewrite !length_append in H. simpl in H. lia.
  - rewrite !append_cons in H. injection H as -> H. f_equal. by apply IH.
Qed.

Lemma to_uint_nonnil n : Nat.to_uint n <> Decimal.Nil.
Proof.
  destruct n as [|n]; [done|]. intros H.
  pose proof (DecimalNat.Unsigned.of_to (S n)) as Hn. by rewrite H in Hn.
Qed.

Lemma of_nat_inj m n : JsString.of_nat m = JsString.of_nat n -> m = n.
Proof.
  unfold JsString.of_nat. intros H.
  apply (f_equal NilZero.uint_of_string) in H.
  rewrite !NilZero.usu in H by apply to_uint_nonnil.
  injection H as H. by apply DecimalNat.Unsigned.to_uint_inj.
Qed.

Lemma path_step_inj parentPath tag i j :
  path_step parentPath tag i = path_step parentPath tag j -> i = j.
Proof.
  unfold path_step. intros H.
  do 4 apply append_inv_head in H. apply append_inv_tail, of_nat_inj in H. lia.
Qed.

(** X16: two different element children of one parent that have
    the same tag name and no id never get the same path: the sibling
    scan gives them different positions, and their paths differ in
    that position only. *)
Theorem sibling_paths_differ pg parent a b tag :
  Dom.parentNode a = Some parent -> Dom.parentNode b = Some parent ->
  Dom.id a = EmptyString -> Dom.id b = EmptyString ->
  is_body pg a = false -> is_body pg b = false ->
  Dom.tagName a = Some tag -> Dom.tagName b = Some tag ->
  Dom.ident a <> Dom.ident b ->
  among (Dom.childNodes parent) a = true -> among (Dom.childNodes parent) b = true ->
  listed_as_itself (Dom.childNodes parent) a = true ->
  listed_as_itself (Dom.childNodes parent) b = true ->
  ancestors_tagged parent = true ->
  exists parentPath ka kb,
    getXPath pg a = Ok (path_step parentPath (JsString.toLowerCase tag) ka)
    /\ getXPath pg b = Ok (path_step parentPath (JsString.toLowerCase tag) kb)
    /\ ka <> kb
    /\ getXPath pg a <> getXPath pg b.
Proof.
  intros Hpa Hpb Hia Hib Hba Hbb Hta Htb Hid Hina Hinb Hla Hlb Hanc.
  destruct (getXPath_total pg parent Hanc) as [parentPath Hparent].
  destruct (scan_siblings_among a _ 0 Hina) as [ka Hka].
  destruct (scan_siblings_among b _ 0 Hinb) as [kb Hkb].
  assert (Hne : ka <> kb).
  { apply (scan_siblings_distinct a b (Dom.childNodes parent) 0 ka kb); try done.
    congruence. }
  assert (Ha : getXPath pg a = Ok (path_step parentPath (JsString.toLowerCase tag) ka)).
  { rewrite getXPath_eq, Hia, Hba, Hpa, Hka, Hparent. unfold tagName_toLowerCase.
    by rewrite Hta. }
  assert (Hb : getXPath pg b = Ok (path_step parentPath (JsString.toLowerCase tag) kb)).
  { rewrite getXPath_eq, Hib, Hbb, Hpb, Hkb, Hparent. unfold tagName_toLowerCase.
    by rewrite Htb. }
  exists parentPath, ka, kb. split_and!; try done.
  rewrite Ha, Hb. intros [= H]. by apply path_step_inj in H.
Qed.

Lemma sibling_paths_differ_witness :
  getXPath sample_page (row_button 51) = Ok "/html/body/div[2]/button[1]"
  /\ getXPath sample_page (row_button 52) = Ok "/html/body/div[2]/button[2]"
  /\ getXPath sample_page (row_button 51) <> getXPath sample_page (row_button 52).
Proof.
  destruct (sibling_paths_differ sample_page button_row (row_button 51) (row_button 52)
              "BUTTON" eq_refl eq_refl eq_refl eq_refl eq_refl eq_refl eq_refl eq_refl)
    as (parentPath & ka & kb & Ha & Hb & _ & Hne); try reflexivity.
  { simpl. lia. }
  split_and!; [reflexivity..|exact Hne].
Defined.

(** ** Where exceptions can come from *)

(** X17: an exception leaves the engine only from the submit
    listener on a target without an [elements] collection, from the
    error listener and from the rejection listener; every other event,
    the polling interval included, is handled without throwing. A
    listener that throws has sent nothing and left the session as it
    was. *)
Theorem dispatch_throw_sources pg ev s err :
  fst (dispatch pg ev s) = Throw err ->
  ((exists target, ev = ESubmit target /\ f_elements target = None)
   \/ (exists e, ev = EError e)
   \/ (exists reason, ev = EUnhandledRejection reason))
  /\ snd (dispatch pg ev s) = s.
Proof.
  destruct ev; cbn [dispatch]; try (unfold on; destruct (registered _ _ _ _); [|done]).
  - by rewrite click_listener_never_throws.
  - unfold submit_listener. unfold_m. destruct (f_elements target) eqn:Hel; [done|].
    intros _. split; [|done]. left. by exists target.
  - unfold scroll_listener. by unfold_m.
  - unfold scroll_timeout, trackScrollDepth. unfold_m.
    destruct (scrollTimer s); [|done].
    destruct (scroll_depth_update_same_gate (scroll_percent v) (set_scrollTimer None s))
      as [_ Hok].
    destruct (scroll_depth_update _ _) as [r s']. simpl in Hok. by subst r.
  - unfold error_listener. unfold_m. destruct (stack_of (error e)); [done|].
    intros _. split; [|done]. right. left. by exists e.
  - unfold unhandledrejection_listener. unfold_m. destruct (JsVal.String reason); [done|].
    intros _. split; [|done]. right. right. by exists reason.
  - unfold visibilitychange_listener. unfold_m. by destruct hidden.
  - rewrite focus_listener_cases. by destruct (_ && _).
  - unfold load_timeout. by unfold_m.
  - by rewrite checkInterval_tick_spec.
Qed.

Lemma dispatch_throw_sources_witness :
  let s := started Config.no_custom ready_env in
  snd (dispatch sample_page (EUnhandledRejection bare_reason) s) = s.
Proof.
  intros s.
  exact (proj2 (dispatch_throw_sources sample_page (EUnhandledRejection bare_reason) s
                  (TypeError "Cannot convert object to primitive value") eq_refl)).
Defined.
